(** * SQL request lifecycle of the reporting-engine addons

    A shallow embedding of [sql_request_abstract/models/sql_request_mixin.py]
    (the abstract model [sql.request.mixin]) and of
    [bi_sql_editor/models/bi_sql_view.py] (the model [bi.sql.view]), with the
    properties of the specification stated over it.

    Conventions of the embedding.
    - A Python [str] is a Rocq [string]; one character stands for one code
      point below 256, and the character classes below ([isspace], [lower],
      [isalnum]) are Python's on that range.
    - A method is a computation in the monad [M]: it threads the odoo
      environment (records, cursor) and either returns or raises.  The state
      survives a raise, as the ORM cache does until the framework rolls the
      transaction back.
    - What the database answers (errors with their class, rows, the text
      of the server version, the columns of a view) and what [uuid] draws
      are fields of an environment record the methods read.
    - A Python [float] is a double: the literal of a string is parsed,
      rounded to the nearest double and printed as Python does. *)

From Stdlib Require Import Strings.String Strings.Ascii ZArith Lia DecimalString.
From stdpp Require Import base option list strings gmap.
From Equations Require Import Equations.
From Equations.Prop Require Import Logic.

(** ** Exceptions and the method monad *)

(** The classes of psycopg2's errors that are not [ProgrammingError] nor
    one of its subclasses: [except ProgrammingError] lets them through. *)
Inductive pg_class : Type :=
| DataError
| OperationalError
| IntegrityError
| InternalError
| NotSupportedError
| InterfaceError.

Inductive exn : Type :=
| UserError (msg : string)
| ValidationError (msg : string)
| ProgrammingError (msg : string)
| PsycopgError (cls : pg_class) (msg : string)
| IndexError
| ValueError
| TypeError
| UnboundLocalError (var : string).

Definition M (St A : Type) : Type := St -> (exn + A) * St.

Definition ret {St A} (a : A) : M St A := fun s => (inr a, s).

Definition raise {St A} (e : exn) : M St A := fun s => (inl e, s).

Definition bind {St A B} (c : M St A) (k : A -> M St B) : M St B :=
  fun s =>
    match c s with
    | (inr a, s') => k a s'
    | (inl e, s') => (inl e, s')
    end.

Definition gets {St A} (f : St -> A) : M St A := fun s => (inr (f s), s).

Definition modify {St} (f : St -> St) : M St unit := fun s => (inr tt, f s).

(** [try: body finally: handler].  The handler runs on both exits of the
    body; an exception of the handler replaces the body's outcome. *)
Definition try_finally {St A} (body : M St A) (handler : M St unit) : M St A :=
  fun s =>
    let '(r, s1) := body s in
    match handler s1 with
    | (inr _, s2) => (r, s2)
    | (inl e, s2) => (inl e, s2)
    end.

(** [try: body except ProgrammingError as e: handler e]. *)
Definition except_ProgrammingError {St A} (body : M St A)
    (handler : string -> M St A) : M St A :=
  fun s =>
    match body s with
    | (inl (ProgrammingError e), s1) => handler e s1
    | r => r
    end.

Notation "'do' x <- c ;; k" := (bind c (fun x => k))
  (at level 10, x name, c at level 99, k at level 200).
Notation "c ;;; k" := (bind c (fun _ => k))
  (at level 100, k at level 200, right associativity).

(** [when b c] is [if b: c]. *)
Definition when {St} (b : bool) (c : M St unit) : M St unit :=
  if b then c else ret tt.

(** ** Python [str] *)

Module PyStr.

Definition code (c : ascii) : N := N_of_ascii c.

Definition between (lo hi : N) (c : ascii) : bool :=
  ((lo <=? code c) && (code c <=? hi))%N.

(** [str.isspace] of one code point: the ASCII blanks and separators and,
    above them, NEL and the no-break space. *)
Definition isspace (c : ascii) : bool :=
  between 9 13 c || between 28 32 c
  || (code c =? 133)%N || (code c =? 160)%N.

(** Code points that [str.lower] moves: A-Z and the Latin-1 capitals. *)
Definition isupper (c : ascii) : bool :=
  between 65 90 c || between 192 214 c || between 216 222 c.

Definition lower_char (c : ascii) : ascii :=
  if isupper c then ascii_of_N (code c + 32) else c.

Fixpoint lower (s : string) : string :=
  match s with
  | EmptyString => EmptyString
  | String c s' => String (lower_char c) (lower s')
  end.

(** [str.isalnum] of one code point: letters, digits, and the superscript
    digits and fractions of Latin-1. *)
Definition isalnum (c : ascii) : bool :=
  between 48 57 c || between 65 90 c || between 97 122 c
  || (code c =? 170)%N || between 178 179 c || (code c =? 181)%N
  || between 185 186 c || between 188 190 c
  || between 192 214 c || between 216 246 c || between 248 255 c.

Fixpoint lstrip (s : string) : string :=
  match s with
  | EmptyString => EmptyString
  | String c s' => if isspace c then lstrip s' else s
  end.

Fixpoint rstrip (s : string) : string :=
  match s with
  | EmptyString => EmptyString
  | String c s' =>
      match rstrip s' with
      | EmptyString => if isspace c then EmptyString else String c EmptyString
      | r => String c r
      end
  end.

(** [s.strip()] *)
Definition strip (s : string) : string := lstrip (rstrip s).

(** [s[-1]], [None] where Python raises [IndexError]. *)
Fixpoint last (s : string) : option ascii :=
  match s with
  | EmptyString => None
  | String c EmptyString => Some c
  | String _ s' => last s'
  end.

(** [s[:-1]] *)
Fixpoint but_last (s : string) : string :=
  match s with
  | EmptyString => EmptyString
  | String _ EmptyString => EmptyString
  | String c s' => String c (but_last s')
  end.

(** [s[:n]] *)
Fixpoint take (n : nat) (s : string) : string :=
  match n, s with
  | S n', String c s' => String c (take n' s')
  | _, _ => EmptyString
  end.

(** [a in b] for two strings: [a] occurs in [b] as a substring. *)
Fixpoint contains (b a : string) : bool :=
  String.prefix a b
  || match b with
     | EmptyString => false
     | String _ b' => contains b' a
     end.

(** [s.replace(a, b)] for single characters [a] and [b]. *)
Fixpoint replace_char (a b : ascii) (s : string) : string :=
  match s with
  | EmptyString => EmptyString
  | String c s' =>
      String (if Ascii.eqb c a then b else c) (replace_char a b s')
  end.

(** The characters a Rocq literal cannot hold. *)
Definition newline : string := String (ascii_of_N 10) EmptyString.
Definition dquote : string := String (ascii_of_N 34) EmptyString.

Fixpoint join (sep : string) (l : list string) : string :=
  match l with
  | [] => EmptyString
  | [x] => x
  | x :: l' => x +:+ sep +:+ join sep l'
  end.

(** [s.split(sep)] for a separator of one character. *)
Fixpoint split (sep : ascii) (s : string) : list string :=
  match s with
  | EmptyString => [EmptyString]
  | String c s' =>
      if Ascii.eqb c sep then EmptyString :: split sep s'
      else
        match split sep s' with
        | x :: l => String c x :: l
        | [] => [String c EmptyString]
        end
  end.

End PyStr.

(** ** Python [float]: the literal a string holds, its rounding, its [repr] *)

Module PyFloat.

Local Open Scope Z_scope.

(** A double: [(-1)^neg * m * 2^e] with [m < 2^53], an infinity, or NaN. *)
Inductive float : Type :=
| Finite (neg : bool) (m e : Z)
| Infinity (neg : bool)
| NaN.

(** *** The rounding of a decimal to the nearest double, ties to even *)

(** [num / (den * 2^k)] as a fraction of integers. *)
Definition scaled (num den k : Z) : Z * Z :=
  if 0 <=? k then (num, den * 2 ^ k) else (num * 2 ^ (- k), den).

Definition round_half_even (n d : Z) : Z :=
  let q := n / d in
  let r := n mod d in
  if 2 * r <? d then q
  else if d <? 2 * r then q + 1
  else if Z.even q then q else q + 1.

(** The double nearest to [num / den], for positive [num] and [den]. *)
Definition of_fraction (neg : bool) (num den : Z) : float :=
  let k0 := Z.log2 num - Z.log2 den - 52 in
  let '(n0, d0) := scaled num den k0 in
  let k1 := if n0 / d0 <? 2 ^ 52 then k0 - 1 else k0 in
  let k := Z.max k1 (-1074) in
  let '(n, d) := scaled num den k in
  let q := round_half_even n d in
  if (971 <? k) || ((k =? 971) && (q =? 2 ^ 53)) then Infinity neg
  else if q =? 2 ^ 53 then Finite neg (2 ^ 52) (k + 1)
  else Finite neg q k.

(** The double nearest to [m * 10^e], for [0 <= m]. *)
Definition of_decimal (neg : bool) (m e : Z) : float :=
  if m =? 0 then Finite neg 0 0
  else if 0 <=? e then of_fraction neg (m * 10 ^ e) 1
  else of_fraction neg m (10 ^ (- e)).

(** *** [float(s)] *)

Definition is_digit (c : ascii) : bool := PyStr.between 48 57 c.
Definition digit (c : ascii) : Z := Z.of_N (PyStr.code c) - 48.

(** The rest of a [digitpart] after a digit: digits, each after at most
    one [_].  Returns the number read so far, how many digits were added,
    and what is left. *)
Fixpoint digits_more (acc n : Z) (s : string) : Z * Z * string :=
  match s with
  | String c s' =>
      if is_digit c then digits_more (10 * acc + digit c) (n + 1) s'
      else if Ascii.eqb c "_" then
        match s' with
        | String d s'' =>
            if is_digit d then digits_more (10 * acc + digit d) (n + 1) s''
            else (acc, n, s)
        | EmptyString => (acc, n, s)
        end
      else (acc, n, s)
  | EmptyString => (acc, n, s)
  end.

(** [digitpart], continuing the number [acc]; [None] when [s] does not
    start with a digit. *)
Definition digitpart (acc : Z) (s : string) : option (Z * Z * string) :=
  match s with
  | String c s' =>
      if is_digit c then Some (digits_more (10 * acc + digit c) 1 s')
      else None
  | EmptyString => None
  end.

Definition sign (s : string) : bool * string :=
  match s with
  | String "-" s' => (true, s')
  | String "+" s' => (false, s')
  | _ => (false, s)
  end.

(** [exponent] and the end of the string: the power of ten, or [None]. *)
Definition exponent (s : string) : option Z :=
  match s with
  | EmptyString => Some 0
  | String c s' =>
      if Ascii.eqb c "e" || Ascii.eqb c "E" then
        let '(neg, s'') := sign s' in
        match digitpart 0 s'' with
        | Some (x, _, EmptyString) => Some (if neg then - x else x)
        | _ => None
        end
      else None
  end.

(** [floatnumber]: the digits as one integer and the power of ten. *)
Definition floatnumber (s : string) : option (Z * Z) :=
  match digitpart 0 s with
  | Some (i, _, String "." s') =>
      match digitpart i s' with
      | Some (m, n, s'') => x ← exponent s''; Some (m, x - n)
      | None => x ← exponent s'; Some (i, x)
      end
  | Some (i, _, s') => x ← exponent s'; Some (i, x)
  | None =>
      match s with
      | String "." s' =>
          match digitpart 0 s' with
          | Some (m, n, s'') => x ← exponent s''; Some (m, x - n)
          | None => None
          end
      | _ => None
      end
  end.

(** The blanks [float] skips around the literal: C's [isspace] and, once
    the string is brought to ASCII, NEL and the no-break space. *)
Definition is_space (c : ascii) : bool :=
  PyStr.between 9 13 c || (PyStr.code c =? 32)%N
  || (PyStr.code c =? 133)%N || (PyStr.code c =? 160)%N.

Fixpoint lstrip (s : string) : string :=
  match s with
  | EmptyString => EmptyString
  | String c s' => if is_space c then lstrip s' else s
  end.

Fixpoint rstrip (s : string) : string :=
  match s with
  | EmptyString => EmptyString
  | String c s' =>
      match rstrip s' with
      | EmptyString => if is_space c then EmptyString else String c EmptyString
      | r => String c r
      end
  end.

(** [float(s)] for a string; [None] where Python raises [ValueError]. *)
Definition float_of_str (s : string) : option float :=
  let '(neg, body) := sign (lstrip (rstrip s)) in
  let word := PyStr.lower body in
  if String.eqb word "inf" || String.eqb word "infinity" then
    Some (Infinity neg)
  else if String.eqb word "nan" then Some NaN
  else '(m, e) ← floatnumber body; Some (of_decimal neg m e).

(** *** Comparison *)

Definition signed (neg : bool) (m : Z) : Z := if neg then - m else m.

(** [x < y] *)
Definition ltb (x y : float) : bool :=
  match x, y with
  | NaN, _ | _, NaN => false
  | Infinity true, Infinity true => false
  | Infinity true, _ => true
  | _, Infinity true => false
  | Infinity false, _ => false
  | _, Infinity false => true
  | Finite n1 m1 e1, Finite n2 m2 e2 =>
      let e := Z.min e1 e2 in
      signed n1 m1 * 2 ^ (e1 - e) <? signed n2 m2 * 2 ^ (e2 - e)
  end.

(** *** [repr] *)

Definition eqb (x y : float) : bool :=
  match x, y with
  | Finite n1 m1 e1, Finite n2 m2 e2 =>
      Bool.eqb n1 n2 && (m1 =? m2) && (e1 =? e2)
  | _, _ => false
  end.

Definition Z_to_string (z : Z) : string :=
  NilZero.string_of_uint (N.to_uint (Z.to_N z)).

(** The least [t] from [t0] on with [num < den * 10^t]. *)
Fixpoint decimal_point (fuel : nat) (num den t : Z) : Z :=
  match fuel with
  | O => t
  | S fuel' =>
      if (if 0 <=? t then num <? den * 10 ^ t else num * 10 ^ (- t) <? den)
      then t else decimal_point fuel' num den (t + 1)
  end.

(** The [p]-digit decimals next to [num / den] (below and above) that
    round to the double [x]: the nearer one if both do. *)
Definition shortest_at (x : float) (num den decpt p : Z) : option Z :=
  let s := p - decpt in
  let '(n, d) :=
    if 0 <=? s then (num * 10 ^ s, den) else (num, den * 10 ^ (- s)) in
  let lo := n / d in
  let hi := lo + 1 in
  let ok c := eqb (of_decimal false c (- s)) x in
  match ok lo, ok hi with
  | true, true => Some (round_half_even n d)
  | true, false => Some lo
  | false, true => Some hi
  | false, false => None
  end.

Fixpoint shortest (x : float) (num den decpt : Z) (ps : list Z) : Z * Z :=
  match ps with
  | [] => (0, 1)
  | p :: ps' =>
      match shortest_at x num den decpt p with
      | Some c => (c, p)
      | None => shortest x num den decpt ps'
      end
  end.

Fixpoint strip_zeros (s : string) : string :=
  match s with
  | EmptyString => EmptyString
  | String c s' =>
      match strip_zeros s' with
      | EmptyString => if Ascii.eqb c "0" then EmptyString else String c EmptyString
      | r => String c r
      end
  end.

Fixpoint zeros (n : nat) : string :=
  match n with
  | O => EmptyString
  | S n' => String "0" (zeros n')
  end.

Fixpoint take (n : nat) (s : string) : string :=
  match n, s with
  | S n', String c s' => String c (take n' s')
  | _, _ => EmptyString
  end.

Fixpoint drop (n : nat) (s : string) : string :=
  match n, s with
  | S n', String _ s' => drop n' s'
  | _, _ => s
  end.

(** The digits [ds] with the decimal point after the first [decpt] of
    them, as [repr] lays them out. *)
Definition layout (ds : string) (decpt : Z) : string :=
  if (decpt <=? -4) || (16 <? decpt) then
    let x := decpt - 1 in
    let mantissa :=
      match ds with
      | String c EmptyString => ds
      | String c ds' => String c ("." +:+ ds')
      | EmptyString => ds
      end in
    let digits := Z_to_string (Z.abs x) in
    mantissa +:+ "e" +:+ (if x <? 0 then "-" else "+")
    +:+ (if Z.abs x <? 10 then "0" else "") +:+ digits
  else if decpt <=? 0 then "0." +:+ zeros (Z.to_nat (- decpt)) +:+ ds
  else if Z.of_nat (String.length ds) <=? decpt then
    ds +:+ zeros (Z.to_nat (decpt - Z.of_nat (String.length ds))) +:+ ".0"
  else take (Z.to_nat decpt) ds +:+ "." +:+ drop (Z.to_nat decpt) ds.

Definition repr (x : float) : string :=
  match x with
  | NaN => "nan"
  | Infinity neg => (if neg then "-" else "") +:+ "inf"
  | Finite neg m e =>
      (if neg then "-" else "") +:+
      (if m =? 0 then "0.0"
       else
         let '(num, den) := scaled m 1 (- e) in
         let t0 := ((Z.log2 num - Z.log2 den - 1) * 30103) / 100000 - 1 in
         let decpt := decimal_point 8 num den t0 in
         let '(c, p) :=
           shortest (Finite false m e) num den decpt
             [1; 2; 3; 4; 5; 6; 7; 8; 9; 10; 11; 12; 13; 14; 15; 16; 17] in
         let ds := Z_to_string c in
         layout (strip_zeros ds) (decpt + Z.of_nat (String.length ds) - p))
  end.

End PyFloat.


(** ** The regular expressions of [_check_prohibited_words] *)

Module Re.

(** The patterns the mixin builds are sequences of literal characters and
    word-boundary assertions. *)
Inductive atom : Type :=
| Boundary
| Lit (c : ascii).

Fixpoint literal (s : string) : list atom :=
  match s with
  | EmptyString => []
  | String c s' => Lit c :: literal s'
  end.

(** [\w] on a str pattern: [isalnum] or the underscore. *)
Definition is_word (c : ascii) : bool :=
  PyStr.isalnum c || Ascii.eqb c "_".

Definition is_word_at (c : option ascii) : bool :=
  match c with
  | Some c => is_word c
  | None => false
  end.

Definition head (s : string) : option ascii :=
  match s with
  | EmptyString => None
  | String c _ => Some c
  end.

(** [\b] holds between [prev] and the rest [s] when exactly one side is a
    word character; the two ends of the subject count as non-word. *)
Definition at_boundary (prev : option ascii) (s : string) : bool :=
  xorb (is_word_at prev) (is_word_at (head s)).

(** Match the pattern at the current position: [prev] is the character
    before it, [s] the subject from it on. *)
Fixpoint match_here (p : list atom) (prev : option ascii) (s : string) : bool :=
  match p with
  | [] => true
  | Boundary :: p' => at_boundary prev s && match_here p' prev s
  | Lit c :: p' =>
      match s with
      | EmptyString => false
      | String d s' => Ascii.eqb c d && match_here p' (Some d) s'
      end
  end.

Fixpoint search_from (p : list atom) (prev : option ascii) (s : string) : bool :=
  match_here p prev s
  || match s with
     | EmptyString => false
     | String d s' => search_from p (Some d) s'
     end.

(** [re.search(p, s)], as the truth value the caller tests. *)
Definition search (p : list atom) (s : string) : bool := search_from p None s.

End Re.

(** ** [sql.request.mixin] *)

Module SqlRequestMixin.

(** [STATE_SELECTION], with the two values [bi.sql.view] adds
    ([_STATE_SQL_EDITOR]). *)
Inductive State : Type := draft | sql_valid | model_valid | ui_valid.

#[global] Instance State_eq_dec : EqDecision State.
Proof. solve_decision. Defined.

Record Request : Type := {
  name : string;
  query : string;
  state : State;
  use_external_database : bool;
  has_group_changed : bool
}.

Definition set_query (q : string) (r : Request) : Request :=
  {| name := name r; query := q; state := state r;
     use_external_database := use_external_database r;
     has_group_changed := has_group_changed r |}.

Definition set_state (st : State) (r : Request) : Request :=
  {| name := name r; query := query r; state := st;
     use_external_database := use_external_database r;
     has_group_changed := has_group_changed r |}.

Definition set_has_group_changed (b : bool) (r : Request) : Request :=
  {| name := name r; query := query r; state := state r;
     use_external_database := use_external_database r;
     has_group_changed := b |}.

(** The two cursors a request can run on, and what was asked of them. *)
Inductive cursor : Type := EnvCr | ExternalCr.

Inductive event : Type :=
| Execute (cr : cursor) (req : string)
| CopyExpert (cr : cursor) (req : string)
| Close (cr : cursor).

(** The record [self] and the trace of the cursors: what the methods of
    the model asked of them, oldest first. *)
Record World : Type := {
  self : Request;
  trace : list event
}.

Definition on_self (f : Request -> Request) (w : World) : World :=
  {| self := f (self w); trace := trace w |}.

Definition emit (e : event) (w : World) : World :=
  {| self := self w; trace := trace w ++ [e] |}.

(** A fetched row, a tuple: each cell is given by its [repr], which is
    all the methods of the model read of the rows of a query. *)
Definition row : Type := list string.


(** The error of a statement the database refuses: its class, as far as
    [except ProgrammingError] tells the classes apart, and its text. *)
Inductive db_failure : Type :=
| Programming (msg : string)
| Other (cls : pg_class) (msg : string).

(** The exception [cr.execute] raises for it. *)
Definition thrown (f : db_failure) : exn :=
  match f with
  | Programming msg => ProgrammingError msg
  | Other cls msg => PsycopgError cls msg
  end.

(** What the methods read from outside the record: the class attribute
    [_name], the token [uuid] draws, psycopg2's [mogrify], and the answers
    of the database: the error of a statement it refuses; the text it
    answers to [SHOW server_version;]; the rows of the query and the
    column names its cursor then describes ([None] when the statement
    yields no rows to describe); the column names the cursor [env.cr]
    describes when the query ran on the external cursor, left there by
    whatever [env.cr] ran last; the encoded output of a [COPY]. *)
Record Env : Type := {
  _name : string;
  uuid_hex : string;
  mogrify : string -> option (list (string * string)) -> string;
  db_error : string -> option db_failure;
  server_version : string;
  fetchall : list row;
  fetchone : option row;
  description : option (list string);
  env_cr_description : option (list string);
  copy_output_b64 : string
}.

(** What [_execute_sql_request] returns.  The list of [fetchall] holds
    the tuples and, before them when [header] is set, the list of the
    column names. *)
Inductive result : Type :=
| RFalse
| RRows (colnames : option (list string)) (rows : list row)
| RRow (r : option row)
| RBytes (b64 : string).

Definition PROHIBITED_WORDS : list string :=
  [ "delete"; "drop"; "insert"; "alter"; "truncate"; "execute"; "create";
    "update"; "ir_config_parameter" ].

(** The loop of [_clean_query]:
    [while query[-1] == ";": query = query[:-1]]. *)
Equations? strip_semicolons (q : string) : exn + string
    by wf (String.length q) lt :=
  strip_semicolons q with inspect (PyStr.last q) => {
    | exist _ None _ => inl IndexError;
    | exist _ (Some c) Hc =>
        if Ascii.eqb c ";" then strip_semicolons (PyStr.but_last q)
        else inr q }.
Proof.
  clear strip_semicolons.
  revert Hc. induction q as [|a [|b q] IH]; simpl in *; intros; try lia; try done.
  specialize (IH Hc). lia.
Qed.

Section Methods.

Variable env : Env.

(** [cr.execute(req)] *)
Definition execute (cr : cursor) (req : string) : M World unit :=
  modify (emit (Execute cr req));;;
  match db_error env req with
  | Some f => raise (thrown f)
  | None => ret tt
  end.

(** [cr.copy_expert(req, output)] *)
Definition copy_expert (cr : cursor) (req : string) : M World unit :=
  modify (emit (CopyExpert cr req));;;
  match db_error env req with
  | Some f => raise (thrown f)
  | None => ret tt
  end.

Definition _get_cr_for_query : M World cursor :=
  do ext <- gets (fun w => use_external_database (self w));;
  if ext then ret ExternalCr else ret EnvCr.

Definition _create_savepoint (cr : cursor) : M World string :=
  let rollback_name :=
    PyStr.replace_char "." "_" (_name env) +:+ "_" +:+ uuid_hex env in
  execute cr ("SAVEPOINT " +:+ rollback_name);;;
  ret rollback_name.

Definition _rollback_savepoint (rollback_name : string) (cr : cursor)
    : M World unit :=
  execute cr ("ROLLBACK TO SAVEPOINT " +:+ rollback_name);;;
  (* close external database cursor *)
  match cr with
  | EnvCr => ret tt
  | ExternalCr => modify (emit (Close cr))
  end.

Definition _check_materialized_view_available : M World unit :=
  execute EnvCr "SHOW server_version;";;;
  let res := PyStr.split "." (server_version env) in
  match PyFloat.float_of_str (PyStr.join "." (firstn 2 res)) with
  | None => raise ValueError
  | Some minor_version =>
      if PyFloat.ltb minor_version (PyFloat.of_decimal false 93 (-1)) then
        raise (UserError
          ("Materialized View requires PostgreSQL 9.3 or greater but"
           +:+ " PostgreSQL " +:+ PyFloat.repr minor_version
           +:+ " is currently installed."))
      else ret tt
  end.

(** [SQL(s)] of psycopg2 refuses what is not a string; [view_name]
    defaults to [False], here [None]. *)
Definition SQL (s : option string) : M World string :=
  match s with
  | Some s => ret s
  | None => raise TypeError
  end.

Definition _execute_sql_request
    (params : option (list (string * string)))
    (mode : string) (rollback : bool) (view_name : option string)
    (copy_options : string) (header : bool) : M World result :=
  do st <- gets (fun w => state (self w));;
  if decide (st = draft) then
    raise (UserError "It is not allowed to execute a not checked request.")
  else
  let rollback :=
    if String.eqb mode "view" || String.eqb mode "materialized_view"
    then false else rollback in
  do q <- gets (fun w => query (self w));;
  let query := mogrify env q params in
  do query <-
    (if String.eqb mode "fetchone" || String.eqb mode "fetchall" then
       ret query
     else if String.eqb mode "stdout" then
       ret ("COPY (" +:+ query +:+ ") TO STDOUT WITH " +:+ copy_options)
     else if PyStr.contains "view" mode then
       (* [.format(SQL(query), SQL(view_name))]: [{0}] is the query and
          [{1}] the name *)
       do a1 <- SQL view_name;;
       ret ("CREATE VIEW " +:+ query +:+ " AS (" +:+ a1 +:+ ");")
     else if PyStr.contains "materialized_view" mode then
       _check_materialized_view_available;;;
       do a1 <- SQL view_name;;
       ret ("CREATE MATERIALIZED VIEW " +:+ query +:+ " AS (" +:+ a1 +:+ ");")
     else
       raise (UserError ("Unimplemented mode : '" +:+ mode +:+ "'")));;
  do query_cr <- _get_cr_for_query;;
  do rollback_name <-
    (if rollback then
       do n <- _create_savepoint query_cr;; ret (Some n)
     else ret None);;
  try_finally
    (if String.eqb mode "stdout" then
       copy_expert query_cr query;;;
       ret (RBytes (copy_output_b64 env))
     else
       execute query_cr query;;;
       if String.eqb mode "fetchall" then
         let res := fetchall env in
         if header then
           (* the names are read from [self.env.cr], whatever the cursor
              of the query *)
           match (match query_cr with
                  | EnvCr => description env
                  | ExternalCr => env_cr_description env
                  end) with
           | Some colnames => ret (RRows (Some colnames) res)
           | None => raise TypeError
           end
         else ret (RRows None res)
       else if String.eqb mode "fetchone" then
         ret (RRow (fetchone env))
       else ret RFalse)
    (* [rollback_name] is bound only when [rollback] held *)
    (match rollback_name with
     | Some n => _rollback_savepoint n query_cr
     | None => raise (UnboundLocalError "rollback_name")
     end).

Definition _clean_query : M World unit :=
  do q <- gets (fun w => query (self w));;
  match strip_semicolons (PyStr.strip q) with
  | inl e => raise e
  | inr q' => modify (on_self (set_query q'))
  end.

Definition unsafe_word_message (word : string) : string :=
  "The query is not allowed because it contains unsafe word"
  +:+ " '" +:+ word +:+ "'".

(** [rf"\b{word}\b"] *)
Definition word_pattern (word : string) : list Re.atom :=
  Re.Boundary :: Re.literal word ++ [Re.Boundary].

(** The loop [for word in self.PROHIBITED_WORDS] over the lowered query. *)
Fixpoint check_words (words : list string) (q : string) : M World unit :=
  match words with
  | [] => ret tt
  | word :: words' =>
      if Re.search (word_pattern word) q then
        raise (UserError (unsafe_word_message word))
      else check_words words' q
  end.

Definition _check_prohibited_words : M World unit :=
  do q <- gets (fun w => query (self w));;
  check_words PROHIBITED_WORDS (PyStr.lower q).

(** The two methods a model overloads are arguments here; the mixin's
    own are [_prepare_request_check_execution] and
    [_hook_executed_request] below. *)
Definition _check_execution {A}
    (prepare_request_check_execution : M World string)
    (hook_executed_request : M World A) : M World A :=
  do q <- prepare_request_check_execution;;
  do query_cr <- _get_cr_for_query;;
  do rollback_name <- _create_savepoint query_cr;;
  try_finally
    (except_ProgrammingError
       (execute query_cr q;;; hook_executed_request)
       (fun e =>
          raise (UserError
            ("The SQL query is not valid:" +:+ PyStr.newline
             +:+ PyStr.newline +:+ " " +:+ e))))
    (_rollback_savepoint rollback_name query_cr).

Definition _prepare_request_check_execution : M World string :=
  gets (fun w => query (self w)).

Definition _hook_executed_request : M World bool := ret false.

Definition _clean_query_enabled : bool := true.
Definition _check_prohibited_words_enabled : bool := true.
Definition _check_execution_enabled : bool := true.

(** [button_validate_sql_expression] on one record.  A model that
    inherits the mixin runs it in its own state [W], reached through
    [lift], and with its own [_check_execution]. *)
Definition button_validate_sql_expression {W A}
    (lift : forall B, M World B -> M W B)
    (check_execution : M W A) : M W unit :=
  when _clean_query_enabled (lift _ _clean_query);;;
  when _check_prohibited_words_enabled (lift _ _check_prohibited_words);;;
  when _check_execution_enabled (check_execution;;; ret tt);;;
  lift _ (modify (on_self (set_state sql_valid))).

Definition button_set_draft : M World unit :=
  modify (on_self (fun r => set_state draft (set_has_group_changed false r))).

End Methods.

(** The mixin on its own: no lifting, and its own probe. *)
Definition validate (env : Env) : M World unit :=
  button_validate_sql_expression (fun _ c => c)
    (_check_execution env _prepare_request_check_execution
       _hook_executed_request).

End SqlRequestMixin.

(** ** [bi.sql.view.field] *)

Module BiSqlViewField.

Inductive GraphType : Type := measure | row | col.

(** Modelled from the spec: the columns of the model [bi.sql.view.field],
    whose declaration ([bi_sql_view_field.py]) is not among the sources.
    They are the ones the data model of the specification lists for a
    ViewField and [bi_sql_view.py] reads or writes: [name], [sequence]
    (the catalog ordinal), [sql_type], [is_index], [graph_type], and the
    owning view [bi_sql_view_id]. *)
Record ViewField : Type := {
  id : nat;
  bi_sql_view_id : nat;
  name : string;
  sequence : Z;
  sql_type : string;
  is_index : bool;
  graph_type : option GraphType
}.

(** [write({"sequence": s, "sql_type": t})] on one row. *)
Definition set_sequence_sql_type (s : Z) (t : string) (f : ViewField) : ViewField :=
  {| id := id f; bi_sql_view_id := bi_sql_view_id f; name := name f;
     sequence := s; sql_type := t;
     is_index := is_index f; graph_type := graph_type f |}.

(** [write({"is_index": b})] on one row. *)
Definition set_is_index (b : bool) (f : ViewField) : ViewField :=
  {| id := id f; bi_sql_view_id := bi_sql_view_id f; name := name f;
     sequence := sequence f; sql_type := sql_type f;
     is_index := b; graph_type := graph_type f |}.

(** The row [create] makes from the values [_check_execution] passes;
    the columns it does not pass take the ORM's default for their type. *)
Definition new (i view : nat) (s : Z) (n t : string) : ViewField :=
  {| id := i; bi_sql_view_id := view; name := n; sequence := s;
     sql_type := t; is_index := false; graph_type := None |}.

End BiSqlViewField.

(** ** [bi.sql.view] *)

Module BiSqlView.

Import BiSqlViewField.

Abbreviation Request := SqlRequestMixin.Request.
Abbreviation State := SqlRequestMixin.State.
Abbreviation draft := SqlRequestMixin.draft.
Abbreviation sql_valid := SqlRequestMixin.sql_valid.
Abbreviation model_valid := SqlRequestMixin.model_valid.
Abbreviation ui_valid := SqlRequestMixin.ui_valid.
Abbreviation EnvCr := SqlRequestMixin.EnvCr.
Abbreviation Execute := SqlRequestMixin.Execute.

Definition _name : string := "bi.sql.view".
Definition _sql_prefix : string := "x_bi_sql_view_".
Definition _model_prefix : string := "x_bi_sql_view.".

(** A record of [bi.sql.view]: the columns it inherits from the mixin and
    its own.  A many2one is [None] when empty. *)
Record SqlView : Type := {
  id : nat;
  request : Request;
  technical_name : string;
  is_materialized : bool;
  size : option string;
  cron_id : option nat;
  rule_id : option nat;
  model_id : option nat;
  tree_view_id : option nat;
  graph_view_id : option nat;
  pivot_view_id : option nat;
  search_view_id : option nat;
  action_id : option nat;
  menu_id : option nat
}.

Definition state (v : SqlView) : State := SqlRequestMixin.state (request v).
Definition query (v : SqlView) : string := SqlRequestMixin.query (request v).

(** The stored computed columns. *)
Definition view_name (v : SqlView) : string := _sql_prefix +:+ technical_name v.
Definition model_name (v : SqlView) : string := _model_prefix +:+ technical_name v.
Definition materialized_text (v : SqlView) : string :=
  if is_materialized v then "MATERIALIZED" else "".

Definition set_request (r : Request) (v : SqlView) : SqlView :=
  {| id := id v; request := r; technical_name := technical_name v;
     is_materialized := is_materialized v; size := size v;
     cron_id := cron_id v; rule_id := rule_id v; model_id := model_id v;
     tree_view_id := tree_view_id v; graph_view_id := graph_view_id v;
     pivot_view_id := pivot_view_id v; search_view_id := search_view_id v;
     action_id := action_id v; menu_id := menu_id v |}.

Definition set_state (st : State) (v : SqlView) : SqlView :=
  set_request (SqlRequestMixin.set_state st (request v)) v.

Definition set_is_materialized (b : bool) (v : SqlView) : SqlView :=
  {| id := id v; request := request v; technical_name := technical_name v;
     is_materialized := b; size := size v;
     cron_id := cron_id v; rule_id := rule_id v; model_id := model_id v;
     tree_view_id := tree_view_id v; graph_view_id := graph_view_id v;
     pivot_view_id := pivot_view_id v; search_view_id := search_view_id v;
     action_id := action_id v; menu_id := menu_id v |}.

Definition set_size (sz : option string) (v : SqlView) : SqlView :=
  {| id := id v; request := request v; technical_name := technical_name v;
     is_materialized := is_materialized v; size := sz;
     cron_id := cron_id v; rule_id := rule_id v; model_id := model_id v;
     tree_view_id := tree_view_id v; graph_view_id := graph_view_id v;
     pivot_view_id := pivot_view_id v; search_view_id := search_view_id v;
     action_id := action_id v; menu_id := menu_id v |}.

(** The references a deleted target leaves empty ([ondelete] set null). *)
Definition clear_ui (v : SqlView) : SqlView :=
  {| id := id v; request := request v; technical_name := technical_name v;
     is_materialized := is_materialized v; size := size v;
     cron_id := cron_id v; rule_id := rule_id v; model_id := model_id v;
     tree_view_id := None; graph_view_id := None;
     pivot_view_id := None; search_view_id := None;
     action_id := None; menu_id := None |}.

Definition clear_rule (v : SqlView) : SqlView :=
  {| id := id v; request := request v; technical_name := technical_name v;
     is_materialized := is_materialized v; size := size v;
     cron_id := cron_id v; rule_id := None; model_id := model_id v;
     tree_view_id := tree_view_id v; graph_view_id := graph_view_id v;
     pivot_view_id := pivot_view_id v; search_view_id := search_view_id v;
     action_id := action_id v; menu_id := menu_id v |}.

Definition clear_model (v : SqlView) : SqlView :=
  {| id := id v; request := request v; technical_name := technical_name v;
     is_materialized := is_materialized v; size := size v;
     cron_id := cron_id v; rule_id := rule_id v; model_id := None;
     tree_view_id := tree_view_id v; graph_view_id := graph_view_id v;
     pivot_view_id := pivot_view_id v; search_view_id := search_view_id v;
     action_id := action_id v; menu_id := menu_id v |}.

(** The tables of the other models a view owns records of: [ir.cron]
    with its [active] flag, and the identifiers present in [ir.rule],
    [ir.model], [ir.ui.view], [ir.actions.act_window], [ir.ui.menu]. *)
Record Orm : Type := {
  ir_cron : gmap nat bool;
  ir_rule : gset nat;
  ir_model : gset nat;
  ir_ui_view : gset nat;
  ir_actions_act_window : gset nat;
  ir_ui_menu : gset nat
}.

(** The record [self], the table of [bi.sql.view.field] in insertion order
    with the next identifier of its sequence, the other tables, and the
    statements the methods of the model sent to the cursors, oldest first
    (what the ORM sends on its own behalf, as when a model object is
    unlinked, is not part of the trace). *)
Record World : Type := {
  self : SqlView;
  field_table : list ViewField;
  next_field_id : nat;
  orm : Orm;
  trace : list SqlRequestMixin.event
}.

Definition on_self (f : SqlView -> SqlView) (w : World) : World :=
  {| self := f (self w); field_table := field_table w;
     next_field_id := next_field_id w; orm := orm w; trace := trace w |}.

Definition on_orm (f : Orm -> Orm) (w : World) : World :=
  {| self := self w; field_table := field_table w;
     next_field_id := next_field_id w; orm := f (orm w); trace := trace w |}.

Definition on_field_table (f : list ViewField -> list ViewField) (w : World) : World :=
  {| self := self w; field_table := f (field_table w);
     next_field_id := next_field_id w; orm := orm w; trace := trace w |}.

(** The state the mixin's methods see, and their effect put back. *)
Definition to_mixin (w : World) : SqlRequestMixin.World :=
  {| SqlRequestMixin.self := request (self w);
     SqlRequestMixin.trace := trace w |}.

Definition of_mixin (m : SqlRequestMixin.World) (w : World) : World :=
  {| self := set_request (SqlRequestMixin.self m) (self w);
     field_table := field_table w; next_field_id := next_field_id w;
     orm := orm w; trace := SqlRequestMixin.trace m |}.

Definition lift (A : Type) (c : M SqlRequestMixin.World A) : M World A :=
  fun w => let '(r, m) := c (to_mixin w) in (r, of_mixin m w).

(** [self.bi_sql_view_field_ids], in table order (no method below depends
    on the order of the recordset). *)
Definition bi_sql_view_field_ids (w : World) : list ViewField :=
  filter (fun f => bi_sql_view_id f = id (self w)) (field_table w).

(** A row of the catalog query: [(attnum, attname, type)]. *)
Definition column : Type := Z * string * string.
Definition attnum (c : column) : Z := c.1.1.
Definition attname (c : column) : string := c.1.2.
Definition atttype (c : column) : string := c.2.

(** The environment of the mixin, and the rows the catalog query of
    [_hook_executed_request] fetches. *)
Record Env : Type := {
  base : SqlRequestMixin.Env;
  pg_attribute : list column
}.

(** [Identifier(s)] of psycopg2, as it prints: quoted, quotes doubled. *)
Fixpoint double_quotes (s : string) : string :=
  match s with
  | EmptyString => EmptyString
  | String c s' =>
      if Ascii.eqb c (ascii_of_N 34) then String c (String c (double_quotes s'))
      else String c (double_quotes s')
  end.

Definition Identifier (s : string) : string :=
  PyStr.dquote +:+ double_quotes s +:+ PyStr.dquote.

Section Methods.

Variable env : Env.

(** [_log_execute(req)]: the statement goes to [env.cr]. *)
Definition _log_execute (req : string) : M World unit :=
  lift _ (SqlRequestMixin.execute (base env) EnvCr req).

(** *** Constraint *)

Definition index_error_message : string :=
  "You can not create indexes on non materialized views".

Definition _check_index_materialized : M World unit :=
  do rec <- gets self;;
  if negb (is_materialized rec) then
    do fs <- gets bi_sql_view_field_ids;;
    match filter (fun x => is_index x = true) fs with
    | [] => ret tt
    | _ => raise (UserError index_error_message)
    end
  else ret tt.

(** *** Reset transitions *)

Definition unlink_from (ids : option nat) (table : gset nat) : gset nat :=
  match ids with
  | Some i => table ∖ {[ i ]}
  | None => table
  end.

(** The six [views.mapped(...).unlink()] of [button_reset_to_model_valid]
    on the tables. *)
Definition unlink_ui (v : SqlView) (o : Orm) : Orm :=
  {| ir_cron := ir_cron o; ir_rule := ir_rule o; ir_model := ir_model o;
     ir_ui_view :=
       unlink_from (search_view_id v)
         (unlink_from (pivot_view_id v)
            (unlink_from (graph_view_id v)
               (unlink_from (tree_view_id v) (ir_ui_view o))));
     ir_actions_act_window :=
       unlink_from (action_id v) (ir_actions_act_window o);
     ir_ui_menu := unlink_from (menu_id v) (ir_ui_menu o) |}.

Definition button_reset_to_model_valid : M World unit :=
  do v <- gets self;;
  if decide (state v = ui_valid) then
    modify (on_orm (unlink_ui v));;;
    modify (on_self clear_ui);;;
    modify (on_self (set_state model_valid))
  else ret tt.

Definition _drop_view : M World unit :=
  do sql_view <- gets self;;
  _log_execute
    ("DROP " +:+ materialized_text sql_view +:+ " VIEW IF EXISTS "
     +:+ Identifier (view_name sql_view));;;
  modify (on_self (set_size None)).

Definition set_cron_active (i : nat) (b : bool) (o : Orm) : Orm :=
  {| ir_cron := alter (fun _ => b) i (ir_cron o);
     ir_rule := ir_rule o; ir_model := ir_model o;
     ir_ui_view := ir_ui_view o;
     ir_actions_act_window := ir_actions_act_window o;
     ir_ui_menu := ir_ui_menu o |}.

Definition unlink_rule (i : nat) (o : Orm) : Orm :=
  {| ir_cron := ir_cron o;
     ir_rule := ir_rule o ∖ {[ i ]}; ir_model := ir_model o;
     ir_ui_view := ir_ui_view o;
     ir_actions_act_window := ir_actions_act_window o;
     ir_ui_menu := ir_ui_menu o |}.

Definition unlink_model (i : nat) (o : Orm) : Orm :=
  {| ir_cron := ir_cron o;
     ir_rule := ir_rule o; ir_model := ir_model o ∖ {[ i ]};
     ir_ui_view := ir_ui_view o;
     ir_actions_act_window := ir_actions_act_window o;
     ir_ui_menu := ir_ui_menu o |}.

Definition _drop_model_and_fields : M World unit :=
  do sql_view <- gets self;;
  match rule_id sql_view with
  | Some r => modify (on_orm (unlink_rule r));;; modify (on_self clear_rule)
  | None => ret tt
  end;;;
  match model_id sql_view with
  | Some m => modify (on_orm (unlink_model m));;; modify (on_self clear_model)
  | None => ret tt
  end.

Definition button_reset_to_sql_valid : M World unit :=
  button_reset_to_model_valid;;;
  do sql_view <- gets self;;
  if decide (state sql_view = model_valid) then
    (* Drop SQL View (and indexes by cascade) *)
    when (is_materialized sql_view) _drop_view;;;
    match cron_id sql_view with
    | Some c => modify (on_orm (set_cron_active c false))
    | None => ret tt
    end;;;
    (* Drop ORM *)
    _drop_model_and_fields;;;
    modify (on_self (set_state sql_valid))
  else ret tt.

Definition button_set_draft : M World unit :=
  button_reset_to_model_valid;;;
  button_reset_to_sql_valid;;;
  lift _ SqlRequestMixin.button_set_draft.

(** *** The execution probe and the synchronisation of the fields *)

Definition catalog_request (v : string) : string :=
  PyStr.join PyStr.newline
    [ "";
      "            SELECT  attnum,";
      "                    attname AS column,";
      "                    format_type(atttypid, atttypmod) AS type";
      "            FROM    pg_attribute";
      "            WHERE   attrelid = '" +:+ Identifier v +:+ "'::regclass";
      "            AND     NOT attisdropped";
      "            AND     attnum > 0";
      "            ORDER   BY attnum;" ].

(** The two overloads run inside the mixin's [_check_execution]; they
    read [self.view_name], passed here as [v]. *)
Definition _hook_executed_request (v : string)
    : M SqlRequestMixin.World (list column) :=
  SqlRequestMixin.execute (base env) EnvCr (catalog_request v);;;
  ret (pg_attribute env).

Definition _prepare_request_check_execution (v : string)
    : M SqlRequestMixin.World string :=
  do q <- gets (fun m => SqlRequestMixin.query (SqlRequestMixin.self m));;
  ret ("CREATE VIEW " +:+ Identifier v +:+ " AS (" +:+ q +:+ ");").

(** [super()._check_execution()] *)
Definition super_check_execution : M World (list column) :=
  do v <- gets self;;
  lift _ (SqlRequestMixin._check_execution (base env)
            (_prepare_request_check_execution (view_name v))
            (_hook_executed_request (view_name v))).

(** [records.write({"sequence": s, "sql_type": t})] *)
Definition write_sequence_sql_type (records : list ViewField) (s : Z) (t : string)
    : M World unit :=
  modify (on_field_table
    (fmap (fun f =>
       if decide (BiSqlViewField.id f ∈ BiSqlViewField.id <$> records)
       then set_sequence_sql_type s t f else f))).

(** [sql_view_field_obj.create({...}).id] *)
Definition create_field (s : Z) (n t : string) : M World nat :=
  fun w =>
    let i := next_field_id w in
    (inr i,
     {| self := self w;
        field_table := field_table w ++ [BiSqlViewField.new i (id (self w)) s n t];
        next_field_id := S i; orm := orm w; trace := trace w |}).

(** One turn of [for column in columns], on the list [field_ids]. *)
Definition sync_column (column : column) (field_ids : list nat)
    : M World (list nat) :=
  do fs <- gets bi_sql_view_field_ids;;
  match filter (fun x => name x = attname column) fs with
  | [] =>
      (* Create a new one if name is prefixed by x_ *)
      if String.eqb (PyStr.take 2 (attname column)) "x_" then
        do i <- create_field (attnum column) (attname column) (atttype column);;
        ret (field_ids ++ [i])
      else ret field_ids
  | [existing_field] =>
      (* Update existing field *)
      write_sequence_sql_type [existing_field] (attnum column) (atttype column);;;
      ret (field_ids ++ [BiSqlViewField.id existing_field])
  | _ :: _ :: _ =>
      (* [existing_field.id] of several records *)
      raise ValueError
  end.

Fixpoint sync_columns (columns : list column) (field_ids : list nat)
    : M World (list nat) :=
  match columns with
  | [] => ret field_ids
  | column :: columns' =>
      do field_ids' <- sync_column column field_ids;;
      sync_columns columns' field_ids'
  end.

(** [self.bi_sql_view_field_ids.filtered(lambda x: x.id not in field_ids).unlink()] *)
Definition unlink_obsolete (field_ids : list nat) : M World unit :=
  do v <- gets self;;
  modify (on_field_table
    (filter (fun x =>
       ¬ (bi_sql_view_id x = id v ∧ BiSqlViewField.id x ∉ field_ids)))).

Definition no_column_message : string :=
  "No Column was found." +:+ PyStr.newline
  +:+ "Columns name should be prefixed by 'x_'.".

(** The part of [_check_execution] after the probe. *)
Definition reconcile (columns : list column) : M World (list column) :=
  do field_ids <- sync_columns columns [];;
  (* Drop obsolete view field *)
  unlink_obsolete field_ids;;;
  do fs <- gets bi_sql_view_field_ids;;
  match fs with
  | [] => raise (UserError no_column_message)
  | _ => ret columns
  end.

Definition _check_execution : M World (list column) :=
  do columns <- super_check_execution;;
  reconcile columns.

(** The inherited [button_validate_sql_expression]. *)
Definition button_validate_sql_expression : M World unit :=
  SqlRequestMixin.button_validate_sql_expression lift _check_execution.

(** *** Writes of the two columns of the index constraint *)

(** [self.write({"is_materialized": b})]: the value is set, then the
    constraints of the written column run. *)
Definition write_is_materialized (b : bool) : M World unit :=
  modify (on_self (set_is_materialized b));;;
  _check_index_materialized.

(** Modelled from the spec: the constraint of [bi.sql.view.field] on
    [is_index] ([bi_sql_view_field.py] is not among the sources).  The
    data model gives [is_index] as materialized-only and the index
    invariant says that indexes may exist only when the view is
    materialized: a row of [self] that is an index is refused when
    [self] is not materialized. *)
Definition field_check_index_materialized (fid : nat) : M World unit :=
  do v <- gets self;;
  do fs <- gets bi_sql_view_field_ids;;
  match filter (fun x => BiSqlViewField.id x = fid ∧ is_index x = true) fs with
  | [] => ret tt
  | _ => if is_materialized v then ret tt
         else raise (UserError index_error_message)
  end.

(** Modelled from the spec: [field.write({"is_index": b})] on the row
    [fid] of [self], followed by the constraint above. *)
Definition field_write_is_index (fid : nat) (b : bool) : M World unit :=
  do v <- gets self;;
  modify (on_field_table
    (fmap (fun f =>
       if decide (BiSqlViewField.id f = fid ∧ bi_sql_view_id f = id v)
       then set_is_index b f else f)));;;
  field_check_index_materialized fid.

End Methods.

End BiSqlView.

(** * Properties *)

(** ** Sample requests *)

Module MixinSamples.

Import SqlRequestMixin.

(** An environment whose database accepts every statement. *)
Definition sample_env : Env :=
  {| _name := "sql.request.mixin";
     uuid_hex := "0f2c4a9e7b1d11ee8c3a0242ac120002";
     mogrify := fun q _ => q;
     db_error := fun _ => None;
     server_version := "14.5";
     fetchall := [["1"]];
     fetchone := Some ["1"];
     description := Some ["x_a"];
     env_cr_description := None;
     copy_output_b64 := "MQo=" |}.

(** A request on the ambient database, nothing sent yet. *)
Definition sample_request (q : string) (st : State) : World :=
  {| self := {| name := "sales"; query := q; state := st;
                use_external_database := false;
                has_group_changed := false |};
     trace := [] |}.

End MixinSamples.

(** ** Strings *)

Module PyStrFacts.

Import PyStr.

#[local] Arguments String.append : simpl nomatch.

(** A string made of [;] only (the empty string included). *)
Fixpoint only_semicolons (s : string) : bool :=
  match s with
  | EmptyString => true
  | String c s' => Ascii.eqb c ";" && only_semicolons s'
  end.

Lemma append_nil_r (s : string) : s +:+ "" = s.
Proof. induction s as [|c s IH]; simpl; [done | by rewrite IH]. Qed.

Lemma append_assoc (a b c : string) : (a +:+ b) +:+ c = a +:+ (b +:+ c).
Proof. induction a as [|x a IH]; simpl; [done | by rewrite IH]. Qed.

Lemma last_None (s : string) : last s = None -> s = "".
Proof.
  induction s as [|c s IH]; [done |].
  destruct s as [|d s]; [done |]. intros H. by specialize (IH H).
Qed.

Lemma last_but_last (s : string) (c : ascii) :
  last s = Some c -> s = but_last s +:+ String c "".
Proof.
  induction s as [|a s IH]; [done |].
  destruct s as [|b s]; simpl.
  - by intros [= ->].
  - intros H. f_equal. by apply IH.
Qed.

Lemma last_snoc (s : string) (c : ascii) : last (s +:+ String c "") = Some c.
Proof.
  induction s as [|a s IH]; [done |].
  change (last (String a (s +:+ String c "")) = Some c).
  destruct (s +:+ String c "") as [|b t] eqn:E; [by destruct s |].
  rewrite <- IH. done.
Qed.

Lemma only_semicolons_app (a b : string) :
  only_semicolons (a +:+ b) = only_semicolons a && only_semicolons b.
Proof.
  induction a as [|x a IH]; simpl; [done |].
  rewrite IH. by rewrite andb_assoc.
Qed.

End PyStrFacts.

(** ** [sql.request.mixin]: the sanitizer *)

Module CleanQuery.

Import PyStr PyStrFacts SqlRequestMixin.

#[local] Arguments String.append : simpl nomatch.

(** What the loop returns: it fails exactly on the strings made of [;]
    only, and otherwise cuts the longest run of [;] at the end. *)
Lemma strip_semicolons_spec (q : string) :
  match strip_semicolons q with
  | inl e => e = IndexError /\ only_semicolons q = true
  | inr q' =>
      only_semicolons q = false /\
      (exists t, q = q' +:+ t /\ only_semicolons t = true) /\
      (exists c, last q' = Some c /\ c <> ";"%char)
  end.
Proof.
  funelim (strip_semicolons q).
  - (* the last character is [c] *)
    pose proof (last_but_last _ _ Hc) as Hq.
    destruct (Ascii.eqb_spec c ";") as [-> | Hne].
    + destruct (strip_semicolons (but_last q)) as [e | q'].
      * destruct H as [-> Hall]. split; [done |].
        rewrite Hq, only_semicolons_app, Hall. done.
      * destruct H as (Hall & (t & Ht & Hts) & Hlast).
        split; [| split; [| done]].
        -- rewrite Hq, only_semicolons_app, Hall. done.
        -- exists (t +:+ ";"). split.
           ++ rewrite Hq at 1. rewrite Ht at 1. by rewrite append_assoc.
           ++ rewrite only_semicolons_app, Hts. done.
    + split; [| split].
      * rewrite Hq, only_semicolons_app. simpl.
        destruct (Ascii.eqb_spec c ";"); [done |].
        by rewrite andb_false_r.
      * exists "". by rewrite append_nil_r.
      * by exists c.
  - (* no last character: the string is empty *)
    split; [done |]. by rewrite (last_None q e).
Qed.

Lemma strip_semicolons_only (q : string) :
  only_semicolons q = true -> strip_semicolons q = inl IndexError.
Proof.
  intros Hall. pose proof (strip_semicolons_spec q) as Hspec.
  destruct (strip_semicolons q) as [e | q'].
  - by destruct Hspec as [-> _].
  - destruct Hspec as [Hf _]. congruence.
Qed.

Lemma strip_semicolons_other (q : string) :
  only_semicolons q = false ->
  exists q', strip_semicolons q = inr q' /\
    (exists t, q = q' +:+ t /\ only_semicolons t = true) /\
    (exists c, last q' = Some c /\ c <> ";"%char).
Proof.
  intros Hall. pose proof (strip_semicolons_spec q) as Hspec.
  destruct (strip_semicolons q) as [e | q'].
  - destruct Hspec as [_ Ht]. congruence.
  - destruct Hspec as (_ & Ht & Hc). by exists q'.
Qed.

(** C10. [_clean_query] is partial.  When the query, stripped of the
    whitespace around it, is empty or made of [;] only, the loop reads the
    last character of an empty string: [_clean_query] raises [IndexError]
    (no [UserError]) and leaves the record as it was, and so does the
    validation button, which calls it first.  On every other query it
    returns, having stored the stripped query without its final run of
    [;]: a query whose last character is not [;]. *)
Theorem clean_query_partial (w : World) :
  (only_semicolons (strip (query (self w))) = true ->
     _clean_query w = (inl IndexError, w) /\
     forall env, validate env w = (inl IndexError, w)) /\
  (only_semicolons (strip (query (self w))) = false ->
     exists q',
       _clean_query w = (inr tt, on_self (set_query q') w) /\
       (exists t, strip (query (self w)) = q' +:+ t /\ only_semicolons t = true) /\
       (exists c, last q' = Some c /\ c <> ";"%char)).
Proof.
  split.
  - intros Hall. apply strip_semicolons_only in Hall.
    assert (_clean_query w = (inl IndexError, w)) as Hclean.
    { unfold _clean_query, bind, gets, raise. by rewrite Hall. }
    split; [done |]. intros env.
    unfold validate, button_validate_sql_expression, when, bind.
    simpl. by rewrite Hclean.
  - intros Hall. apply strip_semicolons_other in Hall as (q' & Hq' & Ht & Hc).
    exists q'. split; [| done].
    unfold _clean_query, bind, gets, modify. by rewrite Hq'.
Qed.

Lemma clean_query_partial_witness :
  (only_semicolons (strip " ;; ") = true /\
   _clean_query (MixinSamples.sample_request " ;; " draft)
   = (inl IndexError, MixinSamples.sample_request " ;; " draft)) /\
  (only_semicolons (strip " SELECT 1 ;; ") = false /\
   exists q',
     _clean_query (MixinSamples.sample_request " SELECT 1 ;; " draft)
     = (inr tt,
        on_self (set_query q') (MixinSamples.sample_request " SELECT 1 ;; " draft)) /\
     (exists t, strip " SELECT 1 ;; " = q' +:+ t /\ only_semicolons t = true) /\
     (exists c, last q' = Some c /\ c <> ";"%char)).
Proof.
  split.
  - split; [reflexivity |].
    apply (proj1 (clean_query_partial (MixinSamples.sample_request " ;; " draft))).
    reflexivity.
  - split; [reflexivity |].
    apply (proj2 (clean_query_partial
                    (MixinSamples.sample_request " SELECT 1 ;; " draft))).
    reflexivity.
Defined.

(** C4, at the query [;].  The claim asks for a query without final [;];
    the code raises [IndexError] and stores nothing. *)
Theorem clean_query_semicolon_only :
  let w := {| self := {| name := "sales"; query := ";"; state := draft;
                         use_external_database := false;
                         has_group_changed := false |};
              trace := [] |} in
  _clean_query w = (inl IndexError, w).
Proof. reflexivity. Qed.

End CleanQuery.

(** ** [sql.request.mixin]: [_execute_sql_request] *)

Module ExecuteRequest.

Import SqlRequestMixin MixinSamples.

Definition not_checked_message : string :=
  "It is not allowed to execute a not checked request.".

(** The cursor [_get_cr_for_query] picks. *)
Definition query_cr (w : World) : cursor :=
  if use_external_database (self w) then ExternalCr else EnvCr.

Lemma get_cr_for_query_eq (w : World) :
  _get_cr_for_query w = (inr (query_cr w), w).
Proof.
  unfold _get_cr_for_query, query_cr, bind, gets, ret.
  by destruct (use_external_database (self w)).
Qed.

(** C6. A request in state [draft] is never executed: whatever the mode,
    the parameters and the other arguments, [_execute_sql_request] raises
    the user error, no statement reaches a cursor and no column of the
    record changes (the state after the call is the state before it). *)
Theorem execute_draft_rejected (env : Env)
    (params : option (list (string * string))) (mode : string)
    (rollback : bool) (view_name : option string) (copy_options : string)
    (header : bool) (w : World) :
  state (self w) = draft ->
  _execute_sql_request env params mode rollback view_name copy_options header w
  = (inl (UserError not_checked_message), w).
Proof.
  intros Hdraft. unfold _execute_sql_request, bind, gets, raise.
  rewrite Hdraft. by rewrite decide_True.
Qed.

Lemma execute_draft_rejected_witness :
  state (self (sample_request "SELECT 1 AS x_a" draft)) = draft /\
  _execute_sql_request sample_env None "fetchall" true None
    "CSV HEADER DELIMITER ';'" false (sample_request "SELECT 1 AS x_a" draft)
  = (inl (UserError not_checked_message),
     sample_request "SELECT 1 AS x_a" draft).
Proof.
  split; [reflexivity |].
  apply (execute_draft_rejected sample_env None "fetchall" true None
           "CSV HEADER DELIMITER ';'" false
           (sample_request "SELECT 1 AS x_a" draft)).
  reflexivity.
Defined.

(** What mode ["view"] does on a checked request, whatever the database
    answers: the two arguments of the statement are exchanged, and the
    [finally] clause reads a [rollback_name] that was never bound. *)
Lemma execute_view_mode (env : Env) (params : option (list (string * string)))
    (rollback : bool) (v copy_options : string) (header : bool) (w : World) :
  state (self w) <> draft ->
  _execute_sql_request env params "view" rollback (Some v) copy_options header w
  = (inl (UnboundLocalError "rollback_name"),
     emit (Execute (query_cr w)
             ("CREATE VIEW " +:+ mogrify env (query (self w)) params
              +:+ " AS (" +:+ v +:+ ");")) w).
Proof.
  intros Hstate.
  unfold _execute_sql_request, _get_cr_for_query, query_cr, SQL, try_finally,
    execute, bind, gets, modify, raise, ret.
  rewrite decide_False by done. cbn.
  destruct (use_external_database (self w)); cbn;
    by destruct (db_error env _).
Qed.

(** C1, at a checked request in mode ["view"].  The claim asks for
    [CREATE VIEW <view_name> AS (<query>);].  The code sends the statement
    with the query where the name belongs and the name where the query
    belongs, then raises [UnboundLocalError] from its [finally] clause. *)
Theorem execute_view_swaps_arguments :
  _execute_sql_request sample_env None "view" true (Some "x_bi_sql_view_sales")
    "CSV HEADER DELIMITER ';'" false
    (sample_request "SELECT 1 AS x_a" sql_valid)
  = (inl (UnboundLocalError "rollback_name"),
     {| self := self (sample_request "SELECT 1 AS x_a" sql_valid);
        trace :=
          [Execute EnvCr "CREATE VIEW SELECT 1 AS x_a AS (x_bi_sql_view_sales);"] |}).
Proof. reflexivity. Qed.

(** Modes that no branch takes do raise, before any statement. *)
Lemma execute_unimplemented_mode (env : Env)
    (params : option (list (string * string))) (mode : string)
    (rollback : bool) (view_name : option string) (copy_options : string)
    (header : bool) (w : World) :
  state (self w) <> draft ->
  mode <> "fetchone" -> mode <> "fetchall" -> mode <> "stdout" ->
  PyStr.contains "view" mode = false ->
  PyStr.contains "materialized_view" mode = false ->
  _execute_sql_request env params mode rollback view_name copy_options header w
  = (inl (UserError ("Unimplemented mode : '" +:+ mode +:+ "'")), w).
Proof.
  intros Hstate H1 H2 H3 Hv Hm. unfold _execute_sql_request.
  unfold bind at 1. unfold gets at 1.
  rewrite decide_False by done.
  apply String.eqb_neq in H1, H2, H3. rewrite H1, H2, H3, Hv, Hm.
  unfold bind, gets, raise. done.
Qed.

(** What a mode does that is a piece of the word ["view"] without being
    it, on a checked request whose database accepts every statement, with
    a rollback asked: the branch of mode ["view"] is taken, nothing is
    raised, and three statements are sent. *)
Lemma execute_piece_of_view (env : Env) (params : option (list (string * string)))
    (mode v copy_options : string) (header : bool) (w : World) :
  state (self w) <> draft ->
  use_external_database (self w) = false ->
  (forall s, db_error env s = None) ->
  PyStr.contains "view" mode = true -> mode <> "view" ->
  exists savepoint,
    _execute_sql_request env params mode true (Some v) copy_options header w
    = (inr RFalse,
       {| self := self w;
          trace :=
            trace w ++
            [ Execute EnvCr ("SAVEPOINT " +:+ savepoint);
              Execute EnvCr
                ("CREATE VIEW " +:+ mogrify env (query (self w)) params
                 +:+ " AS (" +:+ v +:+ ");");
              Execute EnvCr ("ROLLBACK TO SAVEPOINT " +:+ savepoint) ] |}).
Proof.
  intros Hstate Hext Hdb Hpiece Hview.
  assert (forall m, PyStr.contains "view" m = false -> String.eqb mode m = false)
    as Hother.
  { intros m Hm. destruct (String.eqb_spec mode m) as [-> | Hne]; [| done].
    congruence. }
  eexists.
  unfold _execute_sql_request, _get_cr_for_query, _create_savepoint,
    _rollback_savepoint, SQL, try_finally, execute, bind, gets, modify,
    raise, ret, emit.
  rewrite decide_False by done.
  apply String.eqb_neq in Hview.
  rewrite Hview, !Hother, Hpiece by reflexivity.
  cbn. rewrite Hext. cbn. rewrite !Hdb. cbn.
  rewrite <- !app_assoc. reflexivity.
Qed.

(** C5, at the mode ["iew"], which is none of the five.  The claim asks for
    the 'Unimplemented mode' error and no statement.  The test
    [mode in "view"] holds for every piece of the word: the code takes the
    branch of mode ["view"], sends a savepoint, the [CREATE VIEW] statement
    and the rollback, and returns [False]. *)
Theorem execute_mode_substring_of_view :
  _execute_sql_request sample_env None "iew" true (Some "x_bi_sql_view_sales")
    "CSV HEADER DELIMITER ';'" false
    (sample_request "SELECT 1 AS x_a" sql_valid)
  = (inr RFalse,
     {| self := self (sample_request "SELECT 1 AS x_a" sql_valid);
        trace :=
          [Execute EnvCr
             "SAVEPOINT sql_request_mixin_0f2c4a9e7b1d11ee8c3a0242ac120002";
           Execute EnvCr "CREATE VIEW SELECT 1 AS x_a AS (x_bi_sql_view_sales);";
           Execute EnvCr
             "ROLLBACK TO SAVEPOINT sql_request_mixin_0f2c4a9e7b1d11ee8c3a0242ac120002"] |}).
Proof. reflexivity. Qed.

End ExecuteRequest.

(** ** [sql.request.mixin]: the prohibited words *)

Module ProhibitedWords.

Import PyStr PyStrFacts SqlRequestMixin.

#[local] Arguments String.append : simpl nomatch.

(** [word] stands in [q] as a whole word, in any case: [q] is cut into
    three pieces, the middle one is [word] once lowered, and neither the
    character before it nor the one after it is a word character. *)
Definition whole_word_in (word q : string) : Prop :=
  exists pre s post,
    q = pre +:+ s +:+ post /\ lower s = word /\
    Re.is_word_at (last pre) = false /\
    Re.is_word_at (Re.head post) = false.

(** The character before the position reached after reading [s], when
    [prev] was the character before [s]. *)
Definition last_or (prev : option ascii) (s : string) : option ascii :=
  match last s with
  | Some c => Some c
  | None => prev
  end.

(** A word that starts and ends with a word character. *)
Definition word_like (word : string) : bool :=
  Re.is_word_at (Re.head word) && Re.is_word_at (last word).

Lemma is_word_lower_char (c : ascii) :
  Re.is_word (lower_char c) = Re.is_word c.
Proof. destruct c as [[] [] [] [] [] [] [] []]; reflexivity. Qed.

Lemma lower_app (a b : string) : lower (a +:+ b) = lower a +:+ lower b.
Proof. induction a as [|c a IH]; simpl; [done | by rewrite IH]. Qed.

Lemma lower_split (q a b : string) :
  lower q = a +:+ b ->
  exists a0 b0, q = a0 +:+ b0 /\ lower a0 = a /\ lower b0 = b.
Proof.
  revert q. induction a as [|c a IH]; intros q Hq.
  - by exists "", q.
  - destruct q as [|d q]; [done |].
    simpl in Hq. injection Hq as Hc Hq.
    destruct (IH q Hq) as (a0 & b0 & -> & Ha & Hb).
    exists (String d a0), b0. simpl. by rewrite Hc, Ha.
Qed.

Lemma last_cons_is_Some (c : ascii) (s : string) : is_Some (last (String c s)).
Proof.
  revert c. induction s as [|d s IH]; intros c; [by exists c |].
  change (last (String c (String d s))) with (last (String d s)). apply IH.
Qed.

Lemma last_cons (c : ascii) (s : string) :
  last (String c s) = last_or (Some c) s.
Proof.
  destruct s as [|d s]; [done |].
  change (last (String c (String d s))) with (last (String d s)).
  destruct (last_cons_is_Some d s) as [x Hx].
  unfold last_or. by rewrite Hx.
Qed.

Lemma last_or_cons (prev : option ascii) (c : ascii) (s : string) :
  last_or prev (String c s) = last_or (Some c) s.
Proof. unfold last_or at 1. rewrite last_cons. unfold last_or. by destruct (last s). Qed.

Lemma last_lower (s : string) : last (lower s) = lower_char <$> last s.
Proof.
  induction s as [|c s IH]; [done |].
  change (lower (String c s)) with (String (lower_char c) (lower s)).
  rewrite !last_cons. unfold last_or. rewrite IH. by destruct (last s).
Qed.

Lemma is_word_at_last_lower (s : string) :
  Re.is_word_at (last (lower s)) = Re.is_word_at (last s).
Proof.
  rewrite last_lower. destruct (last s); [| done].
  apply is_word_lower_char.
Qed.

Lemma is_word_at_head_lower (s : string) :
  Re.is_word_at (Re.head (lower s)) = Re.is_word_at (Re.head s).
Proof. destruct s as [|c s]; [done |]. apply is_word_lower_char. Qed.

(** Reading a literal consumes exactly that literal. *)
Lemma match_here_literal (word : string) (p : list Re.atom)
    (prev : option ascii) (s : string) :
  Re.match_here (Re.literal word ++ p) prev s = true <->
  exists rest, s = word +:+ rest /\ Re.match_here p (last_or prev word) rest = true.
Proof.
  revert prev s. induction word as [|c word IH]; intros prev s.
  - simpl. split; [by exists s | by intros (rest & -> & H)].
  - rewrite last_or_cons. simpl. destruct s as [|d s].
    + split; [done | by intros (rest & ? & _)].
    + rewrite andb_true_iff, IH. split.
      * intros [Hcd%Ascii.eqb_eq (rest & -> & H)]. subst d. by exists rest.
      * intros (rest & [= -> ->] & H). split; [apply Ascii.eqb_refl | by exists rest].
Qed.

(** A search succeeds where the pattern matches after some prefix. *)
Lemma search_from_iff (p : list Re.atom) (prev : option ascii) (s : string) :
  Re.search_from p prev s = true <->
  exists pre post, s = pre +:+ post /\ Re.match_here p (last_or prev pre) post = true.
Proof.
  revert prev. induction s as [|d s IH]; intros prev; simpl.
  - rewrite orb_false_r. split.
    + intros H. by exists "", "".
    + intros (pre & post & Hs & H). destruct pre; [| done].
      simpl in Hs. by subst post.
  - rewrite orb_true_iff, IH. split.
    + intros [H | (pre & post & -> & H)].
      * by exists "", (String d s).
      * exists (String d pre), post. by rewrite last_or_cons.
    + intros (pre & post & Hs & H). destruct pre as [|d' pre].
      * left. simpl in Hs. by subst post.
      * right. simpl in Hs. injection Hs as -> ->.
        exists pre, post. by rewrite last_or_cons in H.
Qed.

(** The pattern of a word finds the word between two non-word positions. *)
Lemma search_word_pattern (word s : string) :
  word_like word = true ->
  Re.search (word_pattern word) s = true <->
  exists pre post,
    s = pre +:+ word +:+ post /\
    Re.is_word_at (last pre) = false /\
    Re.is_word_at (Re.head post) = false.
Proof.
  intros [Hhead Hlast]%andb_true_iff.
  unfold Re.search, word_pattern. rewrite search_from_iff.
  assert (forall pre post,
    Re.match_here (Re.Boundary :: Re.literal word ++ [Re.Boundary])
      (last_or None pre) post = true <->
    exists rest, post = word +:+ rest /\
      Re.is_word_at (last pre) = false /\
      Re.is_word_at (Re.head rest) = false) as Hmatch.
  { intros pre post. cbn [Re.match_here].
    rewrite andb_true_iff, match_here_literal. split.
    - intros [Hb (rest & -> & Hrest)]. exists rest. split; [done |].
      cbn [Re.match_here] in Hrest. rewrite andb_true_r in Hrest.
      unfold Re.at_boundary in *.
      assert (Re.head (word +:+ rest) = Re.head word) as Hh
        by (destruct word; [done | done]).
      rewrite Hh, Hhead in Hb.
      assert (last_or (last_or None pre) word = last word) as Hl
        by (unfold last_or; destruct (last word); [done | done]).
      rewrite Hl, Hlast in Hrest.
      unfold last_or in Hb.
      destruct (last pre); simpl in *;
        destruct (Re.is_word_at (Re.head rest)); simpl in *;
        repeat match goal with
               | H : xorb ?b true = true |- _ => destruct b eqn:?; simpl in H
               end; try done.
      all: by destruct (Re.is_word _).
    - intros (rest & -> & Hpre & Hpost). split.
      + unfold Re.at_boundary.
        assert (Re.head (word +:+ rest) = Re.head word) as ->
          by (destruct word; [done | done]).
        rewrite Hhead. unfold last_or. destruct (last pre); simpl in *.
        * by rewrite Hpre.
        * done.
      + exists rest. split; [done |]. cbn [Re.match_here].
        rewrite andb_true_r. unfold Re.at_boundary.
        assert (last_or (last_or None pre) word = last word) as ->
          by (unfold last_or; destruct (last word); [done | done]).
        by rewrite Hlast, Hpost. }
  split.
  - intros (pre & post & -> & H). apply Hmatch in H as (rest & -> & Hpre & Hpost).
    by exists pre, rest.
  - intros (pre & post & -> & Hpre & Hpost). exists pre, (word +:+ post).
    split; [done |]. apply Hmatch. by exists post.
Qed.

(** The same through [lower]: the search in the lowered query is the
    case-blind search of a whole word in the query. *)
Lemma search_lower_whole_word (word q : string) :
  word_like word = true ->
  Re.search (word_pattern word) (lower q) = true <-> whole_word_in word q.
Proof.
  intros Hword. rewrite (search_word_pattern _ _ Hword). split.
  - intros (pre' & post' & Hq & Hpre & Hpost).
    apply lower_split in Hq as (pre & x & -> & <- & Hx).
    apply lower_split in Hx as (s & post & -> & Hs & <-).
    exists pre, s, post.
    by rewrite <- is_word_at_last_lower, <- is_word_at_head_lower.
  - intros (pre & s & post & -> & <- & Hpre & Hpost).
    exists (lower pre), (lower post).
    by rewrite !lower_app, is_word_at_last_lower, is_word_at_head_lower.
Qed.

Lemma prohibited_words_word_like :
  forallb word_like PROHIBITED_WORDS = true.
Proof. reflexivity. Qed.

(** The loop stops at the first word of the list that the query holds. *)
Lemma check_words_spec (words : list string) (q : string) (w : World) :
  forallb word_like words = true ->
  (forall word, word ∈ words -> ~ whole_word_in word q) /\
    check_words words (lower q) w = (inr tt, w)
  \/ exists word, word ∈ words /\ whole_word_in word q /\
        check_words words (lower q) w
        = (inl (UserError (unsafe_word_message word)), w).
Proof.
  induction words as [|word words IH]; intros Hwords.
  - left. split; [| done]. by intros word ?%elem_of_nil.
  - simpl in Hwords. apply andb_true_iff in Hwords as [Hword Hwords].
    simpl. destruct (Re.search (word_pattern word) (lower q)) eqn:E.
    + right. exists word. split; [by left |]. split; [| done].
      by apply search_lower_whole_word.
    + destruct (IH Hwords) as [[Hnone Hret] | (word' & Hin & Hocc & Hraise)].
      * left. split; [| done]. intros word' [-> | Hin]%elem_of_cons; [| by apply Hnone].
        intros H. apply search_lower_whole_word in H; congruence.
      * right. exists word'. split; [by right | done].
Qed.



(** The query [DROP TABLE foo] is refused, and the error names [drop]. *)
Example drop_table_refused :
  _check_prohibited_words (MixinSamples.sample_request "DROP TABLE foo" draft)
  = (inl (UserError (unsafe_word_message "drop")),
     MixinSamples.sample_request "DROP TABLE foo" draft).
Proof. reflexivity. Qed.

End ProhibitedWords.

(** ** Sample records *)

Module Samples.

Import BiSqlViewField BiSqlView.

Definition accepting_db : SqlRequestMixin.Env :=
  {| SqlRequestMixin._name := _name;
     SqlRequestMixin.uuid_hex := "0f2c4a9e7b1d11ee8c3a0242ac120002";
     SqlRequestMixin.mogrify := fun q _ => q;
     SqlRequestMixin.db_error := fun _ => None;
     SqlRequestMixin.server_version := "14.5";
     SqlRequestMixin.fetchall := [];
     SqlRequestMixin.fetchone := None;
     SqlRequestMixin.description := None;
     SqlRequestMixin.env_cr_description := None;
     SqlRequestMixin.copy_output_b64 := "" |}.

Definition sample_env (columns : list column) : Env :=
  {| base := accepting_db; pg_attribute := columns |}.

(** A view with its refresh task 3, its access rule 4 and its model 5, and
    the rows [fields] in the table of the fields. *)
Definition sample_world (q : string) (st : State) (materialized : bool)
    (fields : list ViewField) (next : nat) : World :=
  {| self :=
       {| id := 7;
          request :=
            {| SqlRequestMixin.name := "Sales";
               SqlRequestMixin.query := q;
               SqlRequestMixin.state := st;
               SqlRequestMixin.use_external_database := false;
               SqlRequestMixin.has_group_changed := false |};
          technical_name := "sales";
          is_materialized := materialized;
          size := Some "16 kB";
          cron_id := Some 3; rule_id := Some 4; model_id := Some 5;
          tree_view_id := None; graph_view_id := None;
          pivot_view_id := None; search_view_id := None;
          action_id := None; menu_id := None |};
     field_table := fields;
     next_field_id := next;
     orm :=
       {| ir_cron := {[ 3 := true ]}; ir_rule := {[ 4 ]}; ir_model := {[ 5 ]};
          ir_ui_view := ∅; ir_actions_act_window := ∅; ir_ui_menu := ∅ |};
     trace := [] |}.

(** The same in state [model_valid], without field. *)
Definition sample_view (materialized : bool) : World :=
  sample_world "SELECT amount AS x_amount FROM sale_order" model_valid
    materialized [] 1.

(** A manifest and a table it reconciles with: [x_a] is there to be
    rewritten, [b] has no prefix, [x_c] is new for the view 7, the field
    [x_old] is obsolete, the last row is a field of another view. *)
Definition sample_manifest : list column :=
  [ (1%Z, "x_a", "integer"); (2%Z, "b", "text"); (3%Z, "x_c", "numeric") ].

Definition sample_fields : list ViewField :=
  [ {| BiSqlViewField.id := 1; bi_sql_view_id := 7; name := "x_a";
       sequence := 4; sql_type := "text"; is_index := true;
       graph_type := Some measure |};
    {| BiSqlViewField.id := 2; bi_sql_view_id := 7; name := "x_old";
       sequence := 2; sql_type := "text"; is_index := false;
       graph_type := Some row |};
    {| BiSqlViewField.id := 3; bi_sql_view_id := 8; name := "x_c";
       sequence := 1; sql_type := "date"; is_index := false;
       graph_type := None |} ].

Definition sample_before : World :=
  sample_world "SELECT a AS x_a, b, c AS x_c FROM t" draft true sample_fields 4.

End Samples.

(** ** [bi.sql.view]: the reset to [sql_valid] *)

Module ResetToSqlValid.

Import BiSqlViewField BiSqlView Samples.

(** The statement [_drop_view] sends for the view [v]. *)
Definition drop_request (v : SqlView) : string :=
  "DROP " +:+ materialized_text v +:+ " VIEW IF EXISTS "
  +:+ Identifier (view_name v).

(** Closes the facts about the state a reset ends in, once the run has
    been computed. *)
Ltac reset_facts :=
  eexists; split; [reflexivity |]; simpl;
  repeat match goal with |- _ /\ _ => split end;
  first
    [ done
    | by rewrite app_nil_r
    | by rewrite dom_alter_L
    | by intros x Hx; injection Hx as <-; rewrite lookup_alter_eq
    | by intros x Hx; injection Hx as <-;
         apply not_elem_of_difference; right; apply elem_of_singleton ].

(** X18. What [button_reset_to_sql_valid] does itself on a view in state
    [model_valid], when the database accepts the statement.  It returns
    with:
    - the state [sql_valid];
    - one statement of its own sent if the view is materialized, the
      [DROP] of the view, and none if it is not ([_drop_view] is called
      under [if sql_view.is_materialized] only; what the ORM sends when
      the model object is deleted is not a statement of the method);
    - the refresh task still in its table and still referenced, its
      [active] flag false, no task added or removed;
    - the access rule and the model object out of their tables. *)
Theorem reset_model_valid_to_sql_valid (env : Env) (w : World) :
  state (self w) = model_valid ->
  SqlRequestMixin.db_error (base env) (drop_request (self w)) = None ->
  exists w',
    button_reset_to_sql_valid env w = (inr tt, w') /\
    state (self w') = sql_valid /\
    trace w' =
      trace w ++ (if is_materialized (self w)
                  then [Execute EnvCr (drop_request (self w))] else []) /\
    cron_id (self w') = cron_id (self w) /\
    dom (ir_cron (orm w')) = dom (ir_cron (orm w)) /\
    (forall c, cron_id (self w) = Some c ->
       ir_cron (orm w') !! c = (fun _ => false) <$> ir_cron (orm w) !! c) /\
    (forall r, rule_id (self w) = Some r -> r ∉ ir_rule (orm w')) /\
    (forall m, model_id (self w) = Some m -> m ∉ ir_model (orm w')).
Proof.
  intros Hstate Hdb. destruct w as [v table next o tr].
  destruct v as [i [nm q st ext hgc] tn mat sz cron rule model tv gv pv sv act menu].
  unfold state in Hstate. simpl in Hstate. subst st.
  unfold drop_request, materialized_text, view_name in Hdb. simpl in Hdb.
  unfold button_reset_to_sql_valid, button_reset_to_model_valid,
    _drop_model_and_fields, _drop_view, _log_execute, lift,
    SqlRequestMixin.execute, when, bind, gets, modify, ret, raise.
  simpl.
  destruct mat; simpl.
  - unfold materialized_text, view_name. simpl. rewrite Hdb. simpl.
    destruct cron as [c|], rule as [r|], model as [m|]; simpl; reset_facts.
  - destruct cron as [c|], rule as [r|], model as [m|]; simpl; reset_facts.
Qed.

Lemma reset_model_valid_to_sql_valid_witness :
  state (self (sample_view true)) = model_valid /\
  SqlRequestMixin.db_error (base (sample_env []))
    (drop_request (self (sample_view true))) = None /\
  exists w',
    button_reset_to_sql_valid (sample_env []) (sample_view true) = (inr tt, w') /\
    state (self w') = sql_valid /\
    trace w' =
      trace (sample_view true)
      ++ (if is_materialized (self (sample_view true))
          then [Execute EnvCr (drop_request (self (sample_view true)))] else []) /\
    cron_id (self w') = cron_id (self (sample_view true)) /\
    dom (ir_cron (orm w')) = dom (ir_cron (orm (sample_view true))) /\
    (forall c, cron_id (self (sample_view true)) = Some c ->
       ir_cron (orm w') !! c
       = (fun _ => false) <$> ir_cron (orm (sample_view true)) !! c) /\
    (forall r, rule_id (self (sample_view true)) = Some r -> r ∉ ir_rule (orm w')) /\
    (forall m, model_id (self (sample_view true)) = Some m -> m ∉ ir_model (orm w')).
Proof.
  split; [reflexivity |]. split; [reflexivity |].
  apply (reset_model_valid_to_sql_valid (sample_env []) (sample_view true));
    reflexivity.
Defined.

End ResetToSqlValid.

(** ** [bi.sql.view]: the synchronisation of the fields *)

Module FieldSync.

Import BiSqlViewField BiSqlView Samples.

(** The fields of [self] named [x]: what [filtered] returns in one turn
    of the loop. *)
Definition named (w : World) (x : string) : list ViewField :=
  filter (fun f => name f = x) (bi_sql_view_field_ids w).

(** [x[:2] == "x_"] *)
Definition prefixed (x : string) : bool := String.eqb (PyStr.take 2 x) "x_".

(** The table after [create]. *)
Definition add_field (f : ViewField) (w : World) : World :=
  {| self := self w; field_table := field_table w ++ [f];
     next_field_id := S (next_field_id w); orm := orm w; trace := trace w |}.

(** One row after a [write] on the record [i]. *)
Definition touch1 (i : nat) (s : Z) (t : string) (f : ViewField) : ViewField :=
  if decide (BiSqlViewField.id f = i) then set_sequence_sql_type s t f else f.

Definition touch (i : nat) (s : Z) (t : string) (w : World) : World :=
  on_field_table (fmap (touch1 i s t)) w.

(** The table is one of a database: identifiers are unique and were drawn
    from the sequence. *)
Definition wf (w : World) : Prop :=
  NoDup (BiSqlViewField.id <$> field_table w) /\
  Forall (fun f => BiSqlViewField.id f < next_field_id w) (field_table w).

Lemma filter_fmap_stable {A} (P : A -> Prop) `{!forall x, Decision (P x)}
    (g : A -> A) (l : list A) :
  (forall x, P (g x) <-> P x) -> filter P (g <$> l) = g <$> filter P l.
Proof.
  intros Hg. induction l as [|x l IH]; [done |].
  rewrite fmap_cons, !filter_cons, IH.
  destruct (decide (P (g x))) as [Hgx | Hgx], (decide (P x)) as [Hx | Hx];
    first [done | by destruct Hx; apply Hg | by destruct Hgx; apply Hg].
Qed.

Lemma touch1_id i s t f : BiSqlViewField.id (touch1 i s t f) = BiSqlViewField.id f.
Proof. unfold touch1. by destruct (decide _). Qed.

Lemma touch1_name i s t f : name (touch1 i s t f) = name f.
Proof. unfold touch1. by destruct (decide _). Qed.

Lemma touch1_view i s t f : bi_sql_view_id (touch1 i s t f) = bi_sql_view_id f.
Proof. unfold touch1. by destruct (decide _). Qed.

Lemma touch1_is_index i s t f : is_index (touch1 i s t f) = is_index f.
Proof. unfold touch1. by destruct (decide _). Qed.

Lemma fields_touch i s t w :
  bi_sql_view_field_ids (touch i s t w) = touch1 i s t <$> bi_sql_view_field_ids w.
Proof.
  unfold bi_sql_view_field_ids, touch. simpl.
  apply filter_fmap_stable. intros f. by rewrite touch1_view.
Qed.

Lemma named_touch i s t w x :
  named (touch i s t w) x = touch1 i s t <$> named w x.
Proof.
  unfold named. rewrite fields_touch.
  apply filter_fmap_stable. intros f. by rewrite touch1_name.
Qed.

Lemma write_single (f0 : ViewField) (s : Z) (t : string) (w : World) :
  write_sequence_sql_type [f0] s t w = (inr tt, touch (BiSqlViewField.id f0) s t w).
Proof.
  unfold write_sequence_sql_type, modify, touch, on_field_table.
  f_equal. f_equal. apply list_fmap_ext. intros _ f _. unfold touch1.
  destruct (decide (BiSqlViewField.id f ∈ _)) as [Hin | Hin],
           (decide (BiSqlViewField.id f = _)) as [Heq | Hne]; try done.
  - by apply list_elem_of_singleton in Hin.
  - destruct Hin. by apply list_elem_of_singleton.
Qed.

(** What one turn of the loop does, by the number of fields of that name. *)
Lemma sync_column_spec (c : column) (field_ids : list nat) (w : World) :
  sync_column c field_ids w =
  match named w (attname c) with
  | [] =>
      if prefixed (attname c) then
        (inr (field_ids ++ [next_field_id w]),
         add_field (BiSqlViewField.new (next_field_id w) (id (self w))
                      (attnum c) (attname c) (atttype c)) w)
      else (inr field_ids, w)
  | [f] =>
      (inr (field_ids ++ [BiSqlViewField.id f]),
       touch (BiSqlViewField.id f) (attnum c) (atttype c) w)
  | _ :: _ :: _ => (inl ValueError, w)
  end.
Proof.
  unfold sync_column, named, prefixed. unfold bind at 1. unfold gets at 1.
  destruct (filter _ (bi_sql_view_field_ids w)) as [|f [|g l]]; [| | done].
  - by destruct (String.eqb _ _).
  - unfold bind. by rewrite write_single.
Qed.

(** The world [unlink_obsolete] leaves. *)
Definition unlinked (field_ids : list nat) (w : World) : World :=
  on_field_table
    (filter (fun x =>
       ~ (bi_sql_view_id x = id (self w) /\ BiSqlViewField.id x ∉ field_ids))) w.

Lemma unlink_obsolete_eq (field_ids : list nat) (w : World) :
  unlink_obsolete field_ids w = (inr tt, unlinked field_ids w).
Proof. reflexivity. Qed.

(** *** The probe *)

Definition with_trace (t : list SqlRequestMixin.event) (w : World) : World :=
  {| self := self w; field_table := field_table w;
     next_field_id := next_field_id w; orm := orm w; trace := t |}.

Definition rollback_name (env : Env) : string :=
  PyStr.replace_char "." "_" (SqlRequestMixin._name (base env))
  +:+ "_" +:+ SqlRequestMixin.uuid_hex (base env).

Definition probe_cr (v : SqlView) : SqlRequestMixin.cursor :=
  if SqlRequestMixin.use_external_database (request v)
  then SqlRequestMixin.ExternalCr else EnvCr.

Definition create_view_request (v : SqlView) : string :=
  "CREATE VIEW " +:+ Identifier (view_name v) +:+ " AS (" +:+ query v +:+ ");".

(** The four statements of the probe are accepted by the database. *)
Definition probe_accepted (env : Env) (v : SqlView) : Prop :=
  SqlRequestMixin.db_error (base env) ("SAVEPOINT " +:+ rollback_name env) = None /\
  SqlRequestMixin.db_error (base env) (create_view_request v) = None /\
  SqlRequestMixin.db_error (base env) (catalog_request (view_name v)) = None /\
  SqlRequestMixin.db_error (base env) ("ROLLBACK TO SAVEPOINT " +:+ rollback_name env) = None.

Definition probe_events (env : Env) (v : SqlView) : list SqlRequestMixin.event :=
  [ Execute (probe_cr v) ("SAVEPOINT " +:+ rollback_name env);
    Execute (probe_cr v) (create_view_request v);
    Execute EnvCr (catalog_request (view_name v));
    Execute (probe_cr v) ("ROLLBACK TO SAVEPOINT " +:+ rollback_name env) ]
  ++ match probe_cr v with
     | SqlRequestMixin.ExternalCr => [SqlRequestMixin.Close SqlRequestMixin.ExternalCr]
     | SqlRequestMixin.EnvCr => []
     end.

Ltac unfold_probe :=
  unfold super_check_execution, lift, SqlRequestMixin._check_execution,
    _prepare_request_check_execution, _hook_executed_request,
    SqlRequestMixin._get_cr_for_query, SqlRequestMixin._create_savepoint,
    SqlRequestMixin._rollback_savepoint, SqlRequestMixin.execute,
    try_finally, except_ProgrammingError, bind, gets, modify, raise, ret,
    to_mixin, of_mixin, SqlRequestMixin.emit; simpl.

(** An accepted probe returns the rows of the catalog and leaves all but
    the trace as it was. *)
Lemma super_check_execution_accepted (env : Env) (w : World) :
  probe_accepted env (self w) ->
  super_check_execution env w
  = (inr (pg_attribute env),
     with_trace (trace w ++ probe_events env (self w)) w).
Proof.
  intros (Hsp & Hcv & Hcat & Hrb).
  destruct w as [v table next o tr].
  destruct v as [i [nm q st ext hgc] tn mat sz cron rule model tv gv pv sv act menu].
  unfold_probe.
  unfold probe_events, probe_cr, rollback_name, create_view_request,
    query, view_name, with_trace in *. simpl in *.
  rewrite Hcat. destruct ext; simpl; rewrite Hsp; simpl; rewrite Hcv; simpl;
    rewrite Hrb; simpl; by rewrite <- !app_assoc.
Qed.

(** A probe that returns was accepted. *)
Lemma super_check_execution_returns (env : Env) (w : World)
    (columns : list column) (w' : World) :
  super_check_execution env w = (inr columns, w') ->
  probe_accepted env (self w).
Proof.
  destruct w as [v table next o tr].
  destruct v as [i [nm q st ext hgc] tn mat sz cron rule model tv gv pv sv act menu].
  unfold_probe.
  unfold probe_accepted, rollback_name, create_view_request, query, view_name.
  simpl.
  destruct ext; simpl;
    repeat match goal with
           | |- context [SqlRequestMixin.db_error ?e ?s] =>
               destruct (SqlRequestMixin.db_error e s) as [[? | ? ?] |] eqn:?;
               simpl
           end; intros Heq; first [discriminate Heq | done].
Qed.

(** *** Columns that yield no field *)





(** *** Idempotence: the table and its identifiers *)

Lemma fields_in_table (w : World) (f : ViewField) :
  f ∈ bi_sql_view_field_ids w -> f ∈ field_table w /\ bi_sql_view_id f = id (self w).
Proof. unfold bi_sql_view_field_ids. rewrite list_elem_of_filter. tauto. Qed.

Lemma named_in_fields (w : World) (x : string) (f : ViewField) :
  f ∈ named w x <-> name f = x /\ f ∈ bi_sql_view_field_ids w.
Proof. unfold named. by rewrite list_elem_of_filter. Qed.

Lemma NoDup_fmap_eq {A B} (g : A -> B) (l : list A) (x y : A) :
  NoDup (g <$> l) -> x ∈ l -> y ∈ l -> g x = g y -> x = y.
Proof.
  induction l as [|h l IH]; intros Hnodup Hx Hy Heq.
  - by apply elem_of_nil in Hx.
  - rewrite fmap_cons in Hnodup. apply NoDup_cons in Hnodup as [Hh Hl].
    apply elem_of_cons in Hx as [-> | Hx], Hy as [-> | Hy]; [done | | | by apply IH].
    + destruct Hh. rewrite Heq. by apply list_elem_of_fmap_2.
    + destruct Hh. rewrite <- Heq. by apply list_elem_of_fmap_2.
Qed.

(** Two rows of a well-formed table with the same identifier are one. *)
Lemma wf_unique (w : World) (f g : ViewField) :
  wf w -> f ∈ field_table w -> g ∈ field_table w ->
  BiSqlViewField.id f = BiSqlViewField.id g -> f = g.
Proof. intros [Hnodup _]. by apply NoDup_fmap_eq. Qed.

Lemma wf_touch (i : nat) (s : Z) (t : string) (w : World) :
  wf w -> wf (touch i s t w).
Proof.
  intros [Hnodup Hlt]. split; simpl.
  - rewrite <- list_fmap_compose.
    erewrite list_fmap_ext; [exact Hnodup |].
    intros _ f _. apply touch1_id.
  - apply Forall_fmap. eapply Forall_impl; [exact Hlt |].
    intros f Hf. simpl. by rewrite touch1_id.
Qed.

Lemma wf_add_field (v : nat) (s : Z) (n t : string) (w : World) :
  wf w -> wf (add_field (BiSqlViewField.new (next_field_id w) v s n t) w).
Proof.
  intros [Hnodup Hlt]. split; simpl.
  - rewrite fmap_app. apply NoDup_app. split; [done |]. split.
    + intros i Hi ->%list_elem_of_singleton.
      apply list_elem_of_fmap in Hi as (f & Hid & Hf).
      rewrite Forall_forall in Hlt. specialize (Hlt f Hf). simpl in Hid. lia.
    + apply NoDup_singleton.
  - apply Forall_app. split.
    + eapply Forall_impl; [exact Hlt |]. intros f Hf. simpl in *. lia.
    + apply Forall_singleton. simpl. lia.
Qed.

Lemma wf_filter (P : ViewField -> Prop) `{!forall f, Decision (P f)} (w : World) :
  wf w -> wf (on_field_table (filter P) w).
Proof.
  intros [Hnodup Hlt]. split; simpl.
  - eapply sublist_NoDup; [exact Hnodup |].
    apply fmap_sublist, sublist_filter.
  - rewrite Forall_forall in *. intros f [_ Hf]%list_elem_of_filter. by apply Hlt.
Qed.

Lemma fields_add_field (f : ViewField) (w : World) :
  bi_sql_view_id f = id (self w) ->
  bi_sql_view_field_ids (add_field f w) = bi_sql_view_field_ids w ++ [f].
Proof.
  intros Hmine. unfold bi_sql_view_field_ids. simpl.
  rewrite filter_app. f_equal. by rewrite filter_cons_True.
Qed.

Lemma named_add_field_same (f : ViewField) (w : World) :
  bi_sql_view_id f = id (self w) ->
  named (add_field f w) (name f) = named w (name f) ++ [f].
Proof.
  intros Hmine. unfold named. rewrite fields_add_field by done.
  rewrite filter_app. f_equal. by rewrite filter_cons_True.
Qed.

Lemma named_add_field_other (f : ViewField) (w : World) (x : string) :
  bi_sql_view_id f = id (self w) -> name f <> x ->
  named (add_field f w) x = named w x.
Proof.
  intros Hmine Hne. unfold named. rewrite fields_add_field by done.
  rewrite filter_app, filter_cons_False by done. apply app_nil_r.
Qed.

(** *** Idempotence: the values a field ends with *)

(** The last column of the manifest named [x]. *)
Definition last_column (columns : list column) (x : string) : option column :=
  last (filter (fun c => attname c = x) columns).

(** The field holds the ordinal and the type of the last column of its
    name: what a run over [columns] writes to it last. *)
Definition holds (columns : list column) (f : ViewField) : Prop :=
  exists c, last_column columns (name f) = Some c /\
    sequence f = attnum c /\ sql_type f = atttype c.

Lemma holds_snoc_other (columns : list column) (c : column) (f : ViewField) :
  attname c <> name f -> holds columns f -> holds (columns ++ [c]) f.
Proof.
  intros Hne (c' & Hlast & Hvalues). exists c'. split; [| done].
  unfold last_column in *.
  by rewrite filter_app, filter_cons_False, filter_nil, app_nil_r.
Qed.

Lemma holds_snoc_same (columns : list column) (c : column) (f : ViewField) :
  attname c = name f -> sequence f = attnum c -> sql_type f = atttype c ->
  holds (columns ++ [c]) f.
Proof.
  intros Hname Hseq Htype. exists c. split; [| done].
  unfold last_column.
  by rewrite filter_app, filter_cons_True, filter_nil, last_snoc.
Qed.

(** *** Idempotence: the invariant of the loop *)

(** After the columns [done], with [field_ids] collected: each column
    either was passed by (no field of its name, no prefix) or has exactly
    one field, collected and holding the values of the last column of that
    name; and each identifier collected is the one of a field of [self]
    that bears the name of a column. *)
Record synced (done : list column) (field_ids : list nat) (w : World) : Prop := {
  synced_wf : wf w;
  synced_columns :
    forall c, c ∈ done ->
      (named w (attname c) = [] /\ prefixed (attname c) = false) \/
      (exists f, named w (attname c) = [f] /\
         BiSqlViewField.id f ∈ field_ids /\ holds done f);
  synced_ids :
    forall i, i ∈ field_ids ->
      exists f c, f ∈ bi_sql_view_field_ids w /\ BiSqlViewField.id f = i /\
        c ∈ done /\ attname c = name f
}.

Lemma named_singleton_name (w : World) (x : string) (f : ViewField) :
  named w x = [f] -> name f = x /\ f ∈ bi_sql_view_field_ids w.
Proof.
  intros H. apply named_in_fields. rewrite H. by apply list_elem_of_singleton.
Qed.

Lemma synced_nil (w : World) : wf w -> synced [] [] w.
Proof.
  intros Hwf. split; [done | |].
  - by intros c ?%elem_of_nil.
  - by intros i ?%elem_of_nil.
Qed.

Lemma synced_step (done : list column) (field_ids : list nat) (w : World)
    (c : column) (field_ids' : list nat) (w' : World) :
  synced done field_ids w ->
  sync_column c field_ids w = (inr field_ids', w') ->
  synced (done ++ [c]) field_ids' w'.
Proof.
  intros [Hwf Hcols Hids]. rewrite sync_column_spec.
  destruct (named w (attname c)) as [|f0 [|g l]] eqn:Hnamed; [| | done].
  - destruct (prefixed (attname c)) eqn:Hprefix; intros [= <- <-].
    + (* a field is created *)
      set (fnew := BiSqlViewField.new (next_field_id w) (id (self w))
                     (attnum c) (attname c) (atttype c)).
      split.
      * by apply wf_add_field.
      * intros c0 [Hc0 | ->%list_elem_of_singleton]%elem_of_app.
        -- destruct (decide (attname c0 = attname c)) as [Heq | Hne].
           { exfalso. destruct (Hcols c0 Hc0) as [[_ Hp] | (f & Hf & _)];
               rewrite Heq in *; congruence. }
           rewrite named_add_field_other by (done || (simpl; congruence)).
           destruct (Hcols c0 Hc0) as [Hnone | (f & Hf & Hin & Hholds)]; [by left |].
           right. exists f. split; [done |]. split; [apply elem_of_app; by left |].
           apply holds_snoc_other; [| done].
           apply named_singleton_name in Hf as [-> _]. congruence.
        -- right. exists fnew. split; [| split].
           ++ change (attname c) with (name fnew).
              rewrite named_add_field_same by done. simpl. by rewrite Hnamed.
           ++ apply elem_of_app. right. by apply list_elem_of_singleton.
           ++ by apply holds_snoc_same.
      * intros i [Hi | ->%list_elem_of_singleton]%elem_of_app.
        -- destruct (Hids i Hi) as (f & c0 & Hf & Hid & Hc0 & Hname).
           exists f, c0. rewrite fields_add_field by done.
           repeat split; try done; apply elem_of_app; by left.
        -- exists fnew, c. rewrite fields_add_field by done.
           repeat split; try done; apply elem_of_app; right;
             by apply list_elem_of_singleton.
    + (* the column is passed by *)
      split; [done | |].
      * intros c0 [Hc0 | ->%list_elem_of_singleton]%elem_of_app; [| by left].
        destruct (Hcols c0 Hc0) as [Hnone | (f & Hf & Hin & Hholds)]; [by left |].
        right. exists f. split; [done |]. split; [done |].
        apply holds_snoc_other; [| done].
        apply named_singleton_name in Hf as [Hnf Hf]. intros Heq.
        assert (f ∈ named w (attname c)) as Hin'
          by (apply named_in_fields; by split).
        rewrite Hnamed in Hin'. by apply elem_of_nil in Hin'.
      * intros i Hi. destruct (Hids i Hi) as (f & c0 & Hf & Hid & Hc0 & Hname).
        exists f, c0. repeat split; try done. apply elem_of_app; by left.
  - (* the field of that name is written *)
    intros [= <- <-].
    destruct (named_singleton_name _ _ _ Hnamed) as [Hname0 Hf0].
    destruct (fields_in_table _ _ Hf0) as [Hf0t _].
    assert (forall f x, named w x = [f] -> x <> attname c ->
              touch1 (BiSqlViewField.id f0) (attnum c) (atttype c) f = f) as Hother.
    { intros f x Hf Hne. unfold touch1. destruct (decide _) as [Heq | Hneq]; [| done].
      destruct (named_singleton_name _ _ _ Hf) as [Hnamef Hff].
      destruct (fields_in_table _ _ Hff) as [Hft _].
      rewrite (wf_unique w f f0 Hwf Hft Hf0t Heq) in Hnamef. congruence. }
    split.
    * by apply wf_touch.
    * intros c0 [Hc0 | ->%list_elem_of_singleton]%elem_of_app.
      -- rewrite named_touch.
         destruct (Hcols c0 Hc0) as [[Hnone Hp] | (f & Hf & Hin & Hholds)].
         { left. by rewrite Hnone. }
         right. rewrite Hf. simpl.
         destruct (decide (attname c0 = attname c)) as [Heq | Hne].
         ++ rewrite Heq, Hnamed in Hf. injection Hf as <-.
            exists (touch1 (BiSqlViewField.id f0) (attnum c) (atttype c) f0).
            split; [done |]. rewrite touch1_id.
            split; [apply elem_of_app; by left |].
            unfold touch1. rewrite decide_True by done.
            by apply holds_snoc_same.
         ++ rewrite (Hother f _ Hf Hne). exists f. split; [done |].
            split; [apply elem_of_app; by left |].
            apply holds_snoc_other; [| done].
            apply named_singleton_name in Hf as [-> _]. congruence.
      -- right. rewrite named_touch, Hnamed. simpl.
         exists (touch1 (BiSqlViewField.id f0) (attnum c) (atttype c) f0).
         split; [done |]. rewrite touch1_id.
         split; [apply elem_of_app; right; by apply list_elem_of_singleton |].
         unfold touch1. rewrite decide_True by done.
         by apply holds_snoc_same.
    * intros i [Hi | ->%list_elem_of_singleton]%elem_of_app.
      -- destruct (Hids i Hi) as (f & c0 & Hf & Hid & Hc0 & Hname).
         exists (touch1 (BiSqlViewField.id f0) (attnum c) (atttype c) f), c0.
         rewrite fields_touch, touch1_id, touch1_name.
         repeat split; try done; [by apply list_elem_of_fmap_2 |].
         apply elem_of_app; by left.
      -- exists (touch1 (BiSqlViewField.id f0) (attnum c) (atttype c) f0), c.
         rewrite fields_touch, touch1_id, touch1_name.
         repeat split; try done; [by apply list_elem_of_fmap_2 |].
         apply elem_of_app; right; by apply list_elem_of_singleton.
Qed.

Lemma sync_columns_synced (done columns : list column) (field_ids : list nat)
    (w : World) (field_ids' : list nat) (w' : World) :
  synced done field_ids w ->
  sync_columns columns field_ids w = (inr field_ids', w') ->
  synced (done ++ columns) field_ids' w'.
Proof.
  revert done field_ids w.
  induction columns as [|c columns IH]; intros done field_ids w Hsynced; simpl.
  - intros [= <- <-]. by rewrite app_nil_r.
  - unfold bind.
    destruct (sync_column c field_ids w) as [[e | ids1] w1] eqn:Hstep; [done |].
    intros Hrest. rewrite cons_middle, app_assoc.
    eapply IH; [| exact Hrest]. by eapply synced_step.
Qed.

(** The loop touches the table of the fields only. *)
Lemma sync_column_frame (c : column) (field_ids : list nat) (w : World) :
  self (sync_column c field_ids w).2 = self w /\
  orm (sync_column c field_ids w).2 = orm w /\
  trace (sync_column c field_ids w).2 = trace w.
Proof.
  rewrite sync_column_spec.
  destruct (named w (attname c)) as [|f [|g l]]; [| done | done].
  by destruct (prefixed (attname c)).
Qed.

Lemma sync_columns_frame (columns : list column) (field_ids : list nat) (w : World) :
  self (sync_columns columns field_ids w).2 = self w /\
  orm (sync_columns columns field_ids w).2 = orm w /\
  trace (sync_columns columns field_ids w).2 = trace w.
Proof.
  revert field_ids w. induction columns as [|c columns IH]; intros field_ids w; [done |].
  simpl. unfold bind.
  pose proof (sync_column_frame c field_ids w) as Hstep.
  destruct (sync_column c field_ids w) as [[e | ids1] w1]; [done |].
  destruct (IH ids1 w1) as (-> & -> & ->). exact Hstep.
Qed.

(** *** Idempotence: after the obsolete fields are unlinked *)

Lemma fields_unlinked (field_ids : list nat) (w : World) :
  bi_sql_view_field_ids (unlinked field_ids w)
  = filter (fun f => BiSqlViewField.id f ∈ field_ids) (bi_sql_view_field_ids w).
Proof.
  unfold bi_sql_view_field_ids, unlinked. simpl.
  rewrite !list_filter_filter. apply list_filter_iff. intros f. split.
  - intros [Hmine Hkept]. split; [| done].
    destruct (decide (BiSqlViewField.id f ∈ field_ids)) as [Hin | Hout]; [done |].
    by destruct Hkept.
  - intros [Hin Hmine]. split; [done |]. by intros [_ Hout].
Qed.

Lemma named_unlinked (field_ids : list nat) (w : World) (x : string) :
  named (unlinked field_ids w) x
  = filter (fun f => BiSqlViewField.id f ∈ field_ids) (named w x).
Proof.
  unfold named. rewrite fields_unlinked, !list_filter_filter.
  apply list_filter_iff. tauto.
Qed.

(** A table on which a run over [columns] creates nothing and writes what
    is there already. *)
Definition settled (columns : list column) (w : World) : Prop :=
  (forall c, c ∈ columns ->
     (named w (attname c) = [] /\ prefixed (attname c) = false) \/
     (exists f, named w (attname c) = [f])) /\
  (forall f, f ∈ bi_sql_view_field_ids w -> holds columns f).

Lemma synced_unlinked_settled (columns : list column) (field_ids : list nat) (w : World) :
  synced columns field_ids w ->
  wf (unlinked field_ids w) /\ settled columns (unlinked field_ids w).
Proof.
  intros [Hwf Hcols Hids]. split; [by apply wf_filter |]. split.
  - intros c Hc. rewrite named_unlinked.
    destruct (Hcols c Hc) as [[Hnone Hp] | (f & Hf & Hin & _)].
    + left. by rewrite Hnone.
    + right. exists f. rewrite Hf. by rewrite filter_cons_True.
  - intros f. rewrite fields_unlinked.
    intros [Hin Hf]%list_elem_of_filter.
    destruct (Hids _ Hin) as (f' & c & Hf' & Hid & Hc & Hname).
    destruct (fields_in_table _ _ Hf) as [Hft _].
    destruct (fields_in_table _ _ Hf') as [Hft' _].
    rewrite (wf_unique w f' f Hwf Hft' Hft Hid) in Hname.
    destruct (Hcols c Hc) as [[Hnone _] | (f'' & Hf'' & _ & Hholds)].
    + assert (f ∈ named w (attname c)) as Hin'
        by (apply named_in_fields; by split).
      rewrite Hnone in Hin'. by apply elem_of_nil in Hin'.
    + assert (f ∈ named w (attname c)) as Hin'
        by (apply named_in_fields; by split).
      rewrite Hf'' in Hin'. by apply list_elem_of_singleton in Hin' as ->.
Qed.

(** A run of the reconciliation that returns leaves a settled table. *)
Lemma reconcile_establishes (columns : list column) (w : World)
    (columns' : list column) (w1 : World) :
  wf w ->
  reconcile columns w = (inr columns', w1) ->
  columns' = columns /\ wf w1 /\ settled columns w1 /\
  bi_sql_view_field_ids w1 <> [] /\
  self w1 = self w /\ orm w1 = orm w /\ trace w1 = trace w.
Proof.
  intros Hwf. unfold reconcile. unfold bind at 1.
  pose proof (sync_columns_frame columns [] w) as Hframe.
  destruct (sync_columns columns [] w) as [[e | field_ids] w'] eqn:Hloop; [done |].
  simpl in Hframe. destruct Hframe as (Hself & Horm & Htrace).
  unfold bind at 1. rewrite unlink_obsolete_eq.
  unfold bind, gets.
  destruct (bi_sql_view_field_ids (unlinked field_ids w')) as [|f l] eqn:Hfields;
    [done |].
  intros [= <- <-].
  destruct (synced_unlinked_settled columns field_ids w') as [Hwf1 Hsettled].
  { apply (sync_columns_synced [] columns [] w); [by apply synced_nil | done]. }
  rewrite Hfields. do 4 (split; [done |]). by repeat split.
Qed.

(** *** Idempotence: a run on a table where every column finds its field *)

(** Every column is passed by or finds exactly one field. *)
Definition matchable (columns : list column) (w : World) : Prop :=
  forall c, c ∈ columns ->
    (named w (attname c) = [] /\ prefixed (attname c) = false) \/
    (exists f, named w (attname c) = [f]).

(** What such a run leaves in a row, and the identifiers it collects. *)
Definition settle1 (columns : list column) (v : nat) (f : ViewField) : ViewField :=
  if decide (bi_sql_view_id f = v) then
    match last_column columns (name f) with
    | Some c => set_sequence_sql_type (attnum c) (atttype c) f
    | None => f
    end
  else f.

Definition settle (columns : list column) (w : World) : World :=
  on_field_table (fmap (settle1 columns (id (self w)))) w.

Definition matched (columns : list column) (w : World) : list nat :=
  omap (fun c => BiSqlViewField.id <$> head (named w (attname c))) columns.

Lemma on_field_table_ext (g h : ViewField -> ViewField) (w : World) :
  (forall f, f ∈ field_table w -> g f = h f) ->
  on_field_table (fmap g) w = on_field_table (fmap h) w.
Proof.
  intros Hext. unfold on_field_table. f_equal.
  apply Forall_fmap_ext_1, Forall_forall. exact Hext.
Qed.

Lemma on_field_table_id (g : ViewField -> ViewField) (w : World) :
  (forall f, f ∈ field_table w -> g f = f) ->
  on_field_table (fmap g) w = w.
Proof.
  intros Hext. rewrite (on_field_table_ext g (fun f => f)) by done.
  unfold on_field_table. destruct w. simpl. f_equal. apply list_fmap_id.
Qed.

Lemma matchable_touch (columns : list column) (i : nat) (s : Z) (t : string)
    (w : World) :
  matchable columns w -> matchable columns (touch i s t w).
Proof.
  intros Hm c Hc. rewrite named_touch.
  destruct (Hm c Hc) as [[-> Hp] | (f & ->)]; [by left |].
  right. by eexists.
Qed.

Lemma matched_cons (c : column) (columns : list column) (w : World) :
  matched (c :: columns) w
  = match BiSqlViewField.id <$> head (named w (attname c)) with
    | Some i => i :: matched columns w
    | None => matched columns w
    end.
Proof. reflexivity. Qed.

Lemma matched_touch (columns : list column) (i : nat) (s : Z) (t : string)
    (w : World) :
  matched columns (touch i s t w) = matched columns w.
Proof.
  induction columns as [|c columns IH]; [done |].
  rewrite !matched_cons, IH, named_touch.
  destruct (named w (attname c)) as [|f l]; [done |].
  simpl. by rewrite touch1_id.
Qed.

Lemma last_column_cons_other (c : column) (columns : list column) (x : string) :
  attname c <> x -> last_column (c :: columns) x = last_column columns x.
Proof. intros Hne. unfold last_column. by rewrite filter_cons_False. Qed.

Lemma last_column_cons_same (c : column) (columns : list column) :
  last_column (c :: columns) (attname c)
  = match last_column columns (attname c) with
    | Some c' => Some c'
    | None => Some c
    end.
Proof. unfold last_column. rewrite filter_cons_True by done. apply last_cons. Qed.

Lemma sync_columns_matchable (columns : list column) (field_ids : list nat)
    (w : World) :
  wf w -> matchable columns w ->
  sync_columns columns field_ids w
  = (inr (field_ids ++ matched columns w), settle columns w).
Proof.
  revert field_ids w.
  induction columns as [|c columns IH]; intros field_ids w Hwf Hm.
  - simpl. unfold ret. rewrite app_nil_r. f_equal. symmetry.
    apply on_field_table_id. intros f _. unfold settle1.
    by destruct (decide _).
  - assert (matchable columns w) as Hm'
      by (intros c' Hc'; apply Hm; by right).
    cbn [sync_columns]. unfold bind. rewrite sync_column_spec.
    destruct (Hm c) as [[Hnone Hp] | (f0 & Hf0)]; [by left | |].
    + (* the column is passed by *)
      rewrite Hnone, Hp, (IH _ _ Hwf Hm'), matched_cons, Hnone. simpl. f_equal.
      apply on_field_table_ext. intros f Hf. unfold settle1.
      destruct (decide _) as [Hmine | Hother]; [| done].
      rewrite last_column_cons_other; [done |]. intros Heq.
      assert (f ∈ named w (attname c)) as Hin.
      { apply named_in_fields. split; [done |].
        unfold bi_sql_view_field_ids. by apply list_elem_of_filter. }
      rewrite Hnone in Hin. by apply elem_of_nil in Hin.
    + (* the field of that name is written *)
      rewrite Hf0.
      rewrite (IH _ _ (wf_touch _ _ _ _ Hwf) (matchable_touch _ _ _ _ _ Hm')).
      rewrite matched_touch, matched_cons, Hf0. simpl.
      rewrite <- app_assoc. f_equal.
      destruct (named_singleton_name _ _ _ Hf0) as [Hname0 Hfields0].
      destruct (fields_in_table _ _ Hfields0) as [Hf0t Hmine0].
      unfold settle, touch, on_field_table. simpl. f_equal.
      rewrite <- list_fmap_compose.
      apply Forall_fmap_ext_1, Forall_forall. intros f Hf. simpl.
      unfold touch1. destruct (decide (BiSqlViewField.id f = _)) as [Heq | Hne].
      * rewrite (wf_unique w f f0 Hwf Hf Hf0t Heq). unfold settle1. simpl.
        rewrite !decide_True by done.
        rewrite Hname0, last_column_cons_same.
        by destruct (last_column columns (attname c)).
      * unfold settle1. destruct (decide _) as [Hmine | Hother]; [| done].
        rewrite last_column_cons_other; [done |]. intros Hsame.
        assert (f ∈ named w (attname c)) as Hin.
        { apply named_in_fields. split; [done |].
          unfold bi_sql_view_field_ids. by apply list_elem_of_filter. }
        rewrite Hf0 in Hin. apply list_elem_of_singleton in Hin. by subst f.
Qed.

Lemma filter_all {A} (P : A -> Prop) `{!forall x, Decision (P x)} (l : list A) :
  (forall x, x ∈ l -> P x) -> filter P l = l.
Proof.
  induction l as [|x l IH]; intros Hall; [done |].
  rewrite filter_cons_True by (apply Hall; by left).
  f_equal. apply IH. intros y Hy. apply Hall. by right.
Qed.

Lemma settle_settled (columns : list column) (w : World) :
  settled columns w -> settle columns w = w.
Proof.
  intros [_ Hholds]. apply on_field_table_id. intros f Hf. unfold settle1.
  destruct (decide _) as [Hmine | Hother]; [| done].
  destruct (Hholds f) as (c & -> & Hseq & Htype).
  { unfold bi_sql_view_field_ids. by apply list_elem_of_filter. }
  destruct f. simpl in *. unfold set_sequence_sql_type. simpl. congruence.
Qed.

Lemma matched_covers (columns : list column) (w : World) (f : ViewField) :
  settled columns w -> f ∈ bi_sql_view_field_ids w ->
  BiSqlViewField.id f ∈ matched columns w.
Proof.
  intros [Hm Hholds] Hf. destruct (Hholds f Hf) as (c & Hlast & _).
  apply last_Some_elem_of, list_elem_of_filter in Hlast as [Hname Hc].
  apply list_elem_of_omap. exists c. split; [done |].
  assert (f ∈ named w (attname c)) as Hin
    by (apply named_in_fields; by split).
  destruct (Hm c Hc) as [[Hnone _] | (f' & Hf')]; rewrite ?Hnone, ?Hf' in *.
  - by apply elem_of_nil in Hin.
  - by apply list_elem_of_singleton in Hin as ->.
Qed.

Lemma unlinked_all (field_ids : list nat) (w : World) :
  (forall f, f ∈ bi_sql_view_field_ids w -> BiSqlViewField.id f ∈ field_ids) ->
  unlinked field_ids w = w.
Proof.
  intros Hall. unfold unlinked, on_field_table. rewrite filter_all.
  - by destruct w.
  - intros f Hf [Hmine Hout]. apply Hout, Hall.
    unfold bi_sql_view_field_ids. by apply list_elem_of_filter.
Qed.

(** On a settled table the reconciliation returns and changes nothing. *)
Lemma reconcile_settled (columns : list column) (w : World) :
  wf w -> settled columns w -> bi_sql_view_field_ids w <> [] ->
  reconcile columns w = (inr columns, w).
Proof.
  intros Hwf Hsettled Hfields. unfold reconcile. unfold bind at 1.
  rewrite sync_columns_matchable by (done || by destruct Hsettled).
  rewrite (settle_settled _ _ Hsettled). unfold bind at 1.
  rewrite unlink_obsolete_eq, unlinked_all.
  - unfold bind, gets. by destruct (bi_sql_view_field_ids w).
  - intros f Hf. by apply matched_covers.
Qed.

Definition sample_after : World :=
  (_check_execution (sample_env sample_manifest) sample_before).2.

(** C8. The synchronisation of the fields is idempotent.  When a run of
    [_check_execution] on a table with unique identifiers returns, a second
    run with the same manifest returns the same manifest and leaves the
    table of the fields as the first run left it, row for row, with the
    same next identifier: nothing is created, nothing is deleted.  What the
    second run writes is what the fields hold: after the first run each
    field of the view holds the ordinal and the type of the last column of
    its name, which is the column of its name when the names of the
    manifest are distinct, as those of a view are. *)
Theorem check_execution_idempotent (env : Env) (w : World)
    (columns : list column) (w1 : World) :
  wf w ->
  _check_execution env w = (inr columns, w1) ->
  exists w2,
    _check_execution env w1 = (inr columns, w2) /\
    field_table w2 = field_table w1 /\
    next_field_id w2 = next_field_id w1 /\
    self w2 = self w1 /\ orm w2 = orm w1 /\
    (forall f, f ∈ bi_sql_view_field_ids w1 -> holds columns f) /\
    (NoDup (attname <$> columns) ->
     forall c f,
       c ∈ columns -> f ∈ bi_sql_view_field_ids w1 -> name f = attname c ->
       sequence f = attnum c /\ sql_type f = atttype c).
Proof.
  intros Hwf. unfold _check_execution. unfold bind at 1.
  destruct (super_check_execution env w) as [[e | columns0] w0] eqn:Hprobe; [done |].
  pose proof (super_check_execution_returns _ _ _ _ Hprobe) as Haccepted.
  rewrite (super_check_execution_accepted _ _ Haccepted) in Hprobe.
  injection Hprobe as <- <-. intros Hrun.
  apply reconcile_establishes in Hrun
    as (-> & Hwf1 & Hsettled & Hfields & Hself & Horm & Htrace); [| exact Hwf].
  simpl in Hself.
  exists (with_trace (trace w1 ++ probe_events env (self w1)) w1).
  split; [| do 4 (split; [done |]); split].
  - unfold bind. rewrite super_check_execution_accepted by (by rewrite Hself).
    apply (reconcile_settled (pg_attribute env)
             (with_trace (trace w1 ++ probe_events env (self w1)) w1));
      [exact Hwf1 | exact Hsettled | exact Hfields].
  - by destruct Hsettled.
  - intros Hnames c f Hc Hf Hname.
    destruct Hsettled as [_ Hholds].
    destruct (Hholds f Hf) as (c' & Hlast & Hseq & Htype).
    apply last_Some_elem_of, list_elem_of_filter in Hlast as [Hname' Hc'].
    assert (c' = c) as ->
      by (apply (NoDup_fmap_eq attname (pg_attribute env)); congruence).
    done.
Qed.

Lemma check_execution_idempotent_witness :
  wf sample_before /\
  _check_execution (sample_env sample_manifest) sample_before
  = (inr sample_manifest, sample_after) /\
  exists w2,
    _check_execution (sample_env sample_manifest) sample_after
    = (inr sample_manifest, w2) /\
    field_table w2 = field_table sample_after /\
    next_field_id w2 = next_field_id sample_after /\
    self w2 = self sample_after /\ orm w2 = orm sample_after /\
    (forall f, f ∈ bi_sql_view_field_ids sample_after ->
       holds sample_manifest f) /\
    (NoDup (attname <$> sample_manifest) ->
     forall c f,
       c ∈ sample_manifest -> f ∈ bi_sql_view_field_ids sample_after ->
       name f = attname c ->
       sequence f = attnum c /\ sql_type f = atttype c).
Proof.
  assert (wf sample_before) as Hwf.
  { split.
    - apply (bool_decide_unpack _). vm_compute. exact I.
    - repeat constructor; simpl; lia. }
  split; [exact Hwf |]. split; [reflexivity |].
  apply (check_execution_idempotent (sample_env sample_manifest) sample_before
           sample_manifest sample_after Hwf).
  reflexivity.
Defined.

(** What the sample run leaves: [x_a] rewritten in place, [x_c] created
    with the next identifier, [x_old] gone, the other view's field kept. *)
Example sample_after_fields :
  field_table sample_after =
  [ {| BiSqlViewField.id := 1; bi_sql_view_id := 7; name := "x_a";
       sequence := 1; sql_type := "integer"; is_index := true;
       graph_type := Some measure |};
    {| BiSqlViewField.id := 3; bi_sql_view_id := 8; name := "x_c";
       sequence := 1; sql_type := "date"; is_index := false;
       graph_type := None |};
    {| BiSqlViewField.id := 4; bi_sql_view_id := 7; name := "x_c";
       sequence := 3; sql_type := "numeric"; is_index := false;
       graph_type := None |} ] /\
  next_field_id sample_after = 5.
Proof. split; reflexivity. Qed.

End FieldSync.

(** ** [bi.sql.view]: indexes only on materialized views *)

Module IndexInvariant.

Import BiSqlViewField BiSqlView Samples FieldSync.

(** A field of the view is an index only if the view is materialized. *)
Definition index_invariant (w : World) : Prop :=
  is_materialized (self w) = false ->
  forall f, f ∈ bi_sql_view_field_ids w -> is_index f = false.

(** The operations on a view and its fields that the sources define, and
    the two writes of the columns of the constraint. *)
Inductive operation : Type :=
| WriteIsMaterialized (b : bool)
| FieldWriteIsIndex (fid : nat) (b : bool)
| CheckExecution (env : Env)
| ValidateSqlExpression (env : Env)
| ResetToModelValid
| ResetToSqlValid (env : Env)
| SetDraft (env : Env).

Definition run (o : operation) : M World unit :=
  match o with
  | WriteIsMaterialized b => write_is_materialized b
  | FieldWriteIsIndex fid b => field_write_is_index fid b
  | CheckExecution env => _check_execution env;;; ret tt
  | ValidateSqlExpression env => button_validate_sql_expression env
  | ResetToModelValid => button_reset_to_model_valid
  | ResetToSqlValid env => button_reset_to_sql_valid env
  | SetDraft env => button_set_draft env
  end.

(** The states of a view: it is created without field, and every
    operation that returns leads to a new state (one that raises is rolled
    back with its transaction). *)
Inductive reachable : World -> Prop :=
| reachable_created (w : World) :
    bi_sql_view_field_ids w = [] -> reachable w
| reachable_step (w : World) (o : operation) (w' : World) :
    reachable w -> run o w = (inr tt, w') -> reachable w'.

(** A computation keeps the invariant on both exits. *)
Definition stable {A} (c : M World A) : Prop :=
  forall w, index_invariant w -> index_invariant (c w).2.

(** The invariant reads the flag of the view, its identifier and the table
    of the fields. *)
Lemma index_invariant_same (w w' : World) :
  is_materialized (self w') = is_materialized (self w) ->
  id (self w') = id (self w) ->
  field_table w' = field_table w ->
  index_invariant w -> index_invariant w'.
Proof.
  unfold index_invariant, bi_sql_view_field_ids.
  intros -> -> ->. done.
Qed.

Lemma stable_ret {A} (a : A) : stable (ret a).
Proof. by intros w. Qed.

Lemma stable_raise {A} (e : exn) : stable (@raise World A e).
Proof. by intros w. Qed.

Lemma stable_gets {A} (g : World -> A) : stable (gets g).
Proof. by intros w. Qed.

Lemma stable_bind {A B} (c : M World A) (k : A -> M World B) :
  stable c -> (forall a, stable (k a)) -> stable (bind c k).
Proof.
  intros Hc Hk w Hw. unfold bind. specialize (Hc w Hw).
  destruct (c w) as [[e | a] w1]; [done |]. by apply Hk.
Qed.

Lemma stable_when (b : bool) (c : M World unit) : stable c -> stable (when b c).
Proof. intros Hc. destruct b; [done | apply stable_ret]. Qed.

Lemma stable_lift {A} (c : M SqlRequestMixin.World A) : stable (lift A c).
Proof.
  intros w Hw. unfold lift. destruct (c (to_mixin w)) as [r m]. simpl.
  by apply (index_invariant_same w).
Qed.

Lemma stable_on_orm (g : Orm -> Orm) : stable (modify (on_orm g)).
Proof. intros w Hw. by apply (index_invariant_same w). Qed.

Lemma stable_on_self (g : SqlView -> SqlView) :
  (forall v, is_materialized (g v) = is_materialized v) ->
  (forall v, id (g v) = id v) ->
  stable (modify (on_self g)).
Proof.
  intros Hmat Hid w Hw. apply (index_invariant_same w); simpl; by auto.
Qed.

Create HintDb stable discriminated.

#[local] Hint Resolve stable_ret stable_raise stable_gets stable_when
  stable_lift stable_on_orm : stable.
#[local] Hint Extern 1 (stable (bind _ _)) =>
  apply stable_bind; [| intros ?] : stable.
#[local] Hint Extern 1 (stable (modify (on_self _))) =>
  apply stable_on_self; intros ?; reflexivity : stable.
#[local] Hint Extern 2 (stable (match ?x with _ => _ end)) =>
  destruct x : stable.

Lemma stable_button_reset_to_model_valid : stable button_reset_to_model_valid.
Proof. unfold button_reset_to_model_valid. auto 10 with stable. Qed.

Lemma stable_button_reset_to_sql_valid (env : Env) :
  stable (button_reset_to_sql_valid env).
Proof.
  unfold button_reset_to_sql_valid, _drop_view, _drop_model_and_fields,
    _log_execute.
  pose proof stable_button_reset_to_model_valid.
  auto 20 with stable.
Qed.

Lemma stable_button_set_draft (env : Env) : stable (button_set_draft env).
Proof.
  unfold button_set_draft.
  pose proof stable_button_reset_to_model_valid.
  pose proof (stable_button_reset_to_sql_valid env).
  auto 10 with stable.
Qed.

Lemma stable_sync_column (c : column) (field_ids : list nat) :
  stable (sync_column c field_ids).
Proof.
  intros w Hw. rewrite sync_column_spec.
  destruct (named w (attname c)) as [|f0 [|g l]]; [| | done].
  - destruct (prefixed (attname c)); [| done].
    intros Hmat f. simpl. rewrite fields_add_field by done.
    intros [Hf | ->%list_elem_of_singleton]%elem_of_app; [by apply Hw | done].
  - intros Hmat f. simpl. rewrite fields_touch.
    intros (f' & -> & Hf')%list_elem_of_fmap.
    rewrite touch1_is_index. by apply Hw.
Qed.

Lemma stable_sync_columns (columns : list column) (field_ids : list nat) :
  stable (sync_columns columns field_ids).
Proof.
  revert field_ids. induction columns as [|c columns IH]; intros field_ids.
  - apply stable_ret.
  - simpl. apply stable_bind; [apply stable_sync_column | done].
Qed.

Lemma stable_unlink_obsolete (field_ids : list nat) :
  stable (unlink_obsolete field_ids).
Proof.
  intros w Hw. rewrite unlink_obsolete_eq. intros Hmat f. simpl.
  rewrite fields_unlinked. intros [_ Hf]%list_elem_of_filter. by apply Hw.
Qed.

Lemma stable_check_execution (env : Env) : stable (_check_execution env).
Proof.
  unfold _check_execution, super_check_execution, reconcile.
  pose proof stable_sync_columns. pose proof stable_unlink_obsolete.
  auto 20 with stable.
Qed.

Lemma stable_button_validate_sql_expression (env : Env) :
  stable (button_validate_sql_expression env).
Proof.
  unfold button_validate_sql_expression,
    SqlRequestMixin.button_validate_sql_expression.
  pose proof (stable_check_execution env).
  auto 20 with stable.
Qed.

(** The two guarded writes keep the invariant when they return. *)
Lemma write_is_materialized_returns (b : bool) (w w' : World) :
  write_is_materialized b w = (inr tt, w') -> index_invariant w'.
Proof.
  unfold write_is_materialized, _check_index_materialized, bind, gets, modify.
  simpl. destruct b; simpl.
  - intros [= <-]. by intros Hmat.
  - destruct (filter _ _) as [|g l] eqn:Hfilter; [| done].
    intros [= <-] _ f Hf. simpl in Hf.
    change (bi_sql_view_field_ids (on_self (set_is_materialized false) w))
      with (bi_sql_view_field_ids w) in Hfilter.
    destruct (is_index f) eqn:Hindex; [| done].
    assert (f ∈ filter (fun x => is_index x = true) (bi_sql_view_field_ids w)) as Hin
      by (by apply list_elem_of_filter).
    rewrite Hfilter in Hin. by apply elem_of_nil in Hin.
Qed.

Lemma field_write_is_index_returns (fid : nat) (b : bool) (w w' : World) :
  index_invariant w ->
  field_write_is_index fid b w = (inr tt, w') -> index_invariant w'.
Proof.
  intros Hw. unfold field_write_is_index, field_check_index_materialized.
  unfold bind, gets, modify. simpl.
  set (write := fun f : ViewField =>
         if decide (BiSqlViewField.id f = fid /\ bi_sql_view_id f = id (self w))
         then set_is_index b f else f).
  set (w1 := on_field_table (fmap write) w).
  assert (bi_sql_view_field_ids w1 = write <$> bi_sql_view_field_ids w) as Hfields.
  { unfold bi_sql_view_field_ids, w1. simpl. apply filter_fmap_stable.
    intros f. unfold write. by destruct (decide _). }
  destruct (filter _ (bi_sql_view_field_ids w1)) as [|g l] eqn:Hfilter.
  - (* no field [fid] of the view is an index *)
    intros [= <-] Hmat f Hf.
    destruct (is_index f) eqn:Hindex; [| done].
    destruct (decide (BiSqlViewField.id f = fid)) as [Hid | Hid].
    + assert (f ∈ filter (fun x => BiSqlViewField.id x = fid /\ is_index x = true)
                (bi_sql_view_field_ids w1)) as Hin
        by (by apply list_elem_of_filter).
      rewrite Hfilter in Hin. by apply elem_of_nil in Hin.
    + rewrite Hfields in Hf. apply list_elem_of_fmap in Hf as (f' & -> & Hf').
      unfold write in Hindex, Hid. destruct (decide _) as [[Hid' _] | _].
      * by destruct Hid.
      * rewrite (Hw Hmat f' Hf') in Hindex. done.
  - destruct (is_materialized (self w)) eqn:Hmat'; [| done].
    intros [= <-] Hmat. simpl in Hmat. congruence.
Qed.

(** C9. On every reachable state of a view, a field with [is_index] set
    exists only if the view is materialized.  The two writes that could
    break this are refused with the user error: setting [is_materialized]
    to false while a field of the view is an index, and marking a field of
    a view that is not materialized as an index. *)
Theorem index_only_when_materialized :
  (forall w, reachable w -> index_invariant w) /\
  (forall w f,
     f ∈ bi_sql_view_field_ids w -> is_index f = true ->
     (write_is_materialized false w).1 = inl (UserError index_error_message)) /\
  (forall w f,
     is_materialized (self w) = false -> f ∈ bi_sql_view_field_ids w ->
     (field_write_is_index (BiSqlViewField.id f) true w).1
     = inl (UserError index_error_message)).
Proof.
  split; [| split].
  - intros w Hreach. induction Hreach as [w Hnone | w o w' _ IH Hrun].
    + intros _ f Hf. rewrite Hnone in Hf. by apply elem_of_nil in Hf.
    + destruct o as [b | fid b | env | env | | env | env]; simpl in Hrun.
      * by eapply write_is_materialized_returns.
      * by eapply field_write_is_index_returns.
      * assert (stable (_check_execution env;;; ret tt)) as Hstable
          by (pose proof (stable_check_execution env); auto with stable).
        specialize (Hstable w IH). by rewrite Hrun in Hstable.
      * pose proof (stable_button_validate_sql_expression env w IH) as Hstable.
        by rewrite Hrun in Hstable.
      * pose proof (stable_button_reset_to_model_valid w IH) as Hstable.
        by rewrite Hrun in Hstable.
      * pose proof (stable_button_reset_to_sql_valid env w IH) as Hstable.
        by rewrite Hrun in Hstable.
      * pose proof (stable_button_set_draft env w IH) as Hstable.
        by rewrite Hrun in Hstable.
  - intros w f Hf Hindex.
    unfold write_is_materialized, _check_index_materialized, bind, gets, modify.
    simpl.
    change (bi_sql_view_field_ids (on_self (set_is_materialized false) w))
      with (bi_sql_view_field_ids w).
    destruct (filter _ _) as [|g l] eqn:Hfilter; [| done].
    assert (f ∈ filter (fun x => is_index x = true) (bi_sql_view_field_ids w)) as Hin
      by (by apply list_elem_of_filter).
    rewrite Hfilter in Hin. by apply elem_of_nil in Hin.
  - intros w f Hmat Hf.
    unfold field_write_is_index, field_check_index_materialized.
    unfold bind, gets, modify. simpl.
    set (write := fun g : ViewField =>
           if decide (BiSqlViewField.id g = BiSqlViewField.id f
                      /\ bi_sql_view_id g = id (self w))
           then set_is_index true g else g).
    set (w1 := on_field_table (fmap write) w).
    assert (bi_sql_view_field_ids w1 = write <$> bi_sql_view_field_ids w) as Hfields.
    { unfold bi_sql_view_field_ids, w1. simpl. apply filter_fmap_stable.
      intros g. unfold write. by destruct (decide _). }
    destruct (filter _ (bi_sql_view_field_ids w1)) as [|g l] eqn:Hfilter.
    + assert (write f ∈ filter
                (fun x => BiSqlViewField.id x = BiSqlViewField.id f
                          /\ is_index x = true)
                (bi_sql_view_field_ids w1)) as Hin.
      { apply list_elem_of_filter. split.
        - unfold write. destruct (fields_in_table _ _ Hf) as [_ Hmine].
          by rewrite decide_True.
        - rewrite Hfields. by apply list_elem_of_fmap_2. }
      rewrite Hfilter in Hin. by apply elem_of_nil in Hin.
    + by rewrite Hmat.
Qed.

(** A view reached by a validation and the marking of its first field as
    an index, and a plain view with one field. *)
Definition indexed_view : World :=
  (run (FieldWriteIsIndex 1 true)
     (run (CheckExecution (sample_env sample_manifest))
        (sample_world "SELECT a AS x_a, b, c AS x_c FROM t" draft true [] 1)).2).2.

Definition plain_view : World :=
  (run (CheckExecution (sample_env sample_manifest))
     (sample_world "SELECT a AS x_a, b, c AS x_c FROM t" draft false [] 1)).2.

Lemma index_only_when_materialized_witness :
  reachable indexed_view /\ index_invariant indexed_view /\
  (exists f, f ∈ bi_sql_view_field_ids indexed_view /\ is_index f = true /\
     (write_is_materialized false indexed_view).1
     = inl (UserError index_error_message)) /\
  (exists f, is_materialized (self plain_view) = false /\
     f ∈ bi_sql_view_field_ids plain_view /\
     (field_write_is_index (BiSqlViewField.id f) true plain_view).1
     = inl (UserError index_error_message)).
Proof.
  destruct index_only_when_materialized as (Hinv & Hmat & Hindex).
  assert (reachable indexed_view) as Hreach.
  { apply (reachable_step
             (run (CheckExecution (sample_env sample_manifest))
                (sample_world "SELECT a AS x_a, b, c AS x_c FROM t" draft true [] 1)).2
             (FieldWriteIsIndex 1 true)); [| reflexivity].
    apply (reachable_step
             (sample_world "SELECT a AS x_a, b, c AS x_c FROM t" draft true [] 1)
             (CheckExecution (sample_env sample_manifest))); [| reflexivity].
    by apply reachable_created. }
  split; [exact Hreach |]. split; [by apply Hinv |]. split.
  - eexists. split; [| split; [| eapply Hmat]].
    + apply list_elem_of_here.
    + reflexivity.
    + apply list_elem_of_here.
    + reflexivity.
  - eexists. split; [reflexivity |]. split; [| eapply Hindex].
    + apply list_elem_of_here.
    + reflexivity.
    + apply list_elem_of_here.
Defined.

End IndexInvariant.

(** * Further properties of [sql.request.mixin] *)

(** ** The modes of [_execute_sql_request] *)

Module ExecuteModes.

Import SqlRequestMixin MixinSamples.

(** The name [_create_savepoint] gives its savepoint. *)
Definition savepoint_name (env : Env) : string :=
  PyStr.replace_char "." "_" (_name env) +:+ "_" +:+ uuid_hex env.

(** The cursor [_get_cr_for_query] returns. *)
Definition chosen_cr (w : World) : cursor :=
  if use_external_database (self w) then ExternalCr else EnvCr.

(** What [_rollback_savepoint] does after its statement. *)
Definition closing (cr : cursor) : list event :=
  match cr with
  | ExternalCr => [Close ExternalCr]
  | EnvCr => []
  end.

(** The statement of a mode that reads, and how it is sent. *)
Definition read_statement (env : Env) (params : option (list (string * string)))
    (mode copy_options : string) (w : World) : string :=
  if String.eqb mode "stdout" then
    "COPY (" +:+ mogrify env (query (self w)) params
    +:+ ") TO STDOUT WITH " +:+ copy_options
  else mogrify env (query (self w)) params.

Definition read_event (mode : string) (cr : cursor) (req : string) : event :=
  if String.eqb mode "stdout" then CopyExpert cr req else Execute cr req.



Definition reading_modes : list string := ["fetchall"; "fetchone"; "stdout"].

Ltac unfold_execute :=
  unfold _execute_sql_request, _get_cr_for_query, _create_savepoint,
    _rollback_savepoint, _check_materialized_view_available, SQL,
    try_finally, execute, copy_expert, bind, gets, modify, raise, ret, emit.

Ltac reading_mode H :=
  unfold reading_modes in H;
  repeat (apply elem_of_cons in H as [-> | H]);
  [ | | | by apply elem_of_nil in H ].




(** X2. Without a rollback a mode that reads never returns: its statement
    is sent, without savepoint, and the [finally] clause then reads the
    name of a savepoint that was never bound.  Whatever the database
    answers, the call ends in [UnboundLocalError]. *)
Theorem execute_without_rollback_raises (env : Env)
    (params : option (list (string * string))) (mode : string)
    (view_name : option string) (copy_options : string) (header : bool)
    (w : World) :
  state (self w) <> draft ->
  mode ∈ reading_modes ->
  _execute_sql_request env params mode false view_name copy_options header w
  = (inl (UnboundLocalError "rollback_name"),
     {| self := self w;
        trace :=
          trace w
          ++ [ read_event mode (chosen_cr w)
                 (read_statement env params mode copy_options w) ] |}).
Proof.
  intros Hstate Hmode.
  reading_mode Hmode; unfold_execute;
    unfold chosen_cr, read_statement, read_event;
    rewrite decide_False by done; simpl;
    destruct header, (use_external_database (self w)); simpl;
    match goal with
    | |- context [db_error env ?req] => destruct (db_error env req); simpl
    end;
    try match goal with
        | |- context [description env] => destruct (description env); simpl
        | |- context [env_cr_description env] =>
            destruct (env_cr_description env); simpl
        end;
    reflexivity.
Qed.

Lemma execute_without_rollback_raises_witness :
  state (self (sample_request "SELECT 1 AS x_a" sql_valid)) <> draft /\
  "fetchone" ∈ reading_modes /\
  _execute_sql_request sample_env None "fetchone" false None
    "CSV HEADER DELIMITER ';'" false (sample_request "SELECT 1 AS x_a" sql_valid)
  = (inl (UnboundLocalError "rollback_name"),
     {| self := self (sample_request "SELECT 1 AS x_a" sql_valid);
        trace := [Execute EnvCr "SELECT 1 AS x_a"] |}).
Proof.
  assert (state (self (sample_request "SELECT 1 AS x_a" sql_valid)) <> draft)
    as Hstate by done.
  assert ("fetchone" ∈ reading_modes) as Hmode
    by (apply list_elem_of_further, list_elem_of_here).
  do 2 (split; [done |]).
  exact (execute_without_rollback_raises sample_env None "fetchone" None
           "CSV HEADER DELIMITER ';'" false
           (sample_request "SELECT 1 AS x_a" sql_valid) Hstate Hmode).
Defined.

(** [float(".".join(res[:2]))] for the version the server answers; [None]
    where [float] raises. *)
Definition minor_version (env : Env) : option PyFloat.float :=
  PyFloat.float_of_str
    (PyStr.join "." (firstn 2 (PyStr.split "." (server_version env)))).

(** The double of the literal [9.3]. *)
Definition v9_3 : PyFloat.float := PyFloat.of_decimal false 93 (-1).

Definition materialized_unsupported_message (x : PyFloat.float) : string :=
  "Materialized View requires PostgreSQL 9.3 or greater but"
  +:+ " PostgreSQL " +:+ PyFloat.repr x +:+ " is currently installed.".

(** The sample environment with another answer to [SHOW server_version;]. *)
Definition server_env (version : string) : Env :=
  {| _name := _name sample_env; uuid_hex := uuid_hex sample_env;
     mogrify := mogrify sample_env; db_error := db_error sample_env;
     server_version := version;
     fetchall := []; fetchone := None; description := None;
     env_cr_description := None; copy_output_b64 := "" |}.

(** X3. The two modes that create a view stop before their [CREATE]
    statement when they cannot build it.  In mode ["materialized_view"]
    the version the server answers is cut at its second dot and read as a
    float: when it does not read as one the call raises [ValueError], and
    when it is below 9.3 the user error that prints it; in both cases the
    question of the version is the only statement sent.  A call that gives
    no [view_name] (the default) raises [TypeError], before any statement
    in mode ["view"], after the question of the version in mode
    ["materialized_view"] on a server of 9.3 or more. *)
Theorem view_modes_stop_before_create (env : Env)
    (params : option (list (string * string))) (rollback : bool)
    (view_name : option string) (copy_options : string) (header : bool)
    (w : World) :
  state (self w) <> draft ->
  db_error env "SHOW server_version;" = None ->
  (minor_version env = None ->
   _execute_sql_request env params "materialized_view" rollback view_name
     copy_options header w
   = (inl ValueError, emit (Execute EnvCr "SHOW server_version;") w)) /\
  (forall x,
     minor_version env = Some x -> PyFloat.ltb x v9_3 = true ->
     _execute_sql_request env params "materialized_view" rollback view_name
       copy_options header w
     = (inl (UserError (materialized_unsupported_message x)),
        emit (Execute EnvCr "SHOW server_version;") w)) /\
  (forall x,
     minor_version env = Some x -> PyFloat.ltb x v9_3 = false ->
     _execute_sql_request env params "materialized_view" rollback None
       copy_options header w
     = (inl TypeError, emit (Execute EnvCr "SHOW server_version;") w)) /\
  _execute_sql_request env params "view" rollback None copy_options header w
  = (inl TypeError, w).
Proof.
  intros Hstate Hshow. unfold minor_version, v9_3.
  split; [| split; [| split]].
  - intros Hversion. unfold_execute. rewrite decide_False by done. simpl.
    rewrite Hshow. simpl. by rewrite Hversion.
  - intros x Hversion Hlt. unfold_execute.
    unfold materialized_unsupported_message.
    rewrite decide_False by done. simpl.
    rewrite Hshow. simpl. rewrite Hversion. by rewrite Hlt.
  - intros x Hversion Hlt. unfold_execute. rewrite decide_False by done. simpl.
    rewrite Hshow. simpl. rewrite Hversion. by rewrite Hlt.
  - unfold_execute. by rewrite decide_False by done.
Qed.

Lemma view_modes_stop_before_create_witness :
  _execute_sql_request (server_env "9.2.24") None "materialized_view" true
    (Some "x_bi_sql_view_sales") "CSV HEADER DELIMITER ';'" false
    (sample_request "SELECT 1 AS x_a" sql_valid)
  = (inl (UserError
       "Materialized View requires PostgreSQL 9.3 or greater but PostgreSQL 9.2 is currently installed."),
     emit (Execute EnvCr "SHOW server_version;")
       (sample_request "SELECT 1 AS x_a" sql_valid))
  /\
  _execute_sql_request (server_env "16.2 (Debian 16.2-1.pgdg120+2)") None
    "materialized_view" true
    (Some "x_bi_sql_view_sales") "CSV HEADER DELIMITER ';'" false
    (sample_request "SELECT 1 AS x_a" sql_valid)
  = (inl ValueError,
     emit (Execute EnvCr "SHOW server_version;")
       (sample_request "SELECT 1 AS x_a" sql_valid)).
Proof.
  assert (state (self (sample_request "SELECT 1 AS x_a" sql_valid)) <> draft)
    as Hstate by done.
  split.
  - assert (minor_version (server_env "9.2.24")
            = Some (PyFloat.of_decimal false 92 (-1))) as Hversion
      by (vm_compute; reflexivity).
    exact (proj1 (proj2 (view_modes_stop_before_create (server_env "9.2.24")
                           None true (Some "x_bi_sql_view_sales")
                           "CSV HEADER DELIMITER ';'" false
                           (sample_request "SELECT 1 AS x_a" sql_valid)
                           Hstate eq_refl))
             (PyFloat.of_decimal false 92 (-1)) Hversion eq_refl).
  - exact (proj1 (view_modes_stop_before_create
                    (server_env "16.2 (Debian 16.2-1.pgdg120+2)")
                    None true (Some "x_bi_sql_view_sales")
                    "CSV HEADER DELIMITER ';'" false
                    (sample_request "SELECT 1 AS x_a" sql_valid)
                    Hstate eq_refl) eq_refl).
Defined.

End ExecuteModes.

(** ** The mixin: the probe, the validation and the preview *)

Module Validation.

Import PyStrFacts SqlRequestMixin MixinSamples ExecuteModes.

(** The mixin's [_check_execution] with its own two overloadable methods. *)
Definition own_check_execution (env : Env) : M World bool :=
  _check_execution env _prepare_request_check_execution _hook_executed_request.

Definition invalid_query_message (e : string) : string :=
  "The SQL query is not valid:" +:+ PyStr.newline +:+ PyStr.newline
  +:+ " " +:+ e.

Ltac unfold_check :=
  unfold own_check_execution, _check_execution,
    _prepare_request_check_execution, _hook_executed_request,
    _get_cr_for_query, _create_savepoint, _rollback_savepoint,
    try_finally, except_ProgrammingError, execute, bind, gets, modify,
    raise, ret, emit.

(** What the probe makes of the answer of the database to the query:
    [except ProgrammingError] turns an error of that class into the user
    error that carries its text, and lets an error of another class
    through. *)
Definition probe_outcome (answer : option db_failure) : exn + bool :=
  match answer with
  | Some (Programming msg) => inl (UserError (invalid_query_message msg))
  | Some (Other cls msg) => inl (PsycopgError cls msg)
  | None => inr false
  end.

(** X4. The probe of the mixin runs the stored query between a savepoint
    and the rollback to it, on the cursor the record asks for; the
    rollback is sent whether the query is accepted or not, and an external
    cursor is closed after it.  A [ProgrammingError] of the database on
    the query comes out as the user error that carries its text; an error
    of another class ([DataError] and the like) comes out as it is;
    otherwise the result is [False].  The record is not written. *)
Theorem check_execution_wraps_and_rolls_back (env : Env) (w : World) :
  db_error env ("SAVEPOINT " +:+ savepoint_name env) = None ->
  db_error env ("ROLLBACK TO SAVEPOINT " +:+ savepoint_name env) = None ->
  own_check_execution env w
  = (probe_outcome (db_error env (query (self w))),
     {| self := self w;
        trace :=
          trace w
          ++ [ Execute (chosen_cr w) ("SAVEPOINT " +:+ savepoint_name env);
               Execute (chosen_cr w) (query (self w));
               Execute (chosen_cr w)
                 ("ROLLBACK TO SAVEPOINT " +:+ savepoint_name env) ]
          ++ closing (chosen_cr w) |}).
Proof.
  intros Hsp Hrb. unfold savepoint_name in *.
  unfold_check. unfold chosen_cr, closing, probe_outcome,
    invalid_query_message. simpl.
  destruct (use_external_database (self w)); simpl;
    rewrite Hsp; simpl;
    destruct (db_error env (query (self w))) as [[msg | cls msg] |]; simpl;
    rewrite Hrb; simpl; rewrite <- ?app_assoc; reflexivity.
Qed.

(** A database that cannot compute the query [SELECT 1/0 AS x_a]. *)
Definition dividing_env : Env :=
  {| _name := _name sample_env; uuid_hex := uuid_hex sample_env;
     mogrify := mogrify sample_env;
     db_error := fun req =>
       if String.eqb req "SELECT 1/0 AS x_a"
       then Some (Other DataError "division by zero") else None;
     server_version := server_version sample_env;
     fetchall := []; fetchone := None; description := None;
     env_cr_description := None; copy_output_b64 := "" |}.

Lemma check_execution_wraps_and_rolls_back_witness :
  own_check_execution sample_env (sample_request "SELECT 1 AS x_a" draft)
  = (inr false,
     {| self := self (sample_request "SELECT 1 AS x_a" draft);
        trace :=
          [ Execute EnvCr ("SAVEPOINT " +:+ savepoint_name sample_env);
            Execute EnvCr "SELECT 1 AS x_a";
            Execute EnvCr
              ("ROLLBACK TO SAVEPOINT " +:+ savepoint_name sample_env) ] |})
  /\
  own_check_execution dividing_env (sample_request "SELECT 1/0 AS x_a" draft)
  = (inl (PsycopgError DataError "division by zero"),
     {| self := self (sample_request "SELECT 1/0 AS x_a" draft);
        trace :=
          [ Execute EnvCr ("SAVEPOINT " +:+ savepoint_name dividing_env);
            Execute EnvCr "SELECT 1/0 AS x_a";
            Execute EnvCr
              ("ROLLBACK TO SAVEPOINT " +:+ savepoint_name dividing_env) ] |}).
Proof.
  split.
  - exact (check_execution_wraps_and_rolls_back sample_env
             (sample_request "SELECT 1 AS x_a" draft) eq_refl eq_refl).
  - exact (check_execution_wraps_and_rolls_back dividing_env
             (sample_request "SELECT 1/0 AS x_a" draft) eq_refl eq_refl).
Defined.

(** X5. The two statements of the savepoint are sent outside the
    [except] clause: when the database refuses one of them its error
    comes out as it is, whatever its class.  A refused [SAVEPOINT] ends
    the probe before the query is sent.  A refused [ROLLBACK] replaces
    whatever the query gave, and the external cursor is then left
    open. *)
Theorem check_execution_savepoint_refused (env : Env) (w : World)
    (f : db_failure) :
  (db_error env ("SAVEPOINT " +:+ savepoint_name env) = Some f ->
   own_check_execution env w
   = (inl (thrown f),
      emit (Execute (chosen_cr w) ("SAVEPOINT " +:+ savepoint_name env)) w)) /\
  (db_error env ("SAVEPOINT " +:+ savepoint_name env) = None ->
   db_error env ("ROLLBACK TO SAVEPOINT " +:+ savepoint_name env) = Some f ->
   own_check_execution env w
   = (inl (thrown f),
      {| self := self w;
         trace :=
           trace w
           ++ [ Execute (chosen_cr w) ("SAVEPOINT " +:+ savepoint_name env);
                Execute (chosen_cr w) (query (self w));
                Execute (chosen_cr w)
                  ("ROLLBACK TO SAVEPOINT " +:+ savepoint_name env) ] |})).
Proof.
  unfold savepoint_name. split.
  - intros Hsp. unfold_check. unfold chosen_cr. simpl.
    destruct (use_external_database (self w)); simpl; rewrite Hsp; reflexivity.
  - intros Hsp Hrb. unfold_check. unfold chosen_cr. simpl.
    destruct (use_external_database (self w)); simpl;
      rewrite Hsp; simpl;
      destruct (db_error env (query (self w))) as [[msg | cls msg] |]; simpl;
      rewrite Hrb; simpl; rewrite <- ?app_assoc; reflexivity.
Qed.

(** A database that refuses every [ROLLBACK]. *)
Definition no_rollback_env : Env :=
  {| _name := _name sample_env; uuid_hex := uuid_hex sample_env;
     mogrify := mogrify sample_env;
     db_error := fun req =>
       if String.prefix "ROLLBACK" req
       then Some (Programming "no such savepoint") else None;
     server_version := server_version sample_env;
     fetchall := []; fetchone := None; description := None;
     env_cr_description := None; copy_output_b64 := "" |}.

Lemma check_execution_savepoint_refused_witness :
  own_check_execution no_rollback_env (sample_request "SELECT 1 AS x_a" draft)
  = (inl (ProgrammingError "no such savepoint"),
     {| self := self (sample_request "SELECT 1 AS x_a" draft);
        trace :=
          [ Execute EnvCr ("SAVEPOINT " +:+ savepoint_name no_rollback_env);
            Execute EnvCr "SELECT 1 AS x_a";
            Execute EnvCr
              ("ROLLBACK TO SAVEPOINT " +:+ savepoint_name no_rollback_env) ] |}).
Proof.
  exact (proj2 (check_execution_savepoint_refused no_rollback_env
                  (sample_request "SELECT 1 AS x_a" draft)
                  (Programming "no such savepoint"))
           eq_refl eq_refl).
Defined.

(** Whatever the database answers, the probe writes nothing on the record
    and only adds to the trace; it returns only if the query was
    accepted. *)
Lemma own_check_execution_frame (env : Env) (w : World) :
  exists r tr,
    own_check_execution env w
    = (r, {| self := self w; trace := trace w ++ tr |}) /\
    (forall b, r = inr b -> db_error env (query (self w)) = None).
Proof.
  unfold_check. simpl.
  destruct (use_external_database (self w)); simpl;
    (destruct (db_error env ("SAVEPOINT " +:+ _)); simpl;
     [ eexists _, [_]; split; [reflexivity | done] |]);
    destruct (db_error env (query (self w))) as [[msg | cls msg] |]; simpl;
    (destruct (db_error env ("ROLLBACK TO SAVEPOINT " +:+ _)); simpl);
    rewrite <- ?app_assoc; simpl;
    eexists _, _; (split; [reflexivity | done]).
Qed.

(** The validation, step by step. *)
Lemma validate_eq (env : Env) (w : World) :
  validate env w
  = match strip_semicolons (PyStr.strip (query (self w))) with
    | inl e => (inl e, w)
    | inr q' =>
        match check_words PROHIBITED_WORDS (PyStr.lower q')
                (on_self (set_query q') w) with
        | (inl e, w2) => (inl e, w2)
        | (inr _, w2) =>
            match own_check_execution env w2 with
            | (inl e, w3) => (inl e, w3)
            | (inr _, w3) => (inr tt, on_self (set_state sql_valid) w3)
            end
        end
    end.
Proof.
  unfold validate, button_validate_sql_expression, when,
    _clean_query_enabled, _check_prohibited_words_enabled,
    _check_execution_enabled.
  fold (own_check_execution env).
  unfold _clean_query, _check_prohibited_words, bind, gets, modify, ret.
  destruct (strip_semicolons (PyStr.strip (query (self w)))) as [e | q'];
    [reflexivity |].
  cbn [self query on_self set_query].
  destruct (check_words PROHIBITED_WORDS (PyStr.lower q') _) as [[e | []] w2];
    [reflexivity |].
  destruct (own_check_execution env w2) as [[e | b] w3]; reflexivity.
Qed.

(** What [_clean_query] leaves of the query [q]. *)
Definition cleaned (q q' : string) : Prop :=
  (exists t, PyStr.strip q = q' +:+ t /\ only_semicolons t = true) /\
  (exists c, PyStr.last q' = Some c /\ c <> ";"%char).

(** X6. The validation of the mixin, whatever the database answers.  It
    never writes the name, the choice of the database or the flag of the
    groups, and it only adds to the trace.  When it raises, the state is
    the one it found.  When it returns, the state is [sql_valid] and the
    stored query is the one it found without the whitespace around it and
    without its final [;], contains none of the prohibited words as a
    whole word, and was accepted by the database. *)
Theorem validate_outcome (env : Env) (w : World) :
  let r := (validate env w).1 in
  let w' := (validate env w).2 in
  name (self w') = name (self w) /\
  use_external_database (self w') = use_external_database (self w) /\
  has_group_changed (self w') = has_group_changed (self w) /\
  (exists tr, trace w' = trace w ++ tr) /\
  match r with
  | inl _ => state (self w') = state (self w)
  | inr _ =>
      state (self w') = sql_valid /\
      cleaned (query (self w)) (query (self w')) /\
      (forall word, word ∈ PROHIBITED_WORDS ->
         ~ ProhibitedWords.whole_word_in word (query (self w'))) /\
      db_error env (query (self w')) = None
  end.
Proof.
  rewrite validate_eq.
  pose proof (CleanQuery.strip_semicolons_spec (PyStr.strip (query (self w))))
    as Hclean.
  destruct (strip_semicolons (PyStr.strip (query (self w)))) as [e | q'].
  { simpl. do 3 (split; [done |]). split; [| done].
    exists []. by rewrite app_nil_r. }
  destruct Hclean as (_ & Ht & Hc).
  destruct (ProhibitedWords.check_words_spec PROHIBITED_WORDS q'
              (on_self (set_query q') w)
              ProhibitedWords.prohibited_words_word_like)
    as [[Hnone Hret] | (word & _ & _ & Hraise)].
  2: { rewrite Hraise. simpl. do 3 (split; [done |]). split; [| done].
       exists []. by rewrite app_nil_r. }
  rewrite Hret.
  destruct (own_check_execution_frame env (on_self (set_query q') w))
    as (r & tr' & Hrun & Hacc).
  rewrite Hrun.
  destruct r as [e | b]; simpl.
  - do 3 (split; [done |]). split; [by exists tr' | done].
  - do 3 (split; [done |]). split; [by exists tr' |].
    split; [done |]. split; [done |]. split; [done |]. by apply (Hacc b).
Qed.

(** X7. A prohibited word stops the validation before the database is
    asked anything: when one of the words stands as a whole word in the
    cleaned query, the validation raises the user error of a word that
    stands there and has sent no statement. *)
Theorem validate_refuses_before_execution (env : Env) (w : World)
    (q' word : string) :
  strip_semicolons (PyStr.strip (query (self w))) = inr q' ->
  word ∈ PROHIBITED_WORDS ->
  ProhibitedWords.whole_word_in word q' ->
  exists word',
    word' ∈ PROHIBITED_WORDS /\
    ProhibitedWords.whole_word_in word' q' /\
    validate env w
    = (inl (UserError (unsafe_word_message word')), on_self (set_query q') w).
Proof.
  intros Hclean Hword Hocc.
  destruct (ProhibitedWords.check_words_spec PROHIBITED_WORDS q'
              (on_self (set_query q') w)
              ProhibitedWords.prohibited_words_word_like)
    as [[Hnone _] | (word' & Hin & Hocc' & Hraise)].
  { by destruct (Hnone word Hword). }
  exists word'. split; [done |]. split; [done |].
  rewrite validate_eq, Hclean. by rewrite Hraise.
Qed.

Lemma validate_refuses_before_execution_witness :
  exists word',
    word' ∈ PROHIBITED_WORDS /\
    ProhibitedWords.whole_word_in word' "SELECT 1; DROP TABLE foo" /\
    validate sample_env (sample_request " SELECT 1; DROP TABLE foo; " draft)
    = (inl (UserError (unsafe_word_message word')),
       on_self (set_query "SELECT 1; DROP TABLE foo")
         (sample_request " SELECT 1; DROP TABLE foo; " draft)).
Proof.
  apply (validate_refuses_before_execution sample_env
           (sample_request " SELECT 1; DROP TABLE foo; " draft)
           "SELECT 1; DROP TABLE foo" "drop").
  - reflexivity.
  - apply (bool_decide_unpack _). vm_compute. exact I.
  - exists "SELECT 1; ", "DROP", " TABLE foo". repeat split; reflexivity.
Defined.

(** *** The preview *)






End Validation.

(** ** [bi.sql.view]: the first validation of a view *)

Module FreshFields.

Import BiSqlViewField BiSqlView Samples FieldSync.

(** The rows a run creates for [columns] when the view has no field of
    their names: one for each column with the prefix, in the order of the
    manifest, with the identifiers of the sequence from [next] on. *)
Fixpoint fresh_fields (v next : nat) (columns : list column) : list ViewField :=
  match columns with
  | [] => []
  | c :: columns' =>
      if prefixed (attname c) then
        BiSqlViewField.new next v (attnum c) (attname c) (atttype c)
        :: fresh_fields v (S next) columns'
      else fresh_fields v next columns'
  end.

Definition add_fields (fs : list ViewField) (w : World) : World :=
  {| self := self w; field_table := field_table w ++ fs;
     next_field_id := next_field_id w + length fs;
     orm := orm w; trace := trace w |}.

Lemma fresh_fields_view (v next : nat) (columns : list column) (f : ViewField) :
  f ∈ fresh_fields v next columns -> bi_sql_view_id f = v.
Proof.
  revert next. induction columns as [|c columns IH]; intros next; simpl.
  - by intros ?%elem_of_nil.
  - destruct (prefixed (attname c)); [| by apply IH].
    intros [-> | Hf]%elem_of_cons; [done | by eapply IH].
Qed.

Lemma fresh_fields_names (v next : nat) (columns : list column) :
  name <$> fresh_fields v next columns
  = filter (fun x => prefixed x = true) (attname <$> columns).
Proof.
  revert next. induction columns as [|c columns IH]; intros next; [done |].
  rewrite fmap_cons. cbn [fresh_fields].
  destruct (prefixed (attname c)) eqn:Hp.
  - rewrite filter_cons_True by done. rewrite fmap_cons. f_equal. apply IH.
  - rewrite filter_cons_False by congruence. apply IH.
Qed.

Lemma fresh_fields_ids (v next : nat) (columns : list column) :
  BiSqlViewField.id <$> fresh_fields v next columns
  = seq next (length (fresh_fields v next columns)).
Proof.
  revert next. induction columns as [|c columns IH]; intros next; [done |].
  cbn [fresh_fields]. destruct (prefixed (attname c)); [| by apply IH].
  rewrite fmap_cons. cbn [length seq]. f_equal. apply IH.
Qed.

Lemma fields_add_fields (next : nat) (columns : list column) (w : World) :
  bi_sql_view_field_ids
    (add_fields (fresh_fields (id (self w)) next columns) w)
  = bi_sql_view_field_ids w ++ fresh_fields (id (self w)) next columns.
Proof.
  unfold bi_sql_view_field_ids. simpl. rewrite filter_app. f_equal.
  apply filter_all. intros f Hf. by apply fresh_fields_view in Hf.
Qed.

(** The loop on a manifest none of whose names is the name of a field. *)
Lemma sync_columns_fresh (columns : list column) (field_ids : list nat)
    (w : World) :
  NoDup (attname <$> columns) ->
  (forall c, c ∈ columns -> named w (attname c) = []) ->
  sync_columns columns field_ids w
  = (inr (field_ids
          ++ (BiSqlViewField.id
                <$> fresh_fields (id (self w)) (next_field_id w) columns)),
     add_fields (fresh_fields (id (self w)) (next_field_id w) columns) w).
Proof.
  revert field_ids w.
  induction columns as [|c columns IH]; intros field_ids w Hnames Hnone.
  - simpl. unfold ret, add_fields. rewrite !app_nil_r. simpl.
    rewrite Nat.add_0_r. by destruct w.
  - rewrite fmap_cons in Hnames. apply NoDup_cons in Hnames as [Hc Hnames].
    cbn [sync_columns fresh_fields]. unfold bind. rewrite sync_column_spec.
    rewrite (Hnone c) by (by left).
    destruct (prefixed (attname c)).
    + rewrite IH.
      * cbn [add_field self next_field_id]. rewrite fmap_cons, <- app_assoc.
        f_equal. unfold add_fields, add_field. cbn. rewrite <- app_assoc.
        f_equal. lia.
      * exact Hnames.
      * intros c' Hc'. rewrite named_add_field_other; [| done |].
        -- apply Hnone. by right.
        -- simpl. intros Heq. apply Hc. rewrite Heq.
           by apply list_elem_of_fmap_2.
    + apply IH; [exact Hnames |]. intros c' Hc'. apply Hnone. by right.
Qed.

(** X9. The first validation of a view.  When the view has no field yet,
    the database accepts the probe and the names of the manifest are
    distinct, [_check_execution] adds to the table exactly one row for
    each column whose name starts with [x_], in the order of the
    manifest, of that name, with identifiers that follow one another from
    the next of the sequence; it deletes nothing, and it returns the
    manifest unless no column has the prefix, in which case it raises the
    error 'No Column was found' and has added nothing. *)
Theorem check_execution_first_run (env : Env) (w : World) :
  probe_accepted env (self w) ->
  bi_sql_view_field_ids w = [] ->
  NoDup (attname <$> pg_attribute env) ->
  let fs := fresh_fields (id (self w)) (next_field_id w) (pg_attribute env) in
  _check_execution env w
  = (match fs with
     | [] => inl (UserError no_column_message)
     | _ :: _ => inr (pg_attribute env)
     end,
     with_trace (trace w ++ probe_events env (self w)) (add_fields fs w)) /\
  name <$> fs
  = filter (fun x => prefixed x = true) (attname <$> pg_attribute env) /\
  BiSqlViewField.id <$> fs = seq (next_field_id w) (length fs).
Proof.
  intros Hprobe Hempty Hnames fs.
  split; [| split; [apply fresh_fields_names | apply fresh_fields_ids]].
  unfold _check_execution. unfold bind at 1.
  rewrite super_check_execution_accepted by done.
  set (w0 := with_trace _ w).
  assert (bi_sql_view_field_ids w0 = []) as Hempty0 by done.
  unfold reconcile. unfold bind at 1.
  rewrite sync_columns_fresh; [| done |].
  2: { intros c _. unfold named. by rewrite Hempty0. }
  change (fresh_fields (id (self w0)) (next_field_id w0) (pg_attribute env))
    with fs.
  unfold bind at 1. rewrite unlink_obsolete_eq, unlinked_all.
  - unfold bind, gets.
    unfold fs at 1.
    change (id (self w)) with (id (self w0)).
    rewrite fields_add_fields, Hempty0. simpl.
    by destruct (fresh_fields _ _ _).
  - intros f. unfold fs.
    change (id (self w)) with (id (self w0)).
    rewrite fields_add_fields, Hempty0. simpl.
    intros Hf. by apply list_elem_of_fmap_2.
Qed.

Lemma check_execution_first_run_witness :
  _check_execution (sample_env sample_manifest)
    (sample_world "SELECT a AS x_a, b, c AS x_c FROM t" draft false [] 1)
  = (inr sample_manifest,
     with_trace
       (probe_events (sample_env sample_manifest)
          (self (sample_world "SELECT a AS x_a, b, c AS x_c FROM t" draft
                   false [] 1)))
       (add_fields
          [ BiSqlViewField.new 1 7 1 "x_a" "integer";
            BiSqlViewField.new 2 7 3 "x_c" "numeric" ]
          (sample_world "SELECT a AS x_a, b, c AS x_c FROM t" draft
             false [] 1))).
Proof.
  assert (NoDup (attname <$> pg_attribute (sample_env sample_manifest)))
    as Hnames by (apply (bool_decide_unpack _); vm_compute; exact I).
  assert (probe_accepted (sample_env sample_manifest)
            (self (sample_world "SELECT a AS x_a, b, c AS x_c FROM t" draft
                     false [] 1))) as Hprobe by (by repeat split).
  exact (proj1 (check_execution_first_run (sample_env sample_manifest)
                  (sample_world "SELECT a AS x_a, b, c AS x_c FROM t" draft
                     false [] 1) Hprobe eq_refl Hnames)).
Defined.

End FreshFields.

(** ** [bi.sql.view]: what a validation leaves alone *)

Module FieldIdentity.

Import BiSqlViewField BiSqlView Samples FieldSync.

(** The rows of the views other than [self]. *)
Definition others (w : World) : list ViewField :=
  filter (fun f => bi_sql_view_id f <> id (self w)) (field_table w).

(** [f'] is a field that [w0] had: same record, same name, and the two
    columns a user sets on it are as they were. *)
Definition kept (w0 : World) (f' : ViewField) : Prop :=
  exists f, f ∈ bi_sql_view_field_ids w0 /\
    BiSqlViewField.id f' = BiSqlViewField.id f /\ name f' = name f /\
    is_index f' = is_index f /\ graph_type f' = graph_type f.

(** [f'] was created since [w0], with the defaults. *)
Definition created (w0 : World) (f' : ViewField) : Prop :=
  next_field_id w0 <= BiSqlViewField.id f' /\ prefixed (name f') = true /\
  is_index f' = false /\ graph_type f' = None.

Record evolved (w0 w : World) : Prop := {
  evolved_self : self w = self w0;
  evolved_orm : orm w = orm w0;
  evolved_next : next_field_id w0 <= next_field_id w;
  evolved_others : others w = others w0;
  evolved_fields :
    forall f', f' ∈ bi_sql_view_field_ids w -> kept w0 f' \/ created w0 f'
}.

Lemma touch1_graph_type i s t f : graph_type (touch1 i s t f) = graph_type f.
Proof. unfold touch1. by destruct (decide _). Qed.

Lemma evolved_refl (w : World) : evolved w w.
Proof.
  split; try done. intros f Hf. left. by exists f.
Qed.

Lemma evolved_with_trace (w0 w : World) (t : list SqlRequestMixin.event) :
  evolved w0 w -> evolved w0 (with_trace t w).
Proof. intros [? ? ? ? ?]. by split. Qed.

(** A write on a field of [self] leaves the rows of the other views: the
    identifier is the one of that field only. *)
Lemma evolved_touch (w0 w : World) (f : ViewField) (s : Z) (t : string) :
  wf w -> f ∈ bi_sql_view_field_ids w ->
  evolved w0 w -> evolved w0 (touch (BiSqlViewField.id f) s t w).
Proof.
  intros Hwf Hf [Hself Horm Hnext Hothers Hfields].
  apply fields_in_table in Hf as [Hf Hmine].
  split; try done.
  - rewrite <- Hothers. unfold others, touch. simpl.
    rewrite filter_fmap_stable by (intros g; by rewrite touch1_view).
    rewrite <- (list_fmap_id (filter _ (field_table w))) at 2.
    apply list_fmap_ext. intros _ g Hg%list_elem_of_lookup_2.
    apply list_elem_of_filter in Hg as [Hother Hg].
    unfold touch1. destruct (decide _) as [Hid | Hid]; [| done].
    destruct Hother. by rewrite (wf_unique w g f Hwf Hg Hf Hid).
  - intros f'. rewrite fields_touch.
    intros (g & -> & Hg)%list_elem_of_fmap.
    destruct (Hfields g Hg) as [(g0 & Hg0 & Hid & Hname & Hidx & Hgt)
                               | (Hid & Hname & Hidx & Hgt)].
    + left. exists g0.
      by rewrite touch1_id, touch1_name, touch1_is_index, touch1_graph_type.
    + right. unfold created.
      by rewrite touch1_id, touch1_name, touch1_is_index, touch1_graph_type.
Qed.

Lemma evolved_add_field (w0 w : World) (s : Z) (n t : string) :
  prefixed n = true ->
  evolved w0 w ->
  evolved w0 (add_field (BiSqlViewField.new (next_field_id w) (id (self w)) s n t) w).
Proof.
  intros Hprefix [Hself Horm Hnext Hothers Hfields].
  split; try done.
  - simpl. lia.
  - rewrite <- Hothers. unfold others. simpl.
    rewrite filter_app, filter_cons_False, filter_nil, app_nil_r; [done |].
    simpl. by intros [].
  - intros f'. rewrite fields_add_field by done.
    intros [Hf' | ->%list_elem_of_singleton]%elem_of_app; [by apply Hfields |].
    right. by split.
Qed.

Lemma evolved_unlinked (w0 w : World) (field_ids : list nat) :
  evolved w0 w -> evolved w0 (unlinked field_ids w).
Proof.
  intros [Hself Horm Hnext Hothers Hfields]. split; try done.
  - rewrite <- Hothers. unfold others, unlinked. simpl.
    rewrite list_filter_filter. apply list_filter_iff. intros f.
    split; [tauto |]. intros Hother. split; [done |]. by intros [? _].
  - intros f'. rewrite fields_unlinked.
    intros [_ Hf']%list_elem_of_filter. by apply Hfields.
Qed.

Lemma sync_column_evolved (w0 : World) (c : column) (field_ids : list nat)
    (w : World) :
  wf w -> evolved w0 w ->
  wf (sync_column c field_ids w).2 /\ evolved w0 (sync_column c field_ids w).2.
Proof.
  intros Hwf Hev. rewrite sync_column_spec.
  destruct (named w (attname c)) as [|f [|g l]] eqn:Hnamed; [| | done].
  - destruct (prefixed (attname c)) eqn:Hp; [| done]. split.
    + by apply wf_add_field.
    + by apply evolved_add_field.
  - split; [by apply wf_touch |]. apply evolved_touch; [done | | done].
    by apply (named_singleton_name w (attname c)).
Qed.

Lemma sync_columns_evolved (w0 : World) (columns : list column)
    (field_ids : list nat) (w : World) :
  wf w -> evolved w0 w ->
  wf (sync_columns columns field_ids w).2
  /\ evolved w0 (sync_columns columns field_ids w).2.
Proof.
  revert field_ids w.
  induction columns as [|c columns IH]; intros field_ids w Hwf Hev; [done |].
  cbn [sync_columns]. unfold bind.
  destruct (sync_column_evolved w0 c field_ids w Hwf Hev) as [Hwf1 Hev1].
  destruct (sync_column c field_ids w) as [[e | ids1] w1]; [done |].
  by apply IH.
Qed.

(** Whatever the database answers, the probe changes the trace only. *)
Lemma super_check_execution_frame (env : Env) (w : World) :
  exists r t, super_check_execution env w = (r, with_trace t w).
Proof.
  destruct w as [v table next o tr].
  destruct v as [i [nm q st ext hgc] tn mat sz cron rule model tv gv pv sv act menu].
  unfold_probe. unfold with_trace. simpl.
  destruct ext; simpl;
    repeat match goal with
           | |- context [SqlRequestMixin.db_error ?e ?s] =>
               destruct (SqlRequestMixin.db_error e s) as [[? | ? ?] |]; simpl
           end; by eexists _, _.
Qed.

(** The part after the probe, on both exits. *)
Lemma reconcile_evolved (w0 : World) (columns : list column) (w : World) :
  wf w -> evolved w0 w -> evolved w0 (reconcile columns w).2.
Proof.
  intros Hwf Hev. unfold reconcile. unfold bind at 1.
  destruct (sync_columns_evolved w0 columns [] w Hwf Hev) as [Hwf1 Hev1].
  destruct (sync_columns columns [] w) as [[e | field_ids] w1]; [done |].
  unfold bind at 1. rewrite unlink_obsolete_eq. unfold bind, gets.
  simpl in Hev1.
  destruct (bi_sql_view_field_ids (unlinked field_ids w1));
    by apply evolved_unlinked.
Qed.

(** X10. What [_check_execution] leaves alone, whatever the database
    answers and whether it returns or raises, on a table with unique
    identifiers.  It does not write the view nor the other tables; the
    rows of the other views are as they were; and each field the view has
    afterwards is either one it had, the same record under the same name
    with its [is_index] and [graph_type] as they were, or a record
    created by this run: a new identifier, a name with the prefix, no
    index and no graph type. *)
Theorem check_execution_keeps_identity (env : Env) (w : World) :
  wf w -> evolved w (_check_execution env w).2.
Proof.
  intros Hwf. unfold _check_execution. unfold bind at 1.
  destruct (super_check_execution_frame env w) as (r & t & ->).
  destruct r as [e | columns]; [by apply evolved_with_trace, evolved_refl |].
  apply reconcile_evolved; [done |]. by apply evolved_with_trace, evolved_refl.
Qed.

Lemma check_execution_keeps_identity_witness :
  evolved sample_before
    (_check_execution (sample_env sample_manifest) sample_before).2.
Proof.
  apply (check_execution_keeps_identity (sample_env sample_manifest)
           sample_before).
  split.
  - apply (bool_decide_unpack _). vm_compute. exact I.
  - repeat constructor; simpl; lia.
Defined.

End FieldIdentity.

(** ** [bi.sql.view]: which columns yield a field *)

Module NewField.

Import BiSqlViewField BiSqlView Samples FieldSync.





End NewField.

(** ** [bi.sql.view]: the way back to [draft], and the deletion *)

Module Lifecycle.

Import BiSqlViewField BiSqlView Samples ResetToSqlValid.

Definition unlink_error_message : string :=
  "You can only unlink draft views. "
  +:+ "If you want to delete them, first set them to draft.".

(** [_check_unlink_constraints], run by [unlink] on the record. *)
Definition _check_unlink_constraints : M World unit :=
  do view <- gets self;;
  if bool_decide (state view ∉ [draft; sql_valid]) then
    raise (UserError unlink_error_message)
  else ret tt.

(** The view has its model and its SQL view: the states in which
    [button_reset_to_sql_valid] has something to undo. *)
Definition built (v : SqlView) : bool :=
  bool_decide (state v ∈ [model_valid; ui_valid]).

Lemma unlink_from_out (ids : option nat) (table : gset nat) (j : nat) :
  ids = Some j -> j ∉ unlink_from ids table.
Proof.
  intros ->. simpl. apply not_elem_of_difference. right.
  by apply elem_of_singleton.
Qed.

Lemma unlink_from_keeps_out (ids : option nat) (table : gset nat) (j : nat) :
  j ∉ table -> j ∉ unlink_from ids table.
Proof.
  intros Hout. destruct ids as [i|]; [| done]. simpl.
  apply not_elem_of_difference. by left.
Qed.

(** X11. [button_reset_to_model_valid] always returns and asks the
    database nothing; it never touches the fields.  On a view in state
    [ui_valid] it leaves the state [model_valid], the six references to
    the user interface empty and their targets out of their tables; on a
    view in any other state it does nothing.  Hence it never leaves a view
    in state [ui_valid], and a second call does nothing. *)
Theorem reset_to_model_valid_outcome (w : World) :
  exists w',
    button_reset_to_model_valid w = (inr tt, w') /\
    trace w' = trace w /\ field_table w' = field_table w /\
    next_field_id w' = next_field_id w /\
    state (self w') <> ui_valid /\
    (state (self w) <> ui_valid -> w' = w) /\
    (state (self w) = ui_valid ->
     state (self w') = model_valid /\
     self w' = set_state model_valid (clear_ui (self w)) /\
     (forall i,
        i ∈ [tree_view_id (self w); graph_view_id (self w);
             pivot_view_id (self w); search_view_id (self w)] ->
        forall j, i = Some j -> j ∉ ir_ui_view (orm w')) /\
     (forall j, action_id (self w) = Some j ->
        j ∉ ir_actions_act_window (orm w')) /\
     (forall j, menu_id (self w) = Some j -> j ∉ ir_ui_menu (orm w'))) /\
    button_reset_to_model_valid w' = (inr tt, w').
Proof.
  destruct w as [v table next o tr].
  destruct v as [i [nm q st ext hgc] tn mat sz cron rule model tv gv pv sv act menu].
  unfold button_reset_to_model_valid, bind, gets, modify, ret, state. simpl.
  destruct st; simpl; eexists; (split; [reflexivity |]); simpl;
    do 4 (split; [done |]); (split; [done |]); (split; [| done]);
    try done.
  intros _. split; [done |]. split; [done |].
  split; [| split].
  - intros r Hr j ->.
    repeat (apply elem_of_cons in Hr as [Hr | Hr];
            [ symmetry in Hr;
              repeat first [ by apply unlink_from_out
                           | apply unlink_from_keeps_out ] |]).
    by apply elem_of_nil in Hr.
  - intros j Hj. by apply unlink_from_out.
  - intros j Hj. by apply unlink_from_out.
Qed.

Ltac unfold_set_draft :=
  unfold button_set_draft, button_reset_to_sql_valid,
    button_reset_to_model_valid, _drop_model_and_fields, _drop_view,
    _log_execute, lift, SqlRequestMixin.button_set_draft,
    SqlRequestMixin.execute, _check_unlink_constraints, when, bind, gets,
    modify, ret, raise.

(** X12. [button_set_draft] opens the way to the deletion.  From any
    state, when the database accepts the [DROP] of the view, it returns
    with the view in state [draft] and the flag of the groups down; the
    query and the fields are as they were; the one statement it may have
    sent is the [DROP], for a materialized view that had its model.  On a
    view that had its model, the access rule and the model object are
    deleted from their tables and no longer referenced, and the refresh
    task is kept in its table, inactive.  [unlink], refused as long as the
    view has its model, is allowed afterwards, and a second call changes
    nothing. *)
Theorem set_draft_opens_deletion (env : Env) (w : World) :
  SqlRequestMixin.db_error (base env) (drop_request (self w)) = None ->
  exists w',
    button_set_draft env w = (inr tt, w') /\
    state (self w') = draft /\
    SqlRequestMixin.has_group_changed (request (self w')) = false /\
    query (self w') = query (self w) /\
    field_table w' = field_table w /\
    trace w' =
      trace w ++ (if built (self w) && is_materialized (self w)
                  then [Execute EnvCr (drop_request (self w))] else []) /\
    (built (self w) = true ->
     rule_id (self w') = None /\ model_id (self w') = None /\
     (forall r, rule_id (self w) = Some r -> r ∉ ir_rule (orm w')) /\
     (forall m, model_id (self w) = Some m -> m ∉ ir_model (orm w')) /\
     cron_id (self w') = cron_id (self w) /\
     dom (ir_cron (orm w')) = dom (ir_cron (orm w)) /\
     (forall c, cron_id (self w) = Some c ->
        ir_cron (orm w') !! c = (fun _ => false) <$> ir_cron (orm w) !! c) /\
     _check_unlink_constraints w = (inl (UserError unlink_error_message), w)) /\
    _check_unlink_constraints w' = (inr tt, w') /\
    button_set_draft env w' = (inr tt, w').
Proof.
  intros Hdb. destruct w as [v table next o tr].
  destruct v as [i [nm q st ext hgc] tn mat sz cron rule model tv gv pv sv act menu].
  unfold drop_request, materialized_text, view_name in Hdb. simpl in Hdb.
  unfold_set_draft. unfold state, query, built. simpl.
  destruct st, mat; simpl;
    unfold materialized_text, view_name; simpl; rewrite ?Hdb; simpl;
    destruct cron as [c|], rule as [r|], model as [m|]; simpl;
    eexists; (split; [reflexivity |]); simpl;
    rewrite ?app_nil_r;
    do 5 (split; [done |]); (split; [| done]);
    try (intros Hbuilt; discriminate Hbuilt);
    intros _;
    repeat match goal with |- _ /\ _ => split end;
    first
      [ done
      | by rewrite dom_alter_L
      | by intros x Hx; injection Hx as <-; rewrite lookup_alter_eq
      | by intros x Hx; injection Hx as <-;
           apply not_elem_of_difference; right; apply elem_of_singleton ].
Qed.

Lemma set_draft_opens_deletion_witness :
  exists w',
    button_set_draft (sample_env []) (sample_view true) = (inr tt, w') /\
    state (self w') = draft /\
    trace w' = [Execute EnvCr (drop_request (self (sample_view true)))] /\
    (4 ∉ ir_rule (orm w')) /\ (5 ∉ ir_model (orm w')) /\
    ir_cron (orm w') !! 3 = Some false /\
    _check_unlink_constraints (sample_view true)
    = (inl (UserError unlink_error_message), sample_view true) /\
    _check_unlink_constraints w' = (inr tt, w').
Proof.
  destruct (set_draft_opens_deletion (sample_env []) (sample_view true) eq_refl)
    as (w' & Hrun & Hstate & _ & _ & _ & Htrace & Hbuilt & Hunlink & _).
  destruct (Hbuilt eq_refl)
    as (_ & _ & Hrule & Hmodel & _ & _ & Hcron & Hrefused).
  exists w'. split; [exact Hrun |]. split; [exact Hstate |].
  split; [exact Htrace |].
  split; [exact (Hrule 4 eq_refl) |]. split; [exact (Hmodel 5 eq_refl) |].
  split; [exact (Hcron 3 eq_refl) |]. split; [exact Hrefused | exact Hunlink].
Defined.

(** X13. When the database refuses the [DROP] of a materialized view that
    has its model, [button_set_draft] raises the error of the database as
    it is, having sent that one statement; the view then is in state
    [model_valid] with its size, its access rule and its model, its
    refresh task untouched, and [unlink] is still refused. *)
Theorem set_draft_drop_refused (env : Env) (w : World)
    (f : SqlRequestMixin.db_failure) :
  built (self w) = true ->
  is_materialized (self w) = true ->
  SqlRequestMixin.db_error (base env) (drop_request (self w)) = Some f ->
  exists w',
    button_set_draft env w = (inl (SqlRequestMixin.thrown f), w') /\
    state (self w') = model_valid /\
    trace w' = trace w ++ [Execute EnvCr (drop_request (self w))] /\
    size (self w') = size (self w) /\
    rule_id (self w') = rule_id (self w) /\
    model_id (self w') = model_id (self w) /\
    ir_cron (orm w') = ir_cron (orm w) /\
    ir_rule (orm w') = ir_rule (orm w) /\
    ir_model (orm w') = ir_model (orm w) /\
    _check_unlink_constraints w' = (inl (UserError unlink_error_message), w').
Proof.
  intros Hbuilt Hmat Hdb. destruct w as [v table next o tr].
  destruct v as [i [nm q st ext hgc] tn mat sz cron rule model tv gv pv sv act menu].
  simpl in Hmat. subst mat.
  unfold drop_request, materialized_text, view_name in Hdb. simpl in Hdb.
  unfold_set_draft. unfold state, built in *. simpl in *.
  destruct st; try done; simpl;
    unfold materialized_text, view_name; simpl; rewrite Hdb; simpl;
    eexists; (split; [reflexivity |]); simpl; repeat split; done.
Qed.

(** A database that refuses every [DROP]. *)
Definition keeping_db : SqlRequestMixin.Env :=
  {| SqlRequestMixin._name := _name;
     SqlRequestMixin.uuid_hex := SqlRequestMixin.uuid_hex accepting_db;
     SqlRequestMixin.mogrify := fun q _ => q;
     SqlRequestMixin.db_error := fun req =>
       if String.prefix "DROP" req
       then Some (SqlRequestMixin.Programming "must be owner of the view")
       else None;
     SqlRequestMixin.server_version := "14.5";
     SqlRequestMixin.fetchall := [];
     SqlRequestMixin.fetchone := None;
     SqlRequestMixin.description := None;
     SqlRequestMixin.env_cr_description := None;
     SqlRequestMixin.copy_output_b64 := "" |}.

Lemma set_draft_drop_refused_witness :
  exists w',
    button_set_draft {| base := keeping_db; pg_attribute := [] |}
      (sample_view true)
    = (inl (ProgrammingError "must be owner of the view"), w') /\
    state (self w') = model_valid /\
    _check_unlink_constraints w' = (inl (UserError unlink_error_message), w').
Proof.
  destruct (set_draft_drop_refused {| base := keeping_db; pg_attribute := [] |}
              (sample_view true)
              (SqlRequestMixin.Programming "must be owner of the view")
              eq_refl eq_refl eq_refl)
    as (w' & Hrun & Hstate & _ & _ & _ & _ & _ & _ & _ & Hunlink).
  by exists w'.
Defined.

End Lifecycle.

(** ** [bi.sql.view]: the creation of the SQL view and of its indexes *)

Module ViewCreation.

Import BiSqlViewField BiSqlView Samples ResetToSqlValid FieldSync.

Section Methods.

Variable env : Env.

(** [sql_field.index_name], a computed column of [bi.sql.view.field]
    that [_create_index] reads. *)
Variable index_name : ViewField -> string.

(** The cell the request of the size fetches ([fetchone()[0]]): the text
    of [pg_size_pretty], [None] for a null. *)
Variable relation_size : option string.

Definition size_request (v : SqlView) : string :=
  "SELECT pg_size_pretty(pg_total_relation_size('"
  +:+ Identifier (view_name v) +:+ "'));".

Definition _refresh_size : M World unit :=
  do sql_view <- gets self;;
  _log_execute env (size_request sql_view);;;
  modify (on_self (set_size relation_size)).

Definition _prepare_request_for_execution (v : SqlView) : string :=
  let query :=
    PyStr.join PyStr.newline
      [ "";
        "            SELECT";
        "                CAST(row_number() OVER () as integer) AS id,";
        "                CAST(Null as timestamp without time zone) as create_date,";
        "                CAST(Null as integer) as create_uid,";
        "                CAST(Null as timestamp without time zone) as write_date,";
        "                CAST(Null as integer) as write_uid,";
        "                my_query.*";
        "            FROM";
        "                (" +:+ query v +:+ ") as my_query";
        "        " ] in
  "CREATE " +:+ materialized_text v +:+ " VIEW " +:+ Identifier (view_name v)
  +:+ " AS (" +:+ query +:+ ");".

Definition creation_error_message (v : SqlView) (e : string) : string :=
  "SQL Error while creating " +:+ materialized_text v +:+ " VIEW "
  +:+ view_name v +:+ " :" +:+ PyStr.newline +:+ " " +:+ e.

Definition _create_view : M World unit :=
  _drop_view env;;;
  do sql_view <- gets self;;
  except_ProgrammingError
    (_log_execute env (_prepare_request_for_execution sql_view);;;
     _refresh_size)
    (fun e => raise (UserError (creation_error_message sql_view e))).

Definition create_index_request (v : SqlView) (f : ViewField) : string :=
  "CREATE INDEX " +:+ index_name f +:+ " ON " +:+ Identifier (view_name v)
  +:+ " (" +:+ Identifier (name f) +:+ ");".

(** The loop [for sql_field in ...] of [_create_index]. *)
Fixpoint create_indexes (sql_view : SqlView) (sql_fields : list ViewField)
    : M World unit :=
  match sql_fields with
  | [] => ret tt
  | sql_field :: sql_fields' =>
      _log_execute env (create_index_request sql_view sql_field);;;
      create_indexes sql_view sql_fields'
  end.

Definition _create_index : M World unit :=
  do sql_view <- gets self;;
  do fs <- gets bi_sql_view_field_ids;;
  create_indexes sql_view (filter (fun x => is_index x = true) fs).

End Methods.

(** The fields of the view that are indexes. *)
Definition indexed (w : World) : list ViewField :=
  filter (fun x => is_index x = true) (bi_sql_view_field_ids w).

Definition accepted (env : Env) (req : string) : Prop :=
  SqlRequestMixin.db_error (base env) req = None.

Lemma log_execute_eq (env : Env) (req : string) (w : World) :
  _log_execute env req w
  = (match SqlRequestMixin.db_error (base env) req with
     | Some f => inl (SqlRequestMixin.thrown f)
     | None => inr tt
     end,
     with_trace (trace w ++ [Execute EnvCr req]) w).
Proof.
  destruct w as [v table next o tr].
  destruct v as [i [nm q st ext hgc] tn mat sz cron rule model tv gv pv sv act menu].
  unfold _log_execute, lift, SqlRequestMixin.execute, bind, modify, raise, ret,
    with_trace. simpl.
  by destruct (SqlRequestMixin.db_error (base env) req).
Qed.

Lemma create_indexes_accepted (env : Env) (index_name : ViewField -> string)
    (v : SqlView) (fs : list ViewField) (w : World) :
  Forall (fun f => accepted env (create_index_request index_name v f)) fs ->
  create_indexes env index_name v fs w
  = (inr tt,
     with_trace
       (trace w
        ++ ((fun f => Execute EnvCr (create_index_request index_name v f)) <$> fs))
       w).
Proof.
  revert w. induction fs as [|f fs IH]; intros w Hall.
  - simpl. unfold ret, with_trace. rewrite app_nil_r. by destruct w.
  - apply Forall_cons in Hall as [Hf Hall].
    cbn [create_indexes]. unfold bind. rewrite log_execute_eq, Hf.
    rewrite IH by done. unfold with_trace. simpl.
    by rewrite <- app_assoc.
Qed.

Lemma create_indexes_refused (env : Env) (index_name : ViewField -> string)
    (v : SqlView) (pre : list ViewField) (f : ViewField)
    (post : list ViewField) (e : SqlRequestMixin.db_failure) (w : World) :
  Forall (fun f => accepted env (create_index_request index_name v f)) pre ->
  SqlRequestMixin.db_error (base env) (create_index_request index_name v f)
  = Some e ->
  create_indexes env index_name v (pre ++ f :: post) w
  = (inl (SqlRequestMixin.thrown e),
     with_trace
       (trace w
        ++ ((fun f => Execute EnvCr (create_index_request index_name v f))
              <$> pre ++ [f]))
       w).
Proof.
  revert w. induction pre as [|g pre IH]; intros w Hall Hf.
  - simpl. unfold bind. by rewrite log_execute_eq, Hf.
  - apply Forall_cons in Hall as [Hg Hall].
    cbn [create_indexes app]. unfold bind. rewrite log_execute_eq, Hg.
    rewrite IH by done. unfold with_trace. simpl.
    by rewrite <- app_assoc.
Qed.

(** X14. [_create_index] asks the database for one index for each field
    of the view that is an index, in the order of the fields, and for
    nothing else; it writes nothing.  It returns when every statement is
    accepted; at the first one refused it stops with the error of the
    database as it is, the later indexes not asked for.  On a view that
    is not materialized and whose fields obey the constraint on indexes it
    sends nothing. *)
Theorem create_index_one_per_indexed_field (env : Env)
    (index_name : ViewField -> string) (w : World) :
  let request f := create_index_request index_name (self w) f in
  (Forall (fun f => accepted env (request f)) (indexed w) ->
   _create_index env index_name w
   = (inr tt,
      with_trace
        (trace w ++ ((fun f => Execute EnvCr (request f)) <$> indexed w)) w)) /\
  (forall pre f post e,
     indexed w = pre ++ f :: post ->
     Forall (fun f => accepted env (request f)) pre ->
     SqlRequestMixin.db_error (base env) (request f) = Some e ->
     _create_index env index_name w
     = (inl (SqlRequestMixin.thrown e),
        with_trace
          (trace w ++ ((fun f => Execute EnvCr (request f)) <$> pre ++ [f]))
          w)) /\
  (IndexInvariant.index_invariant w -> is_materialized (self w) = false ->
   _create_index env index_name w = (inr tt, w)).
Proof.
  intros request. unfold _create_index, bind, gets. fold (indexed w).
  split; [| split].
  - intros Hall. by apply create_indexes_accepted.
  - intros pre f post e -> Hall Hf. by apply create_indexes_refused.
  - intros Hinv Hplain.
    assert (indexed w = []) as ->.
    { unfold indexed.
      destruct (filter _ (bi_sql_view_field_ids w)) as [|f l] eqn:Hfilter;
        [done |].
      assert (f ∈ filter (fun x => is_index x = true) (bi_sql_view_field_ids w))
        as Hf by (rewrite Hfilter; by left).
      apply list_elem_of_filter in Hf as [Hidx Hf].
      rewrite (Hinv Hplain f Hf) in Hidx. done. }
    done.
Qed.

Lemma create_index_one_per_indexed_field_witness :
  _create_index (sample_env []) (fun f => "idx_" +:+ name f) sample_before
  = (inr tt,
     with_trace
       [ Execute EnvCr
           (create_index_request (fun f => "idx_" +:+ name f)
              (self sample_before)
              {| BiSqlViewField.id := 1; bi_sql_view_id := 7; name := "x_a";
                 sequence := 4; sql_type := "text"; is_index := true;
                 graph_type := Some measure |}) ]
       sample_before).
Proof.
  apply (proj1 (create_index_one_per_indexed_field (sample_env [])
                  (fun f => "idx_" +:+ name f) sample_before)).
  by repeat constructor.
Defined.

(** What [_create_view] makes of an error of the database inside its
    [try]: [except ProgrammingError] turns an error of that class into the
    user error that names the view, and lets an error of another class
    through. *)
Definition creation_failure (v : SqlView) (f : SqlRequestMixin.db_failure) : exn :=
  match f with
  | SqlRequestMixin.Programming msg => UserError (creation_error_message v msg)
  | SqlRequestMixin.Other cls msg => PsycopgError cls msg
  end.

(** The view with the size [sz] and the statements [sent] added. *)
Definition after_creation (sz : option string)
    (sent : list SqlRequestMixin.event) (w : World) : World :=
  {| self := set_size sz (self w); field_table := field_table w;
     next_field_id := next_field_id w; orm := orm w;
     trace := trace w ++ sent |}.

(** X15. [_create_view], once the database has accepted the [DROP] it
    starts with.  The [DROP] and the [CREATE] are sent in this order and
    then, if the [CREATE] was accepted, the request of the size; the
    fields and the other tables are not written.  A [ProgrammingError] of
    the database on the [CREATE] or on the request of the size comes out
    as the user error that names the view and carries its text, and the
    view is left without size; an error of another class comes out as it
    is.  When both statements are accepted the call returns and the view
    holds the size the database answered. *)
Theorem create_view_outcome (env : Env) (relation_size : option string)
    (w : World) :
  accepted env (drop_request (self w)) ->
  let drop := Execute EnvCr (drop_request (self w)) in
  let create := _prepare_request_for_execution (self w) in
  let size := size_request (self w) in
  _create_view env relation_size w
  = match SqlRequestMixin.db_error (base env) create with
    | Some f =>
        (inl (creation_failure (self w) f),
         after_creation None [drop; Execute EnvCr create] w)
    | None =>
        match SqlRequestMixin.db_error (base env) size with
        | Some f =>
            (inl (creation_failure (self w) f),
             after_creation None
               [drop; Execute EnvCr create; Execute EnvCr size] w)
        | None =>
            (inr tt,
             after_creation relation_size
               [drop; Execute EnvCr create; Execute EnvCr size] w)
        end
    end.
Proof.
  intros Hdrop. destruct w as [v table next o tr].
  destruct v as [i [nm q st ext hgc] tn mat sz cron rule model tv gv pv sv act menu].
  unfold _create_view, _drop_view, _refresh_size, _log_execute,
    lift, SqlRequestMixin.execute, except_ProgrammingError, bind, gets,
    modify, raise, ret, accepted, drop_request, size_request,
    creation_failure, after_creation, creation_error_message,
    _prepare_request_for_execution, materialized_text, view_name, query in *.
  simpl in *. rewrite Hdrop. simpl.
  match goal with
  | |- context [SqlRequestMixin.db_error (base env) ?req] =>
      destruct (SqlRequestMixin.db_error (base env) req) as [[e1 | c1 e1] |]
  end; simpl;
    unfold of_mixin, to_mixin, on_self, SqlRequestMixin.emit; simpl;
    rewrite <- ?app_assoc; try reflexivity.
  match goal with
  | |- context [SqlRequestMixin.db_error (base env) ?req] =>
      destruct (SqlRequestMixin.db_error (base env) req) as [[e2 | c2 e2] |]
  end; simpl; rewrite <- ?app_assoc; reflexivity.
Qed.

(** A database that cannot compute the query of the view: the [CREATE] of
    a materialized view runs it. *)
Definition dividing_db : SqlRequestMixin.Env :=
  {| SqlRequestMixin._name := _name;
     SqlRequestMixin.uuid_hex := SqlRequestMixin.uuid_hex accepting_db;
     SqlRequestMixin.mogrify := fun q _ => q;
     SqlRequestMixin.db_error := fun req =>
       if String.prefix "CREATE MATERIALIZED" req
       then Some (SqlRequestMixin.Other DataError "division by zero")
       else None;
     SqlRequestMixin.server_version := "14.5";
     SqlRequestMixin.fetchall := [];
     SqlRequestMixin.fetchone := None;
     SqlRequestMixin.description := None;
     SqlRequestMixin.env_cr_description := None;
     SqlRequestMixin.copy_output_b64 := "" |}.

Lemma create_view_outcome_witness :
  _create_view (sample_env []) (Some "8192 bytes") (sample_view true)
  = (inr tt,
     after_creation (Some "8192 bytes")
       [ Execute EnvCr (drop_request (self (sample_view true)));
         Execute EnvCr (_prepare_request_for_execution (self (sample_view true)));
         Execute EnvCr (size_request (self (sample_view true))) ]
       (sample_view true))
  /\
  _create_view {| base := dividing_db; pg_attribute := [] |} (Some "8192 bytes")
    (sample_view true)
  = (inl (PsycopgError DataError "division by zero"),
     after_creation None
       [ Execute EnvCr (drop_request (self (sample_view true)));
         Execute EnvCr (_prepare_request_for_execution (self (sample_view true))) ]
       (sample_view true)).
Proof.
  split.
  - exact (create_view_outcome (sample_env []) (Some "8192 bytes")
             (sample_view true) eq_refl).
  - exact (create_view_outcome {| base := dividing_db; pg_attribute := [] |}
             (Some "8192 bytes") (sample_view true) eq_refl).
Defined.

End ViewCreation.

(** ** [bi.sql.view]: the constraint on [view_order] *)

Module ViewOrder.

Import BiSqlView.

#[local] Arguments String.append : simpl nomatch.

(** [s.split(sep)] for a separator of one character. *)
Fixpoint split (sep : ascii) (s : string) : list string :=
  match s with
  | EmptyString => [EmptyString]
  | String c s' =>
      if Ascii.eqb c sep then EmptyString :: split sep s'
      else
        match split sep s' with
        | x :: l => String c x :: l
        | [] => [String c EmptyString]
        end
  end.

Definition supported_views : list string := ["graph"; "pivot"; "list"].

Definition view_order_message : string :=
  "Only graph, pivot or list views are supported".

(** The loop [for vtype in rec.view_order.split(",")]. *)
Fixpoint check_vtypes (vtypes : list string) : M World unit :=
  match vtypes with
  | [] => ret tt
  | vtype :: vtypes' =>
      if bool_decide (vtype ∉ supported_views) then
        raise (UserError view_order_message)
      else check_vtypes vtypes'
  end.

(** [_check_view_order] on a record whose [view_order] is given; an
    unset [view_order] is the empty string. *)
Definition _check_view_order (view_order : string) : M World unit :=
  if String.eqb view_order "" then ret tt
  else check_vtypes (split "," view_order).

(** The separator does not occur in the string. *)
Fixpoint free_of (sep : ascii) (s : string) : bool :=
  match s with
  | EmptyString => true
  | String c s' => negb (Ascii.eqb c sep) && free_of sep s'
  end.

Lemma split_not_nil (sep : ascii) (s : string) : split sep s <> [].
Proof.
  destruct s as [|c s]; [done |]. simpl.
  destruct (Ascii.eqb c sep); [done |]. by destruct (split sep s).
Qed.

Lemma join_cons (sep x : string) (y : string) (l : list string) :
  PyStr.join sep (x :: y :: l) = x +:+ sep +:+ PyStr.join sep (y :: l).
Proof. done. Qed.

(** Joining what was split gives the string back. *)
Lemma join_split (sep : ascii) (s : string) :
  PyStr.join (String sep "") (split sep s) = s.
Proof.
  induction s as [|c s IH]; [done |].
  cbn [split]. destruct (Ascii.eqb_spec c sep) as [-> | Hne].
  - pose proof (split_not_nil sep s) as Hnil.
    destruct (split sep s) as [|y l]; [done |].
    rewrite join_cons, IH. done.
  - pose proof (split_not_nil sep s) as Hnil.
    destruct (split sep s) as [|y l]; [done |].
    destruct l as [|z l].
    + simpl in *. by rewrite IH.
    + rewrite join_cons. rewrite join_cons in IH.
      change (String c y +:+ String sep "" +:+ PyStr.join (String sep "") (z :: l))
        with (String c (y +:+ String sep "" +:+ PyStr.join (String sep "") (z :: l))).
      by rewrite IH.
Qed.

Lemma split_free (sep : ascii) (x : string) :
  free_of sep x = true -> split sep x = [x].
Proof.
  induction x as [|c x IH]; [done |]. simpl.
  intros [Hc Hx]%andb_true_iff. apply negb_true_iff in Hc. rewrite Hc.
  by rewrite IH.
Qed.

Lemma split_app (sep : ascii) (x rest : string) :
  free_of sep x = true ->
  split sep (x +:+ String sep rest) = x :: split sep rest.
Proof.
  induction x as [|c x IH].
  - intros _. simpl. by rewrite Ascii.eqb_refl.
  - simpl. intros [Hc Hx]%andb_true_iff. apply negb_true_iff in Hc.
    rewrite Hc. by rewrite IH.
Qed.

(** Splitting what was joined gives the pieces back, when none of them
    holds the separator. *)
Lemma split_join (sep : ascii) (l : list string) :
  l <> [] -> Forall (fun x => free_of sep x = true) l ->
  split sep (PyStr.join (String sep "") l) = l.
Proof.
  induction l as [|x l IH]; [done |]. intros _ Hall.
  apply Forall_cons in Hall as [Hx Hall].
  destruct l as [|y l]; [by apply split_free |].
  rewrite join_cons. 
  change (x +:+ String sep "" +:+ PyStr.join (String sep "") (y :: l))
    with (x +:+ String sep (PyStr.join (String sep "") (y :: l))).
  rewrite split_app by done. f_equal. by apply IH.
Qed.

Lemma check_vtypes_spec (vtypes : list string) (w : World) :
  (Forall (fun v => v ∈ supported_views) vtypes /\
   check_vtypes vtypes w = (inr tt, w))
  \/ (~ Forall (fun v => v ∈ supported_views) vtypes /\
      check_vtypes vtypes w = (inl (UserError view_order_message), w)).
Proof.
  induction vtypes as [|v vtypes IH]; [by left |].
  cbn [check_vtypes]. destruct (bool_decide_reflect (v ∉ supported_views)) as [Hout | Hin].
  - right. split; [| done]. by intros [Hv _]%Forall_cons.
  - assert (v ∈ supported_views) as Hv
      by (destruct (decide (v ∈ supported_views)); [done | by destruct Hin]).
    destruct IH as [[Hall Hret] | [Hnot Hraise]].
    + left. split; [by apply Forall_cons | done].
    + right. split; [| done]. by intros [_ Hall]%Forall_cons.
Qed.

Lemma supported_views_free (v : string) :
  v ∈ supported_views -> free_of "," v = true.
Proof.
  unfold supported_views. intros Hv.
  repeat (apply elem_of_cons in Hv as [-> | Hv]; [done |]).
  by apply elem_of_nil in Hv.
Qed.

(** X16. The constraint on [view_order] accepts exactly the empty value
    and the lists of [graph], [pivot] and [list] joined by commas, in any
    order and with repetitions; anything else, a blank after a comma or a
    comma at the end included, raises the user error.  The record is not
    written. *)
Theorem check_view_order_accepts_joined (view_order : string) (w : World) :
  (_check_view_order view_order w = (inr tt, w) <->
   exists vtypes,
     view_order = PyStr.join "," vtypes /\
     Forall (fun v => v ∈ supported_views) vtypes) /\
  (_check_view_order view_order w = (inr tt, w) \/
   _check_view_order view_order w = (inl (UserError view_order_message), w)) /\
  _check_view_order "graph, pivot" w
  = (inl (UserError view_order_message), w) /\
  _check_view_order "pivot,graph," w
  = (inl (UserError view_order_message), w).
Proof.
  split; [| split; [| split]].
  - unfold _check_view_order.
    destruct (String.eqb_spec view_order "") as [-> | Hne].
    { split; [| done]. intros _. by exists []. }
    destruct (check_vtypes_spec (split "," view_order) w)
      as [[Hall Hret] | [Hnot Hraise]].
    + split; [| done]. intros _. exists (split "," view_order).
      split; [| done]. symmetry. apply join_split.
    + rewrite Hraise. split; [done |]. intros (vtypes & -> & Hall).
      destruct Hnot. destruct vtypes as [|v vtypes]; [done |].
      rewrite split_join; [done | done |].
      eapply Forall_impl; [exact Hall |]. apply supported_views_free.
  - unfold _check_view_order. destruct (String.eqb view_order ""); [by left |].
    destruct (check_vtypes_spec (split "," view_order) w)
      as [[_ Hret] | [_ Hraise]]; [by left | by right].
  - reflexivity.
  - reflexivity.
Qed.

Lemma check_view_order_accepts_joined_witness :
  _check_view_order "pivot,graph,pivot"
    (Samples.sample_view false) = (inr tt, Samples.sample_view false).
Proof.
  apply (proj1 (check_view_order_accepts_joined "pivot,graph,pivot"
                  (Samples.sample_view false))).
  exists ["pivot"; "graph"; "pivot"]. split; [reflexivity |].
  repeat constructor.
Defined.

End ViewOrder.

(** ** [bi.sql.view]: the validation button *)

Module ViewValidation.

Import BiSqlViewField BiSqlView Samples FieldSync.

(** The view after [_clean_query] stored [q']. *)
Definition with_query (q' : string) (w : World) : World :=
  on_self (fun v => set_request (SqlRequestMixin.set_query q' (request v)) v) w.

Lemma of_mixin_to_mixin (w : World) : of_mixin (to_mixin w) w = w.
Proof.
  destruct w as [v table next o tr].
  by destruct v as [i [nm q st ext hgc] tn mat sz cron rule model tv gv pv sv act menu].
Qed.

(** The validation of a view, step by step. *)
Lemma button_validate_sql_expression_eq (env : Env) (w : World) :
  button_validate_sql_expression env w
  = match SqlRequestMixin.strip_semicolons (PyStr.strip (query (self w))) with
    | inl e => (inl e, w)
    | inr q' =>
        match SqlRequestMixin.check_words SqlRequestMixin.PROHIBITED_WORDS
                (PyStr.lower q') (to_mixin (with_query q' w)) with
        | (inl e, m) => (inl e, of_mixin m (with_query q' w))
        | (inr _, m) =>
            match _check_execution env (of_mixin m (with_query q' w)) with
            | (inl e, w2) => (inl e, w2)
            | (inr _, w2) => (inr tt, on_self (set_state sql_valid) w2)
            end
        end
    end.
Proof.
  unfold button_validate_sql_expression,
    SqlRequestMixin.button_validate_sql_expression, when,
    SqlRequestMixin._clean_query_enabled,
    SqlRequestMixin._check_prohibited_words_enabled,
    SqlRequestMixin._check_execution_enabled,
    SqlRequestMixin._clean_query, SqlRequestMixin._check_prohibited_words.
  unfold bind at 1 2 3. unfold lift at 1.
  unfold bind at 1, gets at 1.
  change (SqlRequestMixin.query (SqlRequestMixin.self (to_mixin w)))
    with (query (self w)).
  destruct (SqlRequestMixin.strip_semicolons (PyStr.strip (query (self w))))
    as [e | q'].
  { unfold raise. by rewrite of_mixin_to_mixin. }
  unfold modify.
  change (of_mixin (SqlRequestMixin.on_self (SqlRequestMixin.set_query q')
                      (to_mixin w)) w) with (with_query q' w).
  unfold lift at 1. unfold bind at 1, gets at 1.
  change (SqlRequestMixin.query
            (SqlRequestMixin.self (to_mixin (with_query q' w)))) with q'.
  destruct (SqlRequestMixin.check_words _ _ _) as [[e | []] m]; [done |].
  unfold bind, ret, lift.
  destruct (_check_execution env (of_mixin m (with_query q' w)))
    as [[e | columns] w2]; [done |].
  reflexivity.
Qed.

(** What [_check_execution] leaves, on both exits. *)
Lemma check_execution_outcome (env : Env) (w : World) :
  wf w ->
  let '(r, w2) := _check_execution env w in
  self w2 = self w /\ orm w2 = orm w /\
  forall columns : list column,
    r = inr columns ->
    probe_accepted env (self w) /\ wf w2 /\
    bi_sql_view_field_ids w2 <> [] /\ settled (pg_attribute env) w2.
Proof.
  intros Hwf. unfold _check_execution, bind.
  destruct (FieldIdentity.super_check_execution_frame env w)
    as (r0 & t & Hprobe).
  rewrite Hprobe. destruct r0 as [e | columns]; [done |].
  pose proof (super_check_execution_returns _ _ _ _ Hprobe) as Haccepted.
  rewrite (super_check_execution_accepted _ _ Haccepted) in Hprobe.
  injection Hprobe as <- Htrace.
  pose proof (FieldIdentity.reconcile_evolved w (pg_attribute env)
                (with_trace t w) Hwf
                (FieldIdentity.evolved_with_trace _ _ t
                   (FieldIdentity.evolved_refl _)))
    as [Hself Horm _ _ _].
  destruct (reconcile (pg_attribute env) (with_trace t w))
    as [[e | columns'] w2] eqn:Hrun; [done |].
  apply reconcile_establishes in Hrun
    as (-> & Hwf2 & Hsettled & Hfields & _ & _ & _); [| done].
  simpl in *. do 2 (split; [done |]). by intros _ _.
Qed.

(** X17. The validation of a view, on a table with unique identifiers
    and whatever the database answers.  It never writes the technical
    name, the flag [is_materialized] or the other tables.  When it raises
    the state is the one it found.  When it returns the state is
    [sql_valid]; the stored query is the one it found without the
    whitespace around it and its final [;], and holds no prohibited word;
    the database accepted the probe of that query; and the view has at
    least one field, each column of the manifest having no field (and no
    prefix) or exactly one, and each field holding the ordinal and the
    type of the last column of its name. *)
Theorem validate_view_outcome (env : Env) (w : World) :
  wf w ->
  let r := (button_validate_sql_expression env w).1 in
  let w' := (button_validate_sql_expression env w).2 in
  technical_name (self w') = technical_name (self w) /\
  is_materialized (self w') = is_materialized (self w) /\
  orm w' = orm w /\
  match r with
  | inl _ => state (self w') = state (self w)
  | inr _ =>
      state (self w') = sql_valid /\
      Validation.cleaned (query (self w)) (query (self w')) /\
      (forall word, word ∈ SqlRequestMixin.PROHIBITED_WORDS ->
         ~ ProhibitedWords.whole_word_in word (query (self w'))) /\
      probe_accepted env (self w') /\
      wf w' /\
      bi_sql_view_field_ids w' <> [] /\
      settled (pg_attribute env) w'
  end.
Proof.
  intros Hwf. rewrite button_validate_sql_expression_eq.
  pose proof (CleanQuery.strip_semicolons_spec (PyStr.strip (query (self w))))
    as Hclean.
  destruct (SqlRequestMixin.strip_semicolons (PyStr.strip (query (self w))))
    as [e | q']; [done |].
  destruct Hclean as (_ & Ht & Hc).
  destruct (ProhibitedWords.check_words_spec SqlRequestMixin.PROHIBITED_WORDS
              q' (to_mixin (with_query q' w))
              ProhibitedWords.prohibited_words_word_like)
    as [[Hnone Hret] | (word & _ & _ & Hraise)].
  2: { rewrite Hraise. by rewrite of_mixin_to_mixin. }
  rewrite Hret, of_mixin_to_mixin.
  pose proof (check_execution_outcome env (with_query q' w) Hwf) as Hout.
  destruct (_check_execution env (with_query q' w)) as [[e | columns] w2].
  { destruct Hout as (Hself & Horm & _). simpl. by rewrite Hself, Horm. }
  destruct Hout as (Hself & Horm & Hout).
  destruct (Hout columns eq_refl) as (Haccepted & Hwf2 & Hfields & Hsettled).
  simpl. rewrite Hself, Horm. do 3 (split; [done |]).
  split; [done |]. split; [done |]. split; [done |].
  split; [exact Haccepted |]. split; [exact Hwf2 |].
  split; [exact Hfields | exact Hsettled].
Qed.

Lemma validate_view_outcome_witness :
  state (self (button_validate_sql_expression (sample_env sample_manifest)
                 sample_before).2) = sql_valid /\
  bi_sql_view_field_ids
    (button_validate_sql_expression (sample_env sample_manifest)
       sample_before).2 <> [].
Proof.
  assert (wf sample_before) as Hwf.
  { split.
    - apply (bool_decide_unpack _). vm_compute. exact I.
    - repeat constructor; simpl; lia. }
  pose proof (validate_view_outcome (sample_env sample_manifest)
                sample_before Hwf) as (_ & _ & _ & Hout).
  assert ((button_validate_sql_expression (sample_env sample_manifest)
             sample_before).1 = inr tt) as Hrun by reflexivity.
  rewrite Hrun in Hout.
  by destruct Hout as (Hstate & _ & _ & _ & _ & Hfields & _).
Defined.

End ViewValidation.
